(** * Dilbert: incremental comic archive synchroniser

    A shallow embedding of [dilbert/dilbert.py] and the properties of its
    synchronisation loop, store and feed builder.

    The program talks to four external collaborators: the calendar
    ([datetime.date]), an SQLite table, the network ([urllib]) together with
    the HTML parser ([lxml]), and the file system.  The calendar and the
    table are modelled concretely, following the libraries' documented
    behaviour; network, parser and file system are oracles of an
    environment record, so every theorem holds for all their behaviours.

    Left out: the diagnostic output of [_debug], the request header, and
    failures of the machine itself (a full disk, a locked database). *)

From Stdlib Require Import ZArith List String Ascii Bool Lia.
From Stdlib Require Import Sorting.Sorted Sorting.Permutation.
From Stdlib Require Import Numbers.DecimalString.
Import ListNotations.

Open Scope string_scope.
Open Scope list_scope.
Open Scope Z_scope.

(* ================================================================== *)
(** * Exceptions *)
(* ================================================================== *)

(** The Python exceptions the program can raise.  The specification's
    taxonomy maps onto them: TransportError is [URLError], ParseError is
    the [IndexError] of [xpath(...)[0]] (and [ParserError] of lxml),
    ConstraintError is [IntegrityError]. *)
Inductive exn : Type :=
| URLError
| IndexError
| ParserError
| TypeError
| ValueError
| OverflowError
| IntegrityError
| OSError.

Inductive result (A : Type) : Type :=
| Ok (a : A)
| Raise (e : exn).
Arguments Ok {A} a.
Arguments Raise {A} e.

(* ================================================================== *)
(** * [datetime.date] *)
(* ================================================================== *)

Module PyDate.

(** A [date] holds year, month and day; Python only builds valid ones
    (see [valid]). *)
Record date : Type := mkdate { year : Z; month : Z; day : Z }.

Definition MINYEAR : Z := 1.
Definition MAXYEAR : Z := 9999.

Definition _is_leap (y : Z) : bool :=
  (y mod 4 =? 0) && (negb (y mod 100 =? 0) || (y mod 400 =? 0)).

Definition _days_before_year (y : Z) : Z :=
  let y := y - 1 in y * 365 + y / 4 - y / 100 + y / 400.

Definition _DAYS_IN_MONTH (m : Z) : Z :=
  nth (Z.to_nat m) [-1; 31; 28; 31; 30; 31; 30; 31; 31; 30; 31; 30; 31] 0.

Definition _DAYS_BEFORE_MONTH (m : Z) : Z :=
  nth (Z.to_nat m) [-1; 0; 31; 59; 90; 120; 151; 181; 212; 243; 273; 304; 334] 0.

Definition _days_in_month (y m : Z) : Z :=
  if (m =? 2) && _is_leap y then 29 else _DAYS_IN_MONTH m.

Definition _days_before_month (y m : Z) : Z :=
  _DAYS_BEFORE_MONTH m + (if (m >? 2) && _is_leap y then 1 else 0).

Definition _ymd2ord (y m d : Z) : Z :=
  _days_before_year y + _days_before_month y m + d.

Definition _DI400Y : Z := 146097.
Definition _DI100Y : Z := 36524.
Definition _DI4Y : Z := 1461.

(** [_ord2ymd] after the 400-year cycle has been split off: [n] is the
    zero-based day within the cycle and [year] the first year of it. *)
Definition _ord2ymd_in_cycle (year n : Z) : date :=
  let n100 := n / _DI100Y in
  let n := n mod _DI100Y in
  let n4 := n / _DI4Y in
  let n := n mod _DI4Y in
  let n1 := n / 365 in
  let n := n mod 365 in
  let year := year + n100 * 100 + n4 * 4 + n1 in
  if (n1 =? 4) || (n100 =? 4) then mkdate (year - 1) 12 31
  else
    let leapyear := (n1 =? 3) && (negb (n4 =? 24) || (n100 =? 3)) in
    let month := Z.shiftr (n + 50) 5 in
    let preceding :=
      _DAYS_BEFORE_MONTH month + (if (month >? 2) && leapyear then 1 else 0) in
    if preceding >? n then
      let month := month - 1 in
      let preceding :=
        preceding - (_DAYS_IN_MONTH month
                     + (if (month =? 2) && leapyear then 1 else 0)) in
      mkdate year month (n - preceding + 1)
    else mkdate year month (n - preceding + 1).

Definition _ord2ymd (n : Z) : date :=
  let n := n - 1 in
  let n400 := n / _DI400Y in
  let n := n mod _DI400Y in
  _ord2ymd_in_cycle (n400 * 400 + 1) n.

Definition _MAXORDINAL : Z := 3652059.

Definition toordinal (d : date) : Z := _ymd2ord (year d) (month d) (day d).
Definition fromordinal (n : Z) : date := _ord2ymd n.

(** The check of [date.__new__]. *)
Definition valid (d : date) : bool :=
  (MINYEAR <=? year d) && (year d <=? MAXYEAR)
  && (1 <=? month d) && (month d <=? 12)
  && (1 <=? day d) && (day d <=? _days_in_month (year d) (month d)).

(** [d + timedelta(days=n)]. *)
Definition add_days (d : date) (n : Z) : result date :=
  let o := toordinal d + n in
  if (0 <? o) && (o <=? _MAXORDINAL) then Ok (fromordinal o)
  else Raise OverflowError.

(** [d - timedelta(days=n)], which Python computes as
    [d + timedelta(-n)]. *)
Definition sub_days (d : date) (n : Z) : result date := add_days d (- n).

(** [(d1 - d2).days]. *)
Definition days_between (d1 d2 : date) : Z := toordinal d1 - toordinal d2.

(** Python compares dates as the tuples (year, month, day). *)
Definition compare (d1 d2 : date) : comparison :=
  match year d1 ?= year d2 with
  | Eq => match month d1 ?= month d2 with
          | Eq => day d1 ?= day d2
          | c => c
          end
  | c => c
  end.

Definition ltb (d1 d2 : date) : bool :=
  match compare d1 d2 with Lt => true | _ => false end.
Definition leb (d1 d2 : date) : bool :=
  match compare d1 d2 with Gt => false | _ => true end.

Definition eqb (d1 d2 : date) : bool :=
  (year d1 =? year d2) && (month d1 =? month d2) && (day d1 =? day d2).

End PyDate.
Import PyDate.

(* ================================================================== *)
(** * Text *)
(* ================================================================== *)

(** Strings are byte strings; text the program handles is ASCII. *)

(** The double quote character, as a one-character string. *)
Definition dq : string := String (ascii_of_nat 34) EmptyString.

Definition digit_char (d : Z) : ascii := ascii_of_nat (48 + Z.to_nat d).

Definition digit_val (c : ascii) : option Z :=
  let n := Z.of_nat (nat_of_ascii c) in
  if (48 <=? n) && (n <=? 57) then Some (n - 48) else None.

Definition is_digit (c : ascii) : bool :=
  match digit_val c with Some _ => true | None => false end.

(** ["%0kd" % n] for [0 <= n < 10^k], which is the case of every field
    of a valid date: exactly [k] decimal digits, most significant
    first. *)
Fixpoint dec_digits (k : nat) (n : Z) : string :=
  match k with
  | O => EmptyString
  | S k' => String (digit_char (n / 10 ^ Z.of_nat k'))
                   (dec_digits k' (n mod 10 ^ Z.of_nat k'))
  end.

(** [str(n)] of a Python [int]. *)
Definition str_int (n : Z) : string := NilZero.string_of_int (Z.to_int n).

(** [date.isoformat()], also [str(date)] and ["{}".format(date)]:
    ["%04d-%02d-%02d" % (year, month, day)]. *)
Definition isoformat (d : date) : string :=
  dec_digits 4 (year d) ++ "-" ++ dec_digits 2 (month d) ++ "-"
  ++ dec_digits 2 (day d).

(** Reads exactly [k] decimal digits (CPython's [parse_digits]). *)
Fixpoint parse_digits (k : nat) (s : string) (acc : Z) : option (Z * string) :=
  match k with
  | O => Some (acc, s)
  | S k' =>
      match s with
      | String c s' =>
          match digit_val c with
          | Some v => parse_digits k' s' (acc * 10 + v)
          | None => None
          end
      | EmptyString => None
      end
  end.

(** [date.fromisoformat(s)] for a [str]: the format [YYYY-MM-DD] and
    nothing else (Python 3.7 to 3.10; later versions accept further
    formats, and agree on this one), then the check of the
    constructor. *)
Definition fromisoformat (s : string) : result date :=
  match parse_digits 4 s 0 with
  | Some (y, String "-" s1) =>
      match parse_digits 2 s1 0 with
      | Some (m, String "-" s2) =>
          match parse_digits 2 s2 0 with
          | Some (d, EmptyString) =>
              if valid (mkdate y m d) then Ok (mkdate y m d)
              else Raise ValueError
          | _ => Raise ValueError
          end
      | _ => Raise ValueError
      end
  | _ => Raise ValueError
  end.

(** [needle in s]: substring test, the [contains] of XPath. *)
Fixpoint contains (s needle : string) : bool :=
  prefix needle s
  || match s with
     | EmptyString => false
     | String _ s' => contains s' needle
     end.

(** ** [re.sub(' - .*$', '', s)]

    Without flags [.] matches any character but a newline and [$]
    matches at the end of the string and just before a newline that ends
    the string.  A match starts at the leftmost [" - "] from which the
    rest of the string holds no newline other than a final one; it
    extends up to that point, so the search for a second match finds
    nothing. *)
Definition newline : ascii := ascii_of_nat 10.

(** [Some tail] when [.*$] matches [s] from its start; [tail] is what
    remains after the match (empty, or the final newline). *)
Fixpoint dotstar_eol (s : string) : option string :=
  match s with
  | EmptyString => Some EmptyString
  | String c s' =>
      if Ascii.eqb c newline then
        match s' with
        | EmptyString => Some s
        | _ => None
        end
      else dotstar_eol s'
  end.

Fixpoint re_sub_dash_tail (s : string) : string :=
  match s with
  | EmptyString => EmptyString
  | String c s' =>
      match (if prefix " - " s then dotstar_eol (substring 3 (length s - 3) s)
             else None) with
      | Some tail => tail
      | None => String c (re_sub_dash_tail s')
      end
  end.


(* ================================================================== *)
(** * Python values *)
(* ================================================================== *)

(** The values an attribute of a comic can hold: what [el.get] returns
    ([str] or [None]), a [Path], and what [sqlite3] hands back for a
    column. *)
Inductive pyval : Type :=
| PyNone
| PyInt (n : Z)
| PyNumber (lit : string)
    (** the number read back from SQLite for a stored numeric literal
        [lit] that is not a 64-bit decimal integer: a [float], or an
        [int] when the literal is integral; its value is not modelled *)
| PyStr (s : string)
| PyPath (s : string)
    (** a [pathlib.Path], by its [str()] *).

(** [datetime.datetime]: a date and the microseconds since midnight. *)
Record datetime : Type := mkdatetime { dt_date : date; dt_micros : Z }.

(** [datetime.combine(d, datetime.min.time())]. *)
Definition datetime_midnight (d : date) : datetime := mkdatetime d 0.

(* ================================================================== *)
(** * SQLite *)
(* ================================================================== *)

Module Sqlite.

Inductive sqlval : Type :=
| SqlNull
| SqlInt (n : Z)
| SqlReal (lit : string)
    (** the number SQLite makes of the numeric literal [lit] when it is
        not a 64-bit decimal integer (a REAL, or an INTEGER when the
        real is integral); its value is not modelled *)
| SqlText (s : string).

Inductive affinity : Type := TEXT | NUMERIC | INTEGER.

Definition sqlite_isspace (c : ascii) : bool :=
  let n := nat_of_ascii c in
  ((n =? 32) || ((9 <=? n) && (n <=? 13)))%nat.

Fixpoint skip_spaces (s : string) : string :=
  match s with
  | String c s' => if sqlite_isspace c then skip_spaces s' else s
  | EmptyString => EmptyString
  end.

(** Reads a run of digits: how many, their value, and the rest. *)
Fixpoint span_digits (s : string) (cnt : nat) (acc : Z) : nat * Z * string :=
  match s with
  | String c s' =>
      match digit_val c with
      | Some v => span_digits s' (S cnt) (acc * 10 + v)
      | None => (cnt, acc, s)
      end
  | EmptyString => (cnt, acc, EmptyString)
  end.

Inductive numeric_literal : Type :=
| NotNumeric
| IntegerLiteral (n : Z)
| RealLiteral.

(** Whether a text is a well-formed integer or real literal
    ([sqlite3AtoF]): spaces, sign, digits with an optional fraction,
    an optional exponent, spaces; at least one digit in the mantissa
    and, after an exponent mark, in the exponent. *)
Definition classify_numeric (s : string) : numeric_literal :=
  let s := skip_spaces s in
  let '(neg, s) :=
    match s with
    | String "-" r => (true, r)
    | String "+" r => (false, r)
    | _ => (false, s)
    end in
  let '(ni, iv, s) := span_digits s 0 0 in
  let '(dot, nf, s) :=
    match s with
    | String "." r => let '(nf, _, r') := span_digits r 0 0 in (true, nf, r')
    | _ => (false, 0%nat, s)
    end in
  let '(ex, evalid, s) :=
    match s with
    | String c r =>
        if Ascii.eqb c "e" || Ascii.eqb c "E" then
          let r :=
            match r with
            | String "-" r' => r'
            | String "+" r' => r'
            | _ => r
            end in
          let '(ne, _, r') := span_digits r 0 0 in
          (true, (0 <? ne)%nat, r')
        else (false, true, s)
    | EmptyString => (false, true, s)
    end in
  match skip_spaces s with
  | EmptyString =>
      if (0 <? ni + nf)%nat && evalid then
        if dot || ex then RealLiteral
        else
          let z := if neg then - iv else iv in
          if (- 2 ^ 63 <=? z) && (z <? 2 ^ 63) then IntegerLiteral z
          else RealLiteral
      else NotNumeric
  | String _ _ => NotNumeric
  end.

(** What a column of the given affinity stores when a TEXT value is
    inserted. *)
Definition store_text (a : affinity) (s : string) : sqlval :=
  match a with
  | TEXT => SqlText s
  | NUMERIC | INTEGER =>
      match classify_numeric s with
      | NotNumeric => SqlText s
      | IntegerLiteral n => SqlInt n
      | RealLiteral => SqlReal s
      end
  end.

(** The order of ORDER BY: NULL, then numbers, then text by its
    bytes.  Two numbers of which one is not a decimal integer compare
    as equal here; no such value is ever a sort key of the program
    (see [store_text_isoformat]). *)
Definition sql_compare (a b : sqlval) : comparison :=
  match a, b with
  | SqlNull, SqlNull => Eq
  | SqlNull, _ => Lt
  | _, SqlNull => Gt
  | SqlText s, SqlText t => String.compare s t
  | SqlText _, _ => Gt
  | _, SqlText _ => Lt
  | SqlInt m, SqlInt n => m ?= n
  | _, _ => Eq
  end.

(** Equality in a UNIQUE index (BINARY collation); NULLs are
    distinct from each other. *)
Definition sql_unique_eqb (a b : sqlval) : bool :=
  match a, b with
  | SqlInt m, SqlInt n => m =? n
  | SqlText s, SqlText t => String.eqb s t
  | _, _ => false
  end.

(** What [sqlite3] returns to Python for a stored value. *)
Definition to_python (v : sqlval) : pyval :=
  match v with
  | SqlNull => PyNone
  | SqlInt n => PyInt n
  | SqlReal lit => PyNumber lit
  | SqlText s => PyStr s
  end.

End Sqlite.
Import Sqlite.

(** A row of the table [dilbert]. *)
Module Row.
Record t : Type := mk {
  id : Z;
  pubdate : sqlval;
  url : sqlval;
  title : sqlval;
  filename : sqlval;
  width : sqlval;
  height : sqlval;
  updated : sqlval
}.
End Row.

(** [... order by `pubdate` desc]: an insertion sort.  SQLite leaves the
    order of rows with equal keys open; here a row stays ahead of rows
    with an equal key that were stored after it. *)
Fixpoint insert_desc (r : Row.t) (l : list Row.t) : list Row.t :=
  match l with
  | [] => [r]
  | x :: l' =>
      match sql_compare (Row.pubdate r) (Row.pubdate x) with
      | Lt => x :: insert_desc r l'
      | _ => r :: l
      end
  end.

Definition order_by_pubdate_desc (rows : list Row.t) : list Row.t :=
  fold_right insert_desc [] rows.

(** [select ... from dilbert order by `pubdate` desc limit n]; a
    negative limit is no limit. *)
Definition select_latest (n : Z) (rows : list Row.t) : list Row.t :=
  if n <? 0 then order_by_pubdate_desc rows
  else firstn (Z.to_nat n) (order_by_pubdate_desc rows).

(* ================================================================== *)
(** * HTML documents *)
(* ================================================================== *)

#[local] Set Warnings "-register-all".
Inductive element : Type :=
| Element (tag : string) (attrs : list (string * string))
          (children : list element).

Definition el_tag (e : element) : string :=
  match e with Element t _ _ => t end.
Definition el_attrs (e : element) : list (string * string) :=
  match e with Element _ a _ => a end.

(** [el.get(name)]. *)
Fixpoint attr_lookup (name : string) (attrs : list (string * string))
  : option string :=
  match attrs with
  | [] => None
  | (k, v) :: rest => if String.eqb k name then Some v else attr_lookup name rest
  end.

Definition el_get (e : element) (name : string) : pyval :=
  match attr_lookup name (el_attrs e) with
  | Some v => PyStr v
  | None => PyNone
  end.

(** The element and its descendants in document order: the nodes [//]
    visits. *)
Fixpoint descendants_or_self (e : element) : list element :=
  match e with
  | Element _ _ cs => e :: flat_map descendants_or_self cs
  end.

(** XPath white space: space, tab, line feed, carriage return. *)
Definition xml_space (c : ascii) : bool :=
  let n := nat_of_ascii c in
  ((n =? 32) || (n =? 9) || (n =? 10) || (n =? 13))%nat.

(** The space-delimited items of a text; [cur] is the item being read. *)
Fixpoint split_ws (s : string) (cur : string) : list string :=
  match s with
  | EmptyString => match cur with EmptyString => [] | _ => [cur] end
  | String c s' =>
      if xml_space c then
        match cur with
        | EmptyString => split_ws s' EmptyString
        | _ => cur :: split_ws s' EmptyString
        end
      else split_ws s' (cur ++ String c EmptyString)%string
  end.

(** [normalize-space(s)]: leading and trailing white space removed, every
    other run of white space replaced by one space. *)
Definition normalize_space (s : string) : string :=
  String.concat " " (split_ws s EmptyString).

Definition marker_class : string := "img-comic".

(** The predicate of the program's XPath expression
    [//img[@class and contains(concat(' ', normalize-space(@class), ' '), ' img-comic ')]]. *)
Definition is_comic_img (e : element) : bool :=
  String.eqb (el_tag e) "img"
  && match attr_lookup "class" (el_attrs e) with
     | Some cls =>
         contains (" " ++ normalize_space cls ++ " ")%string
                  (" " ++ marker_class ++ " ")%string
     | None => false
     end.

Definition xpath_comic_img (doc : element) : list element :=
  filter is_comic_img (descendants_or_self doc).


(* ================================================================== *)
(** * The environment and the state of a run *)
(* ================================================================== *)

Definition bytes : Type := list Byte.byte.

(** What [urllib.request.urlopen] does with a request. *)
Inductive urlopen_result : Type :=
| UrlRaises (e : exn)
    (** no connection, an error status, a malformed URL, ... *)
| UrlAddinfourl
    (** a handle that is not an HTTP response (ftp, file, data) *)
| UrlResponse (status : Z) (body : bytes).

(** Everything outside the program.  The oracles that stand for the
    outside world take the time, counted in interactions with it, so
    that nothing is assumed to stay the same during a run. *)
Record env : Type := mkenv {
  today : date;
    (** [date.today()]; a run does not last past midnight *)
  urlopen : nat -> string -> urlopen_result;
  open_wb : nat -> string -> bool;
    (** whether [open(path, 'wb')] succeeds *)
  sqlite_now : nat -> string;
    (** [STRFTIME('%Y-%m-%d %H:%M:%f', 'NOW')] *)
  document_fromstring : bytes -> option element;
    (** [lxml.html.document_fromstring]; [None] when it raises *)
  datetime_fromisoformat : string -> option datetime;
    (** [datetime.fromisoformat] on a [str]; [None] when it raises *)
  number_str : string -> string;
    (** [str(x)] for the number [x] of [PyNumber lit] *)
  number_bool : string -> bool
    (** [bool(x)] for the number [x] of [PyNumber lit] *)
}.

(** What a run leaves behind: standard output, requests, files, pauses. *)
Inductive event : Type :=
| EvFetching (d : date)
    (** the line [Fetching comic for <d>] on standard output *)
| EvGet (url : string)
| EvWriteFile (path : string)
| EvSleep.

Record state : Type := mkstate {
  rows : list Row.t;
    (** the table [dilbert], in the order of insertion *)
  last_id : Z;
    (** the largest [id] handed out so far (AUTOINCREMENT) *)
  files : list (string * bytes);
    (** files written, the latest first *)
  trace : list event;
  clock : nat
}.

Definition log (ev : event) (s : state) : state :=
  mkstate (rows s) (last_id s) (files s) (trace s ++ [ev]) (clock s).

Definition tick (s : state) : state :=
  mkstate (rows s) (last_id s) (files s) (trace s) (S (clock s)).

(** Computations that change the state and may raise; the state an
    exception leaves behind is kept. *)
Definition M (A : Type) : Type := state -> state * result A.

Definition ret {A : Type} (a : A) : M A := fun s => (s, Ok a).
Definition raise {A : Type} (e : exn) : M A := fun s => (s, Raise e).
Definition bind {A B : Type} (m : M A) (k : A -> M B) : M B :=
  fun s =>
    match m s with
    | (s', Ok a) => k a s'
    | (s', Raise e) => (s', Raise e)
    end.
Definition lift {A : Type} (r : result A) : M A := fun s => (s, r).
Definition emit (ev : event) : M unit := fun s => (log ev s, Ok tt).

Notation "x <- m ;; k" := (bind m (fun x => k))
  (at level 61, m at next level, right associativity).
Notation "m ;;; k" := (bind m (fun _ => k))
  (at level 61, right associativity).

(** [for x in g: body] over a generator that may raise when asked for
    its next item. *)
Fixpoint for_each {A : Type} (g : list (result A)) (body : A -> M unit)
  : M unit :=
  match g with
  | [] => ret tt
  | x :: g' => a <- lift x ;; body a ;;; for_each g' body
  end.

(** [range(n)]. *)
Definition py_range (n : Z) : list Z := map Z.of_nat (List.seq 0 (Z.to_nat n)).

(* ================================================================== *)
(** * [_daterange] *)
(* ================================================================== *)

(** note: inclusive counting *)
Definition _daterange (start_date end_date : date) : list (result date) :=
  map (fun n => add_days start_date n)
      (py_range (days_between end_date start_date + 1)).

(* ================================================================== *)
(** * [class DilbertComic] *)
(* ================================================================== *)

Definition py_str (e : env) (v : pyval) : string :=
  match v with
  | PyNone => "None"
  | PyInt n => str_int n
  | PyNumber lit => number_str e lit
  | PyStr s => s
  | PyPath s => s
  end.

(** Truth value: [if v:]. *)
Definition py_bool (e : env) (v : pyval) : bool :=
  match v with
  | PyNone => false
  | PyInt n => negb (n =? 0)
  | PyNumber lit => number_bool e lit
  | PyStr s => negb (String.eqb s "")
  | PyPath _ => true
  end.

(** [str(d)] for an attribute that holds a date or [None]. *)
Definition str_date (d : option date) : string :=
  match d with
  | Some d => isoformat d
  | None => "None"
  end.

Module DilbertComic.

Record t : Type := mk {
  id : option Z;
  pubdate : option date;
  url : pyval;
  filename : pyval;
  title : pyval;
  updated : option datetime;
  width : pyval;
  height : pyval
}.

(** The end of [__init__]: fix empty titles on sundays. *)
Definition fix_title (title : pyval) : pyval :=
  match title with
  | PyStr EmptyString => PyStr "-"
  | _ => title
  end.

(** [DilbertComic(pubdate=..., url=..., ...)]: the branch without a
    row. *)
Definition init (comic_id : option Z) (pubdate : option date)
    (url filename title : pyval) (updated : option datetime)
    (width height : pyval) : t :=
  mk comic_id pubdate url filename (fix_title title) updated width height.

(** [DilbertComic(row=row)]: the branch with a row. *)
Definition of_row (e : env) (r : Row.t) : result t :=
  match Row.pubdate r with
  | SqlText p =>
      match fromisoformat p with
      | Ok d =>
          match Row.updated r with
          | SqlText u =>
              match datetime_fromisoformat e u with
              | Some dt =>
                  Ok (mk (Some (Row.id r)) (Some d)
                         (to_python (Row.url r))
                         (to_python (Row.filename r))
                         (fix_title (to_python (Row.title r)))
                         (Some dt)
                         (to_python (Row.width r))
                         (to_python (Row.height r)))
              | None => Raise ValueError
              end
          | _ => Raise TypeError
          end
      | Raise x => Raise x
      end
  | _ => Raise TypeError
  end.

(** [tag(baseurl)]. *)
Definition tag (e : env) (c : t) (baseurl : string) : string :=
  let w := (if py_bool e (width c)
            then "width=" ++ dq ++ py_str e (width c) ++ dq
            else "")%string in
  let h := (if py_bool e (height c)
            then "height=" ++ dq ++ py_str e (height c) ++ dq
            else "")%string in
  let url := (baseurl ++ "/" ++ py_str e (filename c))%string in
  ("<img src=" ++ dq ++ url ++ dq ++ " alt=" ++ dq ++ "comic for "
   ++ str_date (pubdate c) ++ dq ++ " " ++ w ++ " " ++ h ++ "/>")%string.

End DilbertComic.

(* ================================================================== *)
(** * [class Dilbert] *)
(* ================================================================== *)

(** A feed of [feedgenerator]: its metadata and the items added. *)
Record feed_item : Type := mkitem {
  item_title : pyval;
  item_author_name : string;
  item_link : string;
  item_updateddate : option datetime;
  item_pubdate : datetime;
  item_description : string
}.

Record Atom1Feed : Type := mkfeed {
  feed_title : string;
  feed_link : string;
  feed_url : string;
  feed_description : string;
  feed_language : string;
  feed_items : list feed_item
}.

Module Dilbert.

Definition feedname : string := "dilbert.rss".

(** [fetch_url]: the request is logged, the clock advances. *)
Definition fetch_url (e : env) (url : pyval) : M (Z * bytes) :=
  fun s =>
    let s' := tick (log (EvGet (py_str e url)) s) in
    match urlopen e (clock s) (py_str e url) with
    | UrlRaises x => (s', Raise x)
    | UrlAddinfourl => (s', Raise URLError)
    | UrlResponse status body => (s', Ok (status, body))
    end.

(** fetch most recent date present in database *)
Definition latest_date_in_db (s : state) : result (option date) :=
  fold_left
    (fun latest row =>
       match latest with
       | Raise x => Raise x
       | Ok _ =>
           match Row.pubdate row with
           | SqlText p =>
               match fromisoformat p with
               | Ok d => Ok (Some d)
               | Raise x => Raise x
               end
           | _ => Raise TypeError
           end
       end)
    (select_latest 1 (rows s)) (Ok None).

(** [comics(num)]; the first row that cannot be read raises. *)
Fixpoint comics_of_rows (e : env) (rs : list Row.t)
  : result (list DilbertComic.t) :=
  match rs with
  | [] => Ok []
  | r :: rs' =>
      match DilbertComic.of_row e r with
      | Ok c =>
          match comics_of_rows e rs' with
          | Ok cs => Ok (c :: cs)
          | Raise x => Raise x
          end
      | Raise x => Raise x
      end
  end.

Definition comics (e : env) (num : Z) (s : state)
  : result (list DilbertComic.t) :=
  comics_of_rows e (select_latest num (rows s)).

Definition day_url (pubdate : date) : string :=
  "http://dilbert.com/strip/" ++ isoformat pubdate.

Definition find_comic_by_pubdate (e : env) (pubdate : date)
  : M DilbertComic.t :=
  emit (EvFetching pubdate) ;;;
  res <- fetch_url e (PyStr (day_url pubdate)) ;;
  match document_fromstring e (snd res) with
  | None => raise ParserError
  | Some html =>
      match xpath_comic_img html with
      | [] => raise IndexError
      | el :: _ =>
          match el_get el "alt" with
          | PyStr alt =>
              ret (DilbertComic.init None (Some pubdate)
                     (el_get el "src")
                     (PyPath (isoformat pubdate ++ ".gif")%string)
                     (PyStr (re_sub_dash_tail alt))
                     None
                     (el_get el "width")
                     (el_get el "height"))
          | _ => raise TypeError
          end
      end
  end.

Definition download_comic (e : env) (filename url : pyval) : M unit :=
  let filename_full := ("cartoons/" ++ py_str e filename)%string in
  res <- fetch_url e url ;;
  fun s =>
    if open_wb e (clock s) filename_full then
      (log (EvWriteFile filename_full)
         (tick (mkstate (rows s) (last_id s)
                        ((filename_full, snd res) :: files s)
                        (trace s) (clock s))),
       Ok tt)
    else (tick s, Raise OSError).

(** The INSERT and the commit.  Every parameter is a [str], so no
    NOT NULL constraint can fail; the UNIQUE constraint on [filename]
    can. *)
Definition insert_row (e : env) (vals : list string) : M unit :=
  fun s =>
    match vals with
    | [pubdate; url; title; filename; width; height] =>
        let r :=
          Row.mk (last_id s + 1)
                 (store_text NUMERIC pubdate)
                 (store_text TEXT url)
                 (store_text TEXT title)
                 (store_text TEXT filename)
                 (store_text INTEGER width)
                 (store_text INTEGER height)
                 (SqlText (sqlite_now e (clock s))) in
        if existsb (fun x => sql_unique_eqb (Row.filename x) (Row.filename r))
                   (rows s)
        then (s, Raise IntegrityError)
        else (tick (mkstate (rows s ++ [r]) (last_id s + 1) (files s)
                            (trace s) (clock s)),
              Ok tt)
    | _ => (s, Raise ValueError)
    end.

Definition str_fields (e : env) (c : DilbertComic.t) : list string :=
  [ str_date (DilbertComic.pubdate c);
    py_str e (DilbertComic.url c);
    py_str e (DilbertComic.title c);
    py_str e (DilbertComic.filename c);
    py_str e (DilbertComic.width c);
    py_str e (DilbertComic.height c) ].

Definition write_comic_to_db (e : env) (comic : DilbertComic.t) : M unit :=
  insert_row e (str_fields e comic).

Definition update_comic_by_pubdate (e : env) (pubdate : date) : M unit :=
  comic <- find_comic_by_pubdate e pubdate ;;
  download_comic e (DilbertComic.filename comic) (DilbertComic.url comic) ;;;
  write_comic_to_db e comic.

(** The dates [update] runs through: the argument of its loop, as a
    function of the store. *)
Definition update_range (e : env) (s : state) : result (list (result date)) :=
  match latest_date_in_db s with
  | Raise x => Raise x
  | Ok latest =>
      match (match latest with
             | Some d => Ok d
             | None => sub_days (today e) 10
             end) with
      | Raise x => Raise x
      | Ok start =>
          match add_days start 1 with
          | Raise x => Raise x
          | Ok start => Ok (_daterange start (today e))
          end
      end
  end.

(** The body of the loop of [update]; the pause of [time.sleep(1.2)]
    is an event. *)
Definition update_step (e : env) (pubdate : date) : M unit :=
  update_comic_by_pubdate e pubdate ;;;
  emit EvSleep.

Definition update (e : env) : M unit :=
  start <- (fun s => (s, latest_date_in_db s)) ;;
  start <- lift (match start with
                 | Some d => Ok d
                 | None => sub_days (today e) 10   (* default: 10 days ago *)
                 end) ;;
  start <- lift (add_days start 1) ;;
  for_each (_daterange start (today e)) (update_step e).

Definition feed_item_of (e : env) (baseurl : string) (comic : DilbertComic.t)
  : result feed_item :=
  match DilbertComic.pubdate comic with
  | Some d =>
      Ok (mkitem (DilbertComic.title comic)
                 "Scott Adams"
                 ("http://dilbert.com/strip/" ++ isoformat d)%string
                 (DilbertComic.updated comic)
                 (datetime_midnight d)
                 (DilbertComic.tag e comic baseurl))
  | None => Raise TypeError
  end.

Fixpoint add_items (e : env) (baseurl : string) (cs : list DilbertComic.t)
    (items : list feed_item) : result (list feed_item) :=
  match cs with
  | [] => Ok items
  | c :: cs' =>
      match feed_item_of e baseurl c with
      | Ok it => add_items e baseurl cs' (items ++ [it])
      | Raise x => Raise x
      end
  end.

Definition feed (e : env) (baseurl : string) (s : state) : result Atom1Feed :=
  match comics e 10 s with
  | Raise x => Raise x
  | Ok cs =>
      match add_items e baseurl cs [] with
      | Raise x => Raise x
      | Ok items =>
          Ok (mkfeed "De dagelijke Dilbert"
                     "http://dilbert.com/"
                     (baseurl ++ "/" ++ feedname)%string
                     "Daily dilbert in a nice feed"
                     "en"
                     items)
      end
  end.

End Dilbert.

(* ================================================================== *)
(** * The calendar, for the proofs *)
(* ================================================================== *)

Definition cycle_day_ok (r : Z) : bool :=
  let d := _ord2ymd_in_cycle 1 r in
  (1 <=? year d) && (year d <=? 400)
  && ((145731 <=? r) || (year d <=? 399))
  && (1 <=? month d) && (month d <=? 12)
  && (1 <=? day d) && (day d <=? _days_in_month (year d) (month d))
  && (toordinal d =? r + 1).

Definition cycle_pred (r : Z) : bool := (_DI400Y <=? r) || cycle_day_ok r.

(** A predicate on [0 .. 1000 * n) checked in blocks of a thousand. *)
Definition forall_below (n : nat) (p : Z -> bool) : bool :=
  forallb
    (fun a => forallb (fun b => p (1000 * Z.of_nat a + Z.of_nat b)) (seq 0 1000))
    (seq 0 n).

Definition shift_years (k : Z) (d : date) : date :=
  mkdate (year d + k) (month d) (day d).

(** The part of [valid] that does not bound the year. *)
Definition valid_md (d : date) : Prop :=
  1 <= month d <= 12 /\ 1 <= day d <= _days_in_month (year d) (month d).

(* ================================================================== *)
(** * Rows and their dates *)
(* ================================================================== *)

(** The date a row holds: its [pubdate] read the way the program reads
    it. *)
Definition row_date (r : Row.t) : option date :=
  match Row.pubdate r with
  | SqlText p =>
      match fromisoformat p with
      | Ok d => Some d
      | Raise _ => None
      end
  | _ => None
  end.

(** Every row of the table holds a date. *)
Definition all_dated (rs : list Row.t) : bool :=
  forallb (fun r => match row_date r with Some _ => true | None => false end) rs.

(** The sort key of a row that holds a date. *)
Definition row_ordinal (r : Row.t) : Z :=
  match row_date r with
  | Some d => toordinal d
  | None => 0
  end.

Definition desc (a b : Row.t) : Prop := row_ordinal b <= row_ordinal a.

(* ================================================================== *)
(** * What a run does *)
(* ================================================================== *)

(** The dates of the lines [Fetching comic for <d>] of a trace: the
    day pages asked for, in order. *)
Definition fetched (t : list event) : list date :=
  flat_map (fun ev => match ev with EvFetching d => [d] | _ => [] end) t.

(** The dates with ordinals [a], [a + 1], ..., [b]. *)
Definition days (a b : Z) : list date :=
  map (fun n => fromordinal (a + n)) (py_range (b - a + 1)).

(** The row the program stores for the comic of a date. *)
Definition comic_row (d : date) (r : Row.t) : Prop :=
  Row.pubdate r = store_text NUMERIC (isoformat d)
  /\ Row.filename r = SqlText (isoformat d ++ ".gif").

(** The row an INSERT adds. *)
Definition new_row (e : env) (c : DilbertComic.t) (s : state) : Row.t :=
  Row.mk (last_id s + 1)
         (store_text NUMERIC (str_date (DilbertComic.pubdate c)))
         (SqlText (py_str e (DilbertComic.url c)))
         (SqlText (py_str e (DilbertComic.title c)))
         (SqlText (py_str e (DilbertComic.filename c)))
         (store_text INTEGER (py_str e (DilbertComic.width c)))
         (store_text INTEGER (py_str e (DilbertComic.height c)))
         (SqlText (sqlite_now e (clock s))).

Definition filename_taken (f : string) (rs : list Row.t) : bool :=
  existsb (fun x => sql_unique_eqb (Row.filename x) (SqlText f)) rs.

(** How a run over the dates [ds] ends: the dates [done] got their
    row, and either these are all, or the next date was asked for and
    failed. *)
Definition run_outcome (ds : list date) (s s' : state) (r : result unit)
  : Prop :=
  exists done new_rows,
    rows s' = rows s ++ new_rows
    /\ Forall2 comic_row done new_rows
    /\ ((r = Ok tt /\ done = ds
         /\ fetched (trace s') = fetched (trace s) ++ ds)
        \/ (exists x d rest,
              r = Raise x /\ ds = done ++ d :: rest
              /\ fetched (trace s') = fetched (trace s) ++ done ++ [d])).

(* ================================================================== *)
(** * The marker class *)
(* ================================================================== *)

(** Whether the space-delimited class list of the element contains the
    comic marker class. *)
Definition has_marker_class (el : element) : bool :=
  match attr_lookup "class" (el_attrs el) with
  | Some cls => existsb (String.eqb marker_class) (split_ws cls EmptyString)
  | None => false
  end.

(** Whether some element of the document carries the marker class. *)
Definition page_has_marker (doc : element) : bool :=
  existsb has_marker_class (descendants_or_self doc).

Fixpoint no_space (s : string) : bool :=
  match s with
  | EmptyString => true
  | String c s' => negb (Ascii.eqb c " ") && no_space s'
  end.

(** The items of a list, each after a space, and a final space. *)
Fixpoint padded (items : list string) : string :=
  match items with
  | [] => " "
  | t :: ts => String " " (t ++ padded ts)
  end.

(* ================================================================== *)
(** * Examples and notions of the specification *)
(* ================================================================== *)

(** A day page as the archive serves it. *)
Definition example_page : element :=
  Element "html" []
    [Element "body" []
       [Element "img"
          [("class", "img-responsive img-comic");
           ("src", "http://assets.example/strip.gif");
           ("alt", "Budget Meeting - Dilbert by Scott Adams");
           ("width", "900"); ("height", "280")]
          []]].

(** A page without a comic. *)
Definition blocked_page : element :=
  Element "html" []
    [Element "body" [] [Element "div" [("class", "interstitial")] []]].

(** An environment in which every request is answered and every file
    can be written; every day page parses to [page]. *)
Definition example_env_with (page : element) (d : date) : env :=
  mkenv d
        (fun _ _ => UrlResponse 200 [])
        (fun _ _ => true)
        (fun _ => "2024-03-15 08:00:00.000")
        (fun _ => Some page)
        (fun _ => Some (mkdatetime d 0))
        (fun lit => lit)
        (fun _ => true).

Definition example_env : env := example_env_with example_page (mkdate 2024 3 15).

(** The store right after [open_db] has created the table. *)
Definition empty_state : state := mkstate [] 0 [] [] 0.

(** The dates [first], ..., [last] of March 2024. *)
Definition march_2024 (first last : Z) : list date :=
  map (fun n => mkdate 2024 3 (first + n)) (py_range (last - first + 1)).

(** An archive that has no comic for 2024-03-10: the page of that day
    is another document. *)
Definition outage_env : env :=
  mkenv (mkdate 2024 3 15)
        (fun _ url =>
           if String.eqb url "http://dilbert.com/strip/2024-03-10"
           then UrlResponse 200 [Byte.x01]
           else UrlResponse 200 [])
        (fun _ _ => true)
        (fun _ => "2024-03-15 08:00:00.000")
        (fun body => match body with
                     | [] => Some example_page
                     | _ => Some blocked_page
                     end)
        (fun _ => Some (mkdatetime (mkdate 2024 3 15) 0))
        (fun lit => lit)
        (fun _ => true).

(** The store after a first run on 2024-03-15, and after one on
    2024-03-12. *)
Definition full_state : state :=
  fst (Dilbert.update example_env empty_state).

Definition partial_state : state :=
  fst (Dilbert.update (example_env_with example_page (mkdate 2024 3 12))
         empty_state).

(** A comic without title and dimensions. *)
Definition bare_comic : DilbertComic.t :=
  DilbertComic.init None (Some (mkdate 2024 3 10))
    (PyStr "http://assets.example/strip.gif") (PyPath "2024-03-10.gif")
    PyNone None PyNone PyNone.

(** A comic with an empty caption, as on a Sunday. *)
Definition untitled_comic : DilbertComic.t :=
  DilbertComic.init None (Some (mkdate 2024 3 10))
    (PyStr "http://assets.example/strip.gif") (PyPath "2024-03-10.gif")
    (PyStr "") None (PyStr "900") (PyStr "280").

(** [date.max]. *)
Definition date_max : date := mkdate MAXYEAR 12 31.

(** [L] is the latest date the rows hold. *)
Definition is_latest (rs : list Row.t) (L : date) : bool :=
  existsb (fun r => match row_date r with
                    | Some d => PyDate.eqb d L
                    | None => false
                    end) rs
  && forallb (fun r => match row_date r with
                       | Some d => PyDate.leb d L
                       | None => true
                       end) rs.

(** The program can read the row: [DilbertComic(row=row)] returns. *)
Definition readable (e : env) (r : Row.t) : bool :=
  match DilbertComic.of_row e r with
  | Ok _ => true
  | Raise _ => false
  end.

(** The feed item of a row: its date at midnight, the link of its day
    page, and an image tag whose source is the base URL, a slash and
    the file name of the row. *)
Definition item_of_row (e : env) (baseurl : string) (r : Row.t)
    (it : feed_item) : Prop :=
  exists d w h,
    row_date r = Some d
    /\ item_pubdate it = datetime_midnight d
    /\ item_link it = ("http://dilbert.com/strip/" ++ isoformat d)%string
    /\ item_author_name it = "Scott Adams"
    /\ item_description it
       = ("<img src=" ++ dq ++ baseurl ++ "/"
          ++ py_str e (to_python (Row.filename r)) ++ dq
          ++ " alt=" ++ dq ++ "comic for " ++ isoformat d ++ dq
          ++ " " ++ w ++ " " ++ h ++ "/>")%string.

Definition unique_filenames (s : state) : Prop :=
  NoDup (map Row.filename (rows s)).

(* ================================================================== *)
(** * The script *)
(* ================================================================== *)

(** What is outside the program when the feed is written: whether
    [open(path, "w")] succeeds, and what [feed.write(fd, 'UTF-8')]
    leaves in the file: the bytes written, and the exception if it
    raises on the way. *)
Record feed_writer : Type := mkwriter {
  open_w : nat -> string -> bool;
  feed_write : Atom1Feed -> bytes * option exn
}.

(** [open(path, "w")]: the file is created or emptied. *)
Definition open_for_writing (w : feed_writer) (path : string) : M unit :=
  fun s =>
    if open_w w (clock s) path then
      (tick (mkstate (rows s) (last_id s) ((path, []) :: files s)
                     (trace s) (clock s)),
       Ok tt)
    else (tick s, Raise OSError).

(** [write_rss(fd)], for the file [fd] opened at [path]. *)
Definition write_rss (w : feed_writer) (e : env) (baseurl path : string)
  : M unit :=
  fun s =>
    match Dilbert.feed e baseurl s with
    | Raise x => (s, Raise x)
    | Ok f =>
        (log (EvWriteFile path)
           (mkstate (rows s) (last_id s)
                    ((path, fst (feed_write w f)) :: files s)
                    (trace s) (clock s)),
         match snd (feed_write w f) with
         | Some x => Raise x
         | None => Ok tt
         end)
    end.

(** [sys.argv[1] if len(sys.argv) == 2 else "http://localhost"]. *)
Definition baseurl_of_argv (argv : list string) : string :=
  match argv with
  | [_; a] => a
  | _ => "http://localhost"
  end.

(** The script: the table is the one of the database in the working
    directory, created empty when there was none. *)
Definition main (w : feed_writer) (e : env) (argv : list string) : M unit :=
  let baseurl := baseurl_of_argv argv in
  Dilbert.update e ;;;
  open_for_writing w Dilbert.feedname ;;;
  write_rss w e baseurl Dilbert.feedname.

(* ================================================================== *)
(** * Further notions *)
(* ================================================================== *)

(** A text without a line break. *)
Fixpoint no_newline (s : string) : bool :=
  match s with
  | EmptyString => true
  | String c s' => negb (Ascii.eqb c newline) && no_newline s'
  end.

(** Every row holds a date and the file name the program makes of
    it. *)
Definition filenames_by_date (rs : list Row.t) : bool :=
  forallb (fun r => match row_date r with
                    | Some d =>
                        sql_unique_eqb (Row.filename r)
                                       (SqlText (isoformat d ++ ".gif"))
                    | None => false
                    end) rs.

(** The rows hold the dates with ordinals [a], [a + 1], ..., in this
    order. *)
Fixpoint dates_from (a : Z) (rs : list Row.t) : bool :=
  match rs with
  | [] => true
  | r :: rs' =>
      match row_date r with
      | Some d => (toordinal d =? a) && dates_from (a + 1) rs'
      | None => false
      end
  end.

(** The rows of the table, in the order of insertion, hold consecutive
    days. *)
Definition consecutive_dates (rs : list Row.t) : bool :=
  match rs with
  | [] => true
  | r :: _ => dates_from (row_ordinal r) rs
  end.

(** The pauses and the requests of a trace. *)
Definition pauses (t : list event) : Z :=
  Z.of_nat (List.length
              (filter (fun ev => match ev with EvSleep => true | _ => false end)
                      t)).

Definition requests (t : list event) : Z :=
  Z.of_nat (List.length
              (filter (fun ev => match ev with EvGet _ => true | _ => false end)
                      t)).

(** The number of rows of the table. *)
Definition row_count (s : state) : Z := Z.of_nat (List.length (rows s)).

(** The content of the file at [path], when it was written. *)
Definition read_file (path : string) (fs : list (string * bytes))
  : option bytes :=
  match find (fun f => String.eqb (fst f) path) fs with
  | Some f => Some (snd f)
  | None => None
  end.

(** The file of the image of a date. *)
Definition image_path (d : date) : string :=
  "cartoons/" ++ isoformat d ++ ".gif".

(** The value of a text of decimal digits read from the left, starting
    from [acc]; [None] when a character is not a digit. *)
Fixpoint digits_value (s : string) (acc : Z) : option Z :=
  match s with
  | EmptyString => Some acc
  | String c s' =>
      match digit_val c with
      | Some v => digits_value s' (acc * 10 + v)
      | None => None
      end
  end.

(** The number a text stands for when it is one or more decimal
    digits. *)
Definition decimal_value (s : string) : option Z :=
  match s with
  | EmptyString => None
  | String _ _ => digits_value s 0
  end.

(** A comic without a date. *)
Definition undated_comic : DilbertComic.t :=
  DilbertComic.init None None
    (PyStr "http://assets.example/strip.gif") (PyPath "undated.gif")
    (PyStr "Budget Meeting") None (PyStr "900") (PyStr "280").

(** A comic whose width is written with a leading zero. *)
Definition zero_padded_comic : DilbertComic.t :=
  DilbertComic.init None (Some (mkdate 2024 3 10))
    (PyStr "http://assets.example/strip.gif") (PyPath "2024-03-10.gif")
    (PyStr "Budget Meeting") None (PyStr "0900") (PyStr "280").

(** A feed file that can be opened, and a serialisation that writes
    one byte for each entry of the feed. *)
Definition example_writer : feed_writer :=
  mkwriter (fun _ _ => true)
           (fun f => (map (fun _ => Byte.x2a) (feed_items f), None)).

(* ================================================================== *)
(** * The calendar *)
(* ================================================================== *)

Module Calendar.

(** ** One 400-year cycle, checked day by day *)

Lemma forall_below_spec (n : nat) (p : Z -> bool) :
  forall_below n p = true ->
  forall r, 0 <= r < 1000 * Z.of_nat n -> p r = true.
Proof.
  unfold forall_below. intros H r Hr.
  rewrite forallb_forall in H.
  assert (Hq : 0 <= r / 1000 < Z.of_nat n).
  { split; [apply Z.div_pos; lia | apply Z.div_lt_upper_bound; lia]. }
  pose proof (Z.mod_pos_bound r 1000 ltac:(lia)) as Hm.
  assert (Ha : In (Z.to_nat (r / 1000)) (seq 0 n)) by (apply in_seq; lia).
  specialize (H _ Ha).
  rewrite forallb_forall in H.
  assert (Hb : In (Z.to_nat (r mod 1000)) (seq 0 1000)) by (apply in_seq; lia).
  specialize (H _ Hb).
  rewrite !Z2Nat.id in H by lia.
  rewrite <- Z.div_mod in H by lia. exact H.
Qed.

Lemma cycle_checked : forall_below 147 cycle_pred = true.
Proof. vm_compute. reflexivity. Qed.

Lemma cycle_day_ok_true (r : Z) :
  0 <= r < _DI400Y -> cycle_day_ok r = true.
Proof.
  intros Hr. unfold _DI400Y in Hr.
  pose proof (forall_below_spec 147 cycle_pred cycle_checked r) as H.
  unfold cycle_pred in H.
  destruct (_DI400Y <=? r) eqn:E.
  - apply Z.leb_le in E. unfold _DI400Y in E. lia.
  - apply H. lia.
Qed.

(** ** Moving a date by whole cycles *)

Lemma ord2ymd_in_cycle_shift (y k r : Z) :
  _ord2ymd_in_cycle (y + k) r = shift_years k (_ord2ymd_in_cycle y r).
Proof.
  unfold _ord2ymd_in_cycle, shift_years. cbv zeta.
  repeat match goal with
         | |- context [if ?b then _ else _] => destruct b
         end; cbn [year month day]; f_equal; lia.
Qed.

Lemma is_leap_shift (y q : Z) : _is_leap (y + 400 * q) = _is_leap y.
Proof.
  unfold _is_leap.
  replace ((y + 400 * q) mod 4) with (y mod 4)
    by (replace (400 * q) with (100 * q * 4) by lia; now rewrite Z.mod_add).
  replace ((y + 400 * q) mod 100) with (y mod 100)
    by (replace (400 * q) with (4 * q * 100) by lia; now rewrite Z.mod_add).
  replace ((y + 400 * q) mod 400) with (y mod 400)
    by (replace (400 * q) with (q * 400) by lia; now rewrite Z.mod_add).
  reflexivity.
Qed.

Lemma days_before_year_shift (y q : Z) :
  _days_before_year (y + 400 * q) = _days_before_year y + _DI400Y * q.
Proof.
  unfold _days_before_year, _DI400Y. cbv zeta.
  replace (y + 400 * q - 1) with (y - 1 + 400 * q) by lia.
  replace ((y - 1 + 400 * q) / 4) with ((y - 1) / 4 + 100 * q)
    by (replace (400 * q) with (100 * q * 4) by lia;
        now rewrite Z.div_add by discriminate).
  replace ((y - 1 + 400 * q) / 100) with ((y - 1) / 100 + 4 * q)
    by (replace (400 * q) with (4 * q * 100) by lia;
        now rewrite Z.div_add by discriminate).
  replace ((y - 1 + 400 * q) / 400) with ((y - 1) / 400 + q)
    by (replace (400 * q) with (q * 400) by lia;
        now rewrite Z.div_add by discriminate).
  lia.
Qed.

Lemma toordinal_shift (q : Z) (d : date) :
  toordinal (shift_years (400 * q) d) = toordinal d + _DI400Y * q.
Proof.
  unfold toordinal, shift_years, _ymd2ord, _days_before_month.
  cbn [year month day].
  rewrite is_leap_shift, days_before_year_shift. lia.
Qed.

Lemma valid_shift (q : Z) (d : date) :
  valid (shift_years (400 * q) d)
  = (MINYEAR <=? year d + 400 * q) && (year d + 400 * q <=? MAXYEAR)
    && (1 <=? month d) && (month d <=? 12)
    && (1 <=? day d) && (day d <=? _days_in_month (year d) (month d)).
Proof.
  unfold valid, shift_years, _days_in_month. cbn [year month day].
  now rewrite is_leap_shift.
Qed.

(** ** [fromordinal] and [toordinal] are inverse to each other *)

Lemma fromordinal_spec (n : Z) :
  1 <= n <= _MAXORDINAL ->
  valid (fromordinal n) = true /\ toordinal (fromordinal n) = n.
Proof.
  intros Hn. unfold _MAXORDINAL in Hn.
  unfold fromordinal, _ord2ymd. cbv zeta.
  set (q := (n - 1) / _DI400Y). set (r := (n - 1) mod _DI400Y).
  assert (Hdm : n - 1 = _DI400Y * q + r) by (apply Z.div_mod; discriminate).
  assert (Hr : 0 <= r < _DI400Y) by (apply Z.mod_pos_bound; reflexivity).
  assert (Hq : 0 <= q <= 24).
  { unfold _DI400Y in *. split.
    - apply Z.div_pos; lia.
    - assert (q < 25) by (apply Z.div_lt_upper_bound; lia). lia. }
  replace (q * 400 + 1) with (1 + 400 * q) by lia.
  rewrite ord2ymd_in_cycle_shift.
  pose proof (cycle_day_ok_true r Hr) as Hc. unfold cycle_day_ok in Hc.
  cbv zeta in Hc.
  repeat (apply andb_true_iff in Hc; destruct Hc as [Hc ?]).
  split.
  - rewrite valid_shift. unfold MINYEAR, MAXYEAR.
    repeat (apply andb_true_iff; split); try assumption.
    + apply Z.leb_le. apply Z.leb_le in Hc. lia.
    + apply Z.leb_le.
      match goal with H : _ || _ = true |- _ => apply orb_true_iff in H; destruct H as [H|H] end.
      * match goal with H : (145731 <=? r) = true |- _ => apply Z.leb_le in H end.
        match goal with H : (_ <=? 400) = true |- _ => apply Z.leb_le in H end.
        unfold _DI400Y in *. lia.
      * match goal with H : (_ <=? 399) = true |- _ => apply Z.leb_le in H end. lia.
  - rewrite toordinal_shift.
    match goal with H : (_ =? r + 1) = true |- _ => apply Z.eqb_eq in H; rewrite H end.
    lia.
Qed.

(** ** [toordinal] follows the order of dates *)

Lemma valid_iff (d : date) :
  valid d = true <-> (MINYEAR <= year d <= MAXYEAR /\ valid_md d).
Proof.
  unfold valid, valid_md.
  rewrite !andb_true_iff, !Z.leb_le. tauto.
Qed.

Ltac month_cases m :=
  let H := fresh in
  assert (H : m = 1 \/ m = 2 \/ m = 3 \/ m = 4 \/ m = 5 \/ m = 6 \/ m = 7
              \/ m = 8 \/ m = 9 \/ m = 10 \/ m = 11 \/ m = 12) by lia;
  repeat (destruct H as [H | H]; [subst m | ]); [ .. | subst m].

Ltac eval_month_tables :=
  cbv [_DAYS_IN_MONTH _DAYS_BEFORE_MONTH nth Z.to_nat Pos.to_nat Pos.iter_op
       Init.Nat.add Z.eqb Z.gtb Z.compare Pos.eqb Pos.compare Pos.compare_cont
       andb] in *.

Lemma div_pred (y c : Z) :
  0 < c -> (y - 1) / c = y / c - (if y mod c =? 0 then 1 else 0).
Proof.
  intros Hc.
  pose proof (Z.div_mod y c ltac:(lia)) as E.
  pose proof (Z.mod_pos_bound y c Hc) as B.
  destruct (Z.eqb_spec (y mod c) 0) as [Z0 | NZ]; symmetry.
  - apply (Z.div_unique (y - 1) c _ (c - 1)); [left; lia | ].
    rewrite Z.mul_sub_distr_l. lia.
  - apply (Z.div_unique (y - 1) c _ (y mod c - 1)); [left; lia | ].
    lia.
Qed.

Lemma days_before_year_succ (y : Z) :
  _days_before_year (y + 1)
  = _days_before_year y + 365 + (if _is_leap y then 1 else 0).
Proof.
  unfold _days_before_year, _is_leap. cbv zeta.
  replace (y + 1 - 1) with y by lia.
  rewrite (div_pred y 4), (div_pred y 100), (div_pred y 400) by lia.
  assert (H4 : y mod 4 = (y mod 100) mod 4)
    by (symmetry; apply Z.mod_mod_divide; now exists 25).
  assert (H100 : y mod 100 = (y mod 400) mod 100)
    by (symmetry; apply Z.mod_mod_divide; now exists 4).
  destruct (Z.eqb_spec (y mod 4) 0) as [E4 | E4],
    (Z.eqb_spec (y mod 100) 0) as [E100 | E100],
    (Z.eqb_spec (y mod 400) 0) as [E400 | E400];
    cbn [andb orb negb];
    first [ lia
          | rewrite E400 in H100; cbn in H100; lia
          | rewrite E100 in H4; cbn in H4; lia ].
Qed.

Lemma days_before_year_mono (y1 y2 : Z) :
  y1 <= y2 -> _days_before_year y1 <= _days_before_year y2.
Proof.
  intros H. replace y2 with (y1 + (y2 - y1)) by lia.
  assert (Hk : 0 <= y2 - y1) by lia. revert Hk.
  generalize (y2 - y1). intros k Hk. pattern k.
  apply natlike_ind; [ | | exact Hk].
  - rewrite Z.add_0_r. lia.
  - intros x Hx IH. replace (y1 + Z.succ x) with (y1 + x + 1) by lia.
    rewrite days_before_year_succ. destruct (_is_leap (y1 + x)); lia.
Qed.

Lemma day_of_year_bounds (d : date) :
  valid_md d ->
  1 <= _days_before_month (year d) (month d) + day d
    <= 365 + (if _is_leap (year d) then 1 else 0).
Proof.
  destruct d as [y m dd]. unfold valid_md. cbn [year month day].
  intros [Hm Hd]. unfold _days_before_month.
  unfold _days_in_month in Hd.
  month_cases m; destruct (_is_leap y); eval_month_tables; lia.
Qed.

Lemma month_start_mono (y m1 m2 d1 : Z) :
  1 <= m1 -> m1 < m2 -> m2 <= 12 -> d1 <= _days_in_month y m1 ->
  _days_before_month y m1 + d1 <= _days_before_month y m2.
Proof.
  intros H1 H12 H2 Hd. unfold _days_before_month.
  unfold _days_in_month in Hd.
  month_cases m1; month_cases m2; try lia;
    destruct (_is_leap y); eval_month_tables; lia.
Qed.

Lemma toordinal_lt (d1 d2 : date) :
  valid_md d1 -> valid_md d2 ->
  compare d1 d2 = Lt -> toordinal d1 < toordinal d2.
Proof.
  intros V1 V2. unfold compare, toordinal, _ymd2ord.
  pose proof (day_of_year_bounds d1 V1) as B1.
  pose proof (day_of_year_bounds d2 V2) as B2.
  destruct V1 as [M1 D1], V2 as [M2 D2].
  destruct (Z.compare_spec (year d1) (year d2)) as [Ey | Ly | Gy];
    try discriminate.
  - destruct (Z.compare_spec (month d1) (month d2)) as [Em | Lm | Gm];
      try discriminate.
    + intros Hd. change (day d1 < day d2) in Hd. rewrite Ey, Em. lia.
    + intros _. rewrite Ey in *.
      pose proof (month_start_mono (year d2) (month d1) (month d2) (day d1)
                    ltac:(lia) Lm ltac:(lia) ltac:(lia)).
      lia.
  - intros _.
    pose proof (days_before_year_succ (year d1)) as Hs.
    pose proof (days_before_year_mono (year d1 + 1) (year d2) ltac:(lia)).
    lia.
Qed.

Lemma compare_antisym (d1 d2 : date) :
  compare d2 d1 = CompOpp (compare d1 d2).
Proof.
  unfold compare.
  rewrite (Z.compare_antisym (year d1)), (Z.compare_antisym (month d1)),
    (Z.compare_antisym (day d1)).
  destruct (year d1 ?= year d2), (month d1 ?= month d2),
    (day d1 ?= day d2); reflexivity.
Qed.

Lemma compare_eq (d1 d2 : date) : compare d1 d2 = Eq -> d1 = d2.
Proof.
  destruct d1 as [y1 m1 a1], d2 as [y2 m2 a2].
  unfold compare. cbn [year month day].
  destruct (Z.compare_spec y1 y2); try discriminate.
  destruct (Z.compare_spec m1 m2); try discriminate.
  intros Ha. apply Z.compare_eq in Ha. congruence.
Qed.

Lemma compare_refl (d : date) : compare d d = Eq.
Proof. unfold compare. now rewrite !Z.compare_refl. Qed.

(** Dates compare as their ordinals do. *)
Lemma compare_toordinal (d1 d2 : date) :
  valid_md d1 -> valid_md d2 ->
  compare d1 d2 = (toordinal d1 ?= toordinal d2).
Proof.
  intros V1 V2. destruct (compare d1 d2) eqn:E; symmetry.
  - apply compare_eq in E. subst. apply Z.compare_refl.
  - apply Z.compare_lt_iff. now apply toordinal_lt.
  - apply Z.compare_gt_iff. apply toordinal_lt; try assumption.
    rewrite compare_antisym, E. reflexivity.
Qed.

Lemma toordinal_inj (d1 d2 : date) :
  valid_md d1 -> valid_md d2 -> toordinal d1 = toordinal d2 -> d1 = d2.
Proof.
  intros V1 V2 H. apply compare_eq.
  rewrite compare_toordinal, H by assumption. apply Z.compare_refl.
Qed.

Lemma toordinal_range (d : date) :
  valid d = true -> 1 <= toordinal d <= _MAXORDINAL.
Proof.
  intros V. apply valid_iff in V. destruct V as [Hy V]. split.
  - pose proof (day_of_year_bounds d V).
    pose proof (days_before_year_mono 1 (year d)) as H1.
    unfold MINYEAR in Hy. unfold toordinal, _ymd2ord.
    change (_days_before_year 1) with 0 in H1. lia.
  - assert (Vmax : valid_md (mkdate 9999 12 31)) by (vm_compute; intuition discriminate).
    pose proof (compare_toordinal d (mkdate 9999 12 31) V Vmax) as Hc.
    change (toordinal (mkdate 9999 12 31)) with _MAXORDINAL in Hc.
    destruct (Z.compare_spec (toordinal d) _MAXORDINAL); try lia.
    exfalso. revert Hc. unfold compare. cbn [year month day].
    unfold MAXYEAR in Hy. destruct V as [Hm Hd].
    assert (Hd31 : day d <= 31).
    { destruct d as [y m dd]. cbn [year month day] in *.
      unfold _days_in_month in Hd.
      month_cases m; destruct (_is_leap y); eval_month_tables; lia. }
    destruct (Z.compare_spec (year d) 9999); try lia; try discriminate.
    destruct (Z.compare_spec (month d) 12); try lia; try discriminate.
    destruct (Z.compare_spec (day d) 31); try lia; discriminate.
Qed.

Lemma toordinal_fromordinal (n : Z) :
  1 <= n <= _MAXORDINAL -> toordinal (fromordinal n) = n.
Proof. intros H. now apply fromordinal_spec. Qed.

Lemma valid_fromordinal (n : Z) :
  1 <= n <= _MAXORDINAL -> valid (fromordinal n) = true.
Proof. intros H. now apply fromordinal_spec. Qed.

Lemma fromordinal_toordinal (d : date) :
  valid d = true -> fromordinal (toordinal d) = d.
Proof.
  intros V. pose proof (toordinal_range d V) as R.
  destruct (fromordinal_spec _ R) as [V' E].
  apply valid_iff in V, V'.
  apply toordinal_inj; tauto.
Qed.

End Calendar.

(* ================================================================== *)
(** * ISO texts *)
(* ================================================================== *)

Module Text.
Import Calendar.

Lemma digit_cases (x : Z) :
  0 <= x <= 9 ->
  x = 0 \/ x = 1 \/ x = 2 \/ x = 3 \/ x = 4 \/ x = 5 \/ x = 6 \/ x = 7
  \/ x = 8 \/ x = 9.
Proof. lia. Qed.

Ltac each_digit x H :=
  let C := fresh in
  pose proof (digit_cases x H) as C;
  repeat (destruct C as [C | C]; [subst x | ]); [ .. | subst x].

Lemma digit_val_char (x : Z) :
  0 <= x <= 9 -> digit_val (digit_char x) = Some x.
Proof. intros H. each_digit x H; reflexivity. Qed.

Lemma digit_val_inv (c : ascii) (v : Z) :
  digit_val c = Some v -> 0 <= v <= 9 /\ c = digit_char v.
Proof.
  unfold digit_val, digit_char. cbv zeta.
  destruct (_ && _) eqn:E; [ | discriminate].
  intros [= <-]. apply andb_true_iff in E. destruct E as [E1 E2].
  apply Z.leb_le in E1, E2. split; [lia | ].
  replace (48 + Z.to_nat (Z.of_nat (nat_of_ascii c) - 48))%nat
    with (nat_of_ascii c) by lia.
  now rewrite ascii_nat_embedding.
Qed.

Lemma pow10_pos (k : nat) : 0 < 10 ^ Z.of_nat k.
Proof. apply Z.pow_pos_nonneg; lia. Qed.

Lemma pow10_succ (k : nat) : 10 ^ Z.of_nat (S k) = 10 * 10 ^ Z.of_nat k.
Proof. rewrite Nat2Z.inj_succ. apply Z.pow_succ_r. lia. Qed.

(** The leading digit and the rest of a number below [10^(k+1)]. *)
Lemma split_digits (k : nat) (n : Z) :
  0 <= n < 10 ^ Z.of_nat (S k) ->
  0 <= n / 10 ^ Z.of_nat k <= 9
  /\ 0 <= n mod 10 ^ Z.of_nat k < 10 ^ Z.of_nat k.
Proof.
  intros H. rewrite pow10_succ in H.
  pose proof (pow10_pos k) as P.
  split; [ | now apply Z.mod_pos_bound].
  split; [apply Z.div_pos; lia | ].
  assert (n / 10 ^ Z.of_nat k < 10); [ | lia].
  apply Z.div_lt_upper_bound; lia.
Qed.

Lemma parse_dec_digits (k : nat) :
  forall n rest acc,
    0 <= n < 10 ^ Z.of_nat k ->
    parse_digits k (dec_digits k n ++ rest) acc
    = Some (acc * 10 ^ Z.of_nat k + n, rest).
Proof.
  induction k as [ | k IH]; intros n rest acc H.
  - cbn in *. do 2 f_equal. lia.
  - destruct (split_digits k n H) as [Hd Hm].
    cbn [dec_digits parse_digits append].
    rewrite digit_val_char by exact Hd.
    rewrite IH by exact Hm. do 2 f_equal.
    rewrite pow10_succ.
    pose proof (Z.div_mod n (10 ^ Z.of_nat k)
                  ltac:(pose proof (pow10_pos k); lia)).
    nia.
Qed.

Lemma parse_digits_inv (k : nat) :
  forall s acc v rest,
    parse_digits k s acc = Some (v, rest) ->
    exists n, 0 <= n < 10 ^ Z.of_nat k
              /\ v = acc * 10 ^ Z.of_nat k + n
              /\ s = (dec_digits k n ++ rest)%string.
Proof.
  induction k as [ | k IH]; intros s acc v rest H.
  - cbn in H. injection H as <- <-. exists 0. cbn. split; [lia | ].
    split; [lia | reflexivity].
  - cbn [parse_digits] in H. destruct s as [ | c s']; [discriminate | ].
    destruct (digit_val c) as [v0 | ] eqn:Ec; [ | discriminate].
    apply digit_val_inv in Ec. destruct Ec as [Hv0 ->].
    apply IH in H. destruct H as (n' & Hn' & -> & ->).
    pose proof (pow10_pos k) as P.
    exists (v0 * 10 ^ Z.of_nat k + n').
    rewrite pow10_succ. split; [nia | ]. split; [nia | ].
    cbn [dec_digits append].
    replace ((v0 * 10 ^ Z.of_nat k + n') / 10 ^ Z.of_nat k) with v0
      by (rewrite Z.div_add_l, Z.div_small by lia; lia).
    replace ((v0 * 10 ^ Z.of_nat k + n') mod 10 ^ Z.of_nat k) with n'
      by (rewrite Z.add_comm, Z.mod_add, Z.mod_small by lia; lia).
    reflexivity.
Qed.

Lemma append_empty_r (s : string) : (s ++ "")%string = s.
Proof. induction s; cbn; congruence. Qed.

(** The fields of a valid date fit their widths. *)
Lemma valid_fields (d : date) :
  valid d = true ->
  0 <= year d < 10 ^ Z.of_nat 4 /\ 0 <= month d < 10 ^ Z.of_nat 2
  /\ 0 <= day d < 10 ^ Z.of_nat 2.
Proof.
  intros V. apply valid_iff in V. destruct V as [Hy [Hm Hd]].
  unfold MINYEAR, MAXYEAR in Hy.
  assert (day d <= 31).
  { destruct d as [y m dd]. cbn [year month day] in *.
    unfold _days_in_month in Hd.
    month_cases m; destruct (_is_leap y); eval_month_tables; lia. }
  change (10 ^ Z.of_nat 4) with 10000. change (10 ^ Z.of_nat 2) with 100.
  lia.
Qed.

(** ** ISO texts and dates correspond one to one *)

Lemma fromisoformat_isoformat (d : date) :
  valid d = true -> fromisoformat (isoformat d) = Ok d.
Proof.
  intros V. destruct (valid_fields d V) as (Hy & Hm & Hd).
  unfold fromisoformat, isoformat.
  rewrite parse_dec_digits by exact Hy. cbn [append].
  rewrite parse_dec_digits by exact Hm. cbn [append].
  rewrite <- (append_empty_r (dec_digits 2 (day d))).
  rewrite parse_dec_digits by exact Hd.
  rewrite !Z.mul_0_l, !Z.add_0_l.
  destruct d as [y m dd]. cbn [year month day] in *.
  now rewrite V.
Qed.

Lemma fromisoformat_inv (p : string) (d : date) :
  fromisoformat p = Ok d -> valid d = true /\ p = isoformat d.
Proof.
  unfold fromisoformat.
  destruct (parse_digits 4 p 0) as [[y s0] | ] eqn:E1; [ | discriminate].
  destruct s0 as [ | c1 s1]; [discriminate | ].
  destruct (Ascii.eqb_spec c1 "-"%char) as [-> | N1];
    [ | destruct c1 as [[] [] [] [] [] [] [] []]; try discriminate; now elim N1].
  destruct (parse_digits 2 s1 0) as [[m s2] | ] eqn:E2; [ | discriminate].
  destruct s2 as [ | c2 s3]; [discriminate | ].
  destruct (Ascii.eqb_spec c2 "-"%char) as [-> | N2];
    [ | destruct c2 as [[] [] [] [] [] [] [] []]; try discriminate; now elim N2].
  destruct (parse_digits 2 s3 0) as [[dd s4] | ] eqn:E3; [ | discriminate].
  destruct s4; [ | discriminate].
  destruct (valid (mkdate y m dd)) eqn:V; [ | discriminate].
  intros [= <-]. split; [exact V | ].
  apply parse_digits_inv in E1, E2, E3.
  destruct E1 as (n1 & _ & -> & ->), E2 as (n2 & _ & -> & ->),
    E3 as (n3 & _ & -> & ->).
  unfold isoformat. cbn [year month day].
  rewrite !Z.mul_0_l, !Z.add_0_l.
  now rewrite append_empty_r.
Qed.

Lemma isoformat_inj (d1 d2 : date) :
  valid d1 = true -> valid d2 = true ->
  isoformat d1 = isoformat d2 -> d1 = d2.
Proof.
  intros V1 V2 E.
  pose proof (fromisoformat_isoformat d1 V1) as H1.
  rewrite E, (fromisoformat_isoformat d2 V2) in H1. congruence.
Qed.

(** ** ISO texts sort as their dates *)

Lemma ascii_compare_digit (x y : Z) :
  0 <= x <= 9 -> 0 <= y <= 9 ->
  Ascii.compare (digit_char x) (digit_char y) = (x ?= y).
Proof.
  intros Hx Hy. each_digit x Hx; each_digit y Hy; reflexivity.
Qed.

Lemma compare_lex (p a b : Z) :
  0 < p ->
  (a ?= b) = match a / p ?= b / p with
             | Eq => a mod p ?= b mod p
             | c => c
             end.
Proof.
  intros Hp.
  pose proof (Z.div_mod a p ltac:(lia)) as Ea.
  pose proof (Z.div_mod b p ltac:(lia)) as Eb.
  pose proof (Z.mod_pos_bound a p Hp) as Ba.
  pose proof (Z.mod_pos_bound b p Hp) as Bb.
  destruct (Z.compare_spec (a / p) (b / p)) as [E | L | G].
  - rewrite E in Ea.
    destruct (Z.compare_spec (a mod p) (b mod p));
      [apply Z.compare_eq_iff | apply Z.compare_lt_iff
       | apply Z.compare_gt_iff]; lia.
  - apply Z.compare_lt_iff. nia.
  - apply Z.compare_gt_iff. nia.
Qed.

Lemma compare_dec_digits (k : nat) :
  forall a b s t,
    0 <= a < 10 ^ Z.of_nat k -> 0 <= b < 10 ^ Z.of_nat k ->
    String.compare (dec_digits k a ++ s) (dec_digits k b ++ t)
    = match a ?= b with
      | Eq => String.compare s t
      | c => c
      end.
Proof.
  induction k as [ | k IH]; intros a b s t Ha Hb.
  - cbn in Ha, Hb. replace a with 0 by lia. replace b with 0 by lia.
    reflexivity.
  - destruct (split_digits k a Ha) as [Da Ma].
    destruct (split_digits k b Hb) as [Db Mb].
    cbn [dec_digits append String.compare].
    rewrite ascii_compare_digit by assumption.
    rewrite IH by assumption.
    rewrite (compare_lex (10 ^ Z.of_nat k) a b) by apply pow10_pos.
    destruct (a / 10 ^ Z.of_nat k ?= b / 10 ^ Z.of_nat k); reflexivity.
Qed.

Lemma isoformat_compare (d1 d2 : date) :
  valid d1 = true -> valid d2 = true ->
  String.compare (isoformat d1) (isoformat d2) = PyDate.compare d1 d2.
Proof.
  intros V1 V2.
  destruct (valid_fields d1 V1) as (Hy1 & Hm1 & Hd1).
  destruct (valid_fields d2 V2) as (Hy2 & Hm2 & Hd2).
  unfold isoformat, PyDate.compare.
  rewrite compare_dec_digits by assumption.
  destruct (year d1 ?= year d2); try reflexivity.
  cbn [append String.compare]. change (Ascii.compare "-" "-") with Eq.
  rewrite compare_dec_digits by assumption.
  destruct (month d1 ?= month d2); try reflexivity.
  cbn [append String.compare]. change (Ascii.compare "-" "-") with Eq.
  rewrite <- (append_empty_r (dec_digits 2 (day d1))).
  rewrite <- (append_empty_r (dec_digits 2 (day d2))).
  rewrite compare_dec_digits by assumption.
  destruct (day d1 ?= day d2); reflexivity.
Qed.

(** ** No affinity changes an ISO text *)

Lemma span_dec_digits (k : nat) :
  forall n c rest cnt acc,
    0 <= n < 10 ^ Z.of_nat k -> digit_val c = None ->
    span_digits (dec_digits k n ++ String c rest) cnt acc
    = ((cnt + k)%nat, acc * 10 ^ Z.of_nat k + n, String c rest).
Proof.
  induction k as [ | k IH]; intros n c rest cnt acc H Hc.
  - cbn in H |- *. rewrite Hc. do 2 f_equal; lia.
  - destruct (split_digits k n H) as [Hd Hm].
    cbn [dec_digits span_digits append].
    rewrite digit_val_char by exact Hd.
    rewrite IH by assumption.
    rewrite pow10_succ.
    pose proof (Z.div_mod n (10 ^ Z.of_nat k)
                  ltac:(pose proof (pow10_pos k); lia)).
    do 2 f_equal; [lia | nia].
Qed.

(** Evaluates the tests on characters that are known. *)
Ltac eval_chars :=
  repeat
    (cbv beta iota;
     match goal with
     | |- context [sqlite_isspace ?c] =>
         let v := eval vm_compute in (sqlite_isspace c) in
         change (sqlite_isspace c) with v
     | |- context [digit_val (Ascii ?a ?b ?c ?d ?e ?f ?g ?h)] =>
         let v := eval vm_compute in (digit_val (Ascii a b c d e f g h)) in
         change (digit_val (Ascii a b c d e f g h)) with v
     | |- context [Ascii.eqb ?c ?c'] =>
         let v := eval vm_compute in (Ascii.eqb c c') in
         change (Ascii.eqb c c') with v
     end);
  cbv beta iota.

Lemma classify_numeric_isoformat (d : date) :
  valid d = true -> classify_numeric (isoformat d) = NotNumeric.
Proof.
  intros V. destruct (valid_fields d V) as (Hy & _ & _).
  unfold isoformat.
  generalize (dec_digits 2 (month d) ++ "-" ++ dec_digits 2 (day d))%string.
  intros rest. cbn [append].
  destruct (split_digits 3 (year d) Hy) as [Hd Hm].
  set (n' := year d mod 10 ^ Z.of_nat 3) in *.
  unfold classify_numeric.
  change (dec_digits 4 (year d))
    with (String (digit_char (year d / 10 ^ Z.of_nat 3)) (dec_digits 3 n')).
  set (x := year d / 10 ^ Z.of_nat 3) in *. clearbody x n'.
  each_digit x Hd;
    match goal with
    | |- context [digit_char ?v] =>
        let c := eval vm_compute in (digit_char v) in
        change (digit_char v) with c
    end;
    cbn [append skip_spaces]; eval_chars;
    cbn [span_digits]; eval_chars;
    rewrite span_dec_digits by (assumption || reflexivity);
    cbn [skip_spaces orb]; eval_chars; reflexivity.
Qed.

Lemma store_text_isoformat (a : affinity) (d : date) :
  valid d = true -> store_text a (isoformat d) = SqlText (isoformat d).
Proof.
  intros V. unfold store_text.
  rewrite classify_numeric_isoformat by exact V. now destruct a.
Qed.

End Text.

(* ================================================================== *)
(** * The table *)
(* ================================================================== *)

Module Store.
Import Calendar Text.

Lemma row_date_inv (r : Row.t) (d : date) :
  row_date r = Some d ->
  valid d = true /\ Row.pubdate r = SqlText (isoformat d).
Proof.
  unfold row_date. destruct (Row.pubdate r) as [ | | | p]; try discriminate.
  destruct (fromisoformat p) as [d' | ] eqn:E; [ | discriminate].
  intros [= <-]. apply fromisoformat_inv in E. destruct E as [V ->]. auto.
Qed.

Lemma row_date_intro (r : Row.t) (d : date) :
  valid d = true -> Row.pubdate r = SqlText (isoformat d) ->
  row_date r = Some d.
Proof.
  intros V E. unfold row_date. now rewrite E, fromisoformat_isoformat.
Qed.

Lemma all_dated_forall (rs : list Row.t) :
  all_dated rs = true <-> forall r, In r rs -> exists d, row_date r = Some d.
Proof.
  unfold all_dated. rewrite forallb_forall. split; intros H r Hr.
  - specialize (H r Hr). destruct (row_date r) as [d | ]; [eauto | discriminate].
  - destruct (H r Hr) as [d ->]. reflexivity.
Qed.

Lemma all_dated_app (l1 l2 : list Row.t) :
  all_dated (l1 ++ l2) = all_dated l1 && all_dated l2.
Proof. apply forallb_app. Qed.

(** On rows that hold dates, ORDER BY compares the dates. *)
Lemma sql_compare_dated (a b : Row.t) (da db : date) :
  row_date a = Some da -> row_date b = Some db ->
  sql_compare (Row.pubdate a) (Row.pubdate b) = (toordinal da ?= toordinal db).
Proof.
  intros Ha Hb.
  apply row_date_inv in Ha, Hb. destruct Ha as [Va ->], Hb as [Vb ->].
  cbn [sql_compare]. rewrite isoformat_compare by assumption.
  apply compare_toordinal; now apply valid_iff.
Qed.

Lemma sql_compare_ordinal (a b : Row.t) :
  (exists d, row_date a = Some d) -> (exists d, row_date b = Some d) ->
  sql_compare (Row.pubdate a) (Row.pubdate b) = (row_ordinal a ?= row_ordinal b).
Proof.
  intros [da Ha] [db Hb]. unfold row_ordinal. rewrite Ha, Hb.
  now apply sql_compare_dated.
Qed.

(** ** The insertion sort *)

Lemma insert_desc_perm (r : Row.t) (l : list Row.t) :
  Permutation (insert_desc r l) (r :: l).
Proof.
  induction l as [ | x l IH]; cbn; [reflexivity | ].
  destruct (sql_compare _ _); try reflexivity.
  rewrite IH. apply perm_swap.
Qed.

Lemma order_perm (l : list Row.t) : Permutation (order_by_pubdate_desc l) l.
Proof.
  induction l as [ | x l IH]; cbn; [reflexivity | ].
  rewrite insert_desc_perm. now constructor.
Qed.

Lemma order_length (l : list Row.t) :
  List.length (order_by_pubdate_desc l) = List.length l.
Proof. apply Permutation_length, order_perm. Qed.

Lemma order_in (l : list Row.t) (r : Row.t) :
  In r (order_by_pubdate_desc l) <-> In r l.
Proof.
  split; apply Permutation_in; [ | symmetry]; apply order_perm.
Qed.

Lemma insert_desc_sorted (r : Row.t) (l : list Row.t) :
  (exists d, row_date r = Some d) ->
  (forall x, In x l -> exists d, row_date x = Some d) ->
  StronglySorted desc l -> StronglySorted desc (insert_desc r l).
Proof.
  intros Hr Hl HS. induction HS as [ | x l HS IH Hx]; cbn.
  - repeat constructor.
  - assert (Dx : exists d, row_date x = Some d) by (apply Hl; now left).
    rewrite (sql_compare_ordinal r x Hr Dx).
    destruct (Z.compare_spec (row_ordinal r) (row_ordinal x)) as [E | L | G].
    + constructor; [now constructor | ].
      constructor; [unfold desc; lia | ].
      eapply Forall_impl; [ | exact Hx]. unfold desc. intros; lia.
    + constructor.
      * apply IH. intros y Hy. apply Hl. now right.
      * rewrite Forall_forall. intros y Hy.
        apply (Permutation_in _ (insert_desc_perm r l)) in Hy.
        destruct Hy as [<- | Hy]; [unfold desc; lia | ].
        rewrite Forall_forall in Hx. now apply Hx.
    + constructor; [now constructor | ].
      constructor; [unfold desc; lia | ].
      eapply Forall_impl; [ | exact Hx]. unfold desc. intros; lia.
Qed.

Lemma order_sorted (l : list Row.t) :
  all_dated l = true -> StronglySorted desc (order_by_pubdate_desc l).
Proof.
  rewrite all_dated_forall. induction l as [ | x l IH]; intros H; cbn.
  - constructor.
  - apply insert_desc_sorted.
    + apply H. now left.
    + intros y Hy. apply H. right. now apply order_in.
    + apply IH. intros y Hy. apply H. now right.
Qed.

(** The first row of the sorted table holds the latest date. *)
Lemma order_head (l : list Row.t) (r : Row.t) (rest : list Row.t) :
  all_dated l = true -> order_by_pubdate_desc l = r :: rest ->
  In r l /\ forall x, In x l -> row_ordinal x <= row_ordinal r.
Proof.
  intros D E. pose proof (order_sorted l D) as S. rewrite E in S.
  split.
  - apply order_in. rewrite E. now left.
  - intros x Hx. apply order_in in Hx. rewrite E in Hx.
    destruct Hx as [<- | Hx]; [lia | ].
    inversion S as [ | ? ? _ HF]; subst.
    rewrite Forall_forall in HF. now apply HF.
Qed.

(** ** [latest_date_in_db] *)

Lemma latest_date_unfold (s : state) :
  Dilbert.latest_date_in_db s
  = match order_by_pubdate_desc (rows s) with
    | [] => Ok None
    | r :: _ =>
        match Row.pubdate r with
        | SqlText p =>
            match fromisoformat p with
            | Ok d => Ok (Some d)
            | Raise x => Raise x
            end
        | _ => Raise TypeError
        end
    end.
Proof.
  unfold Dilbert.latest_date_in_db, select_latest.
  change (1 <? 0) with false. cbv iota.
  change (Z.to_nat 1) with 1%nat.
  destruct (order_by_pubdate_desc (rows s)) as [ | r l]; reflexivity.
Qed.

Lemma latest_date_empty (s : state) :
  rows s = [] -> Dilbert.latest_date_in_db s = Ok None.
Proof. intros E. rewrite latest_date_unfold, E. reflexivity. Qed.

Lemma latest_date_dated (s : state) :
  all_dated (rows s) = true -> rows s <> [] ->
  exists r L,
    Dilbert.latest_date_in_db s = Ok (Some L)
    /\ In r (rows s) /\ row_date r = Some L /\ valid L = true
    /\ forall x d, In x (rows s) -> row_date x = Some d ->
                   toordinal d <= toordinal L.
Proof.
  intros D NE. rewrite latest_date_unfold.
  destruct (order_by_pubdate_desc (rows s)) as [ | r l] eqn:E.
  - apply (f_equal (@List.length _)) in E. rewrite order_length in E.
    destruct (rows s); [congruence | discriminate].
  - destruct (order_head _ _ _ D E) as [Hin Hmax].
    pose proof (proj1 (all_dated_forall _) D r Hin) as [L HL].
    destruct (row_date_inv r L HL) as [V EP].
    exists r, L. rewrite EP, fromisoformat_isoformat by exact V.
    repeat split; try assumption.
    intros x d Hx Hd. specialize (Hmax x Hx).
    unfold row_ordinal in Hmax. now rewrite Hd, HL in Hmax.
Qed.

(** The latest date is the one date of the table that no other
    exceeds. *)
Lemma latest_date_max (s : state) (M : date) :
  all_dated (rows s) = true ->
  (exists r, In r (rows s) /\ row_date r = Some M) ->
  (forall x d, In x (rows s) -> row_date x = Some d ->
               toordinal d <= toordinal M) ->
  Dilbert.latest_date_in_db s = Ok (Some M).
Proof.
  intros D [r [Hr HM]] Hmax.
  assert (NE : rows s <> []) by (intros E; rewrite E in Hr; destruct Hr).
  destruct (latest_date_dated s D NE) as (r' & L & EL & Hr' & HL & VL & Hmax').
  rewrite EL. do 2 f_equal.
  destruct (row_date_inv r M HM) as [VM _].
  apply toordinal_inj; try (now apply valid_iff).
  pose proof (Hmax r' L Hr' HL). pose proof (Hmax' r M Hr HM). lia.
Qed.

End Store.

(* ================================================================== *)
(** * The XPath query *)
(* ================================================================== *)

Module XPath.

Lemma no_space_app (s t : string) :
  no_space (s ++ t) = no_space s && no_space t.
Proof.
  induction s as [ | c s IH]; cbn; [reflexivity | ].
  now rewrite IH, andb_assoc.
Qed.

Lemma xml_space_space (c : ascii) :
  xml_space c = false -> Ascii.eqb c " " = false.
Proof.
  intros H. destruct (Ascii.eqb_spec c " ") as [-> | ]; [ | reflexivity].
  discriminate H.
Qed.

Lemma split_ws_no_space (s : string) :
  forall cur, no_space cur = true ->
              Forall (fun t => no_space t = true) (split_ws s cur).
Proof.
  induction s as [ | c s IH]; intros cur Hc; cbn [split_ws].
  - destruct cur; [constructor | now repeat constructor].
  - destruct (xml_space c) eqn:E.
    + destruct cur; [now apply IH | ].
      constructor; [exact Hc | now apply IH].
    + apply IH. rewrite no_space_app, Hc. cbn.
      now rewrite (xml_space_space c E).
Qed.

Lemma append_assoc (s t u : string) :
  ((s ++ t) ++ u)%string = (s ++ (t ++ u))%string.
Proof. induction s as [ | c s IH]; cbn; [reflexivity | now rewrite IH]. Qed.

Lemma padded_concat (t : string) (ts : list string) :
  (" " ++ String.concat " " (t :: ts) ++ " ")%string = padded (t :: ts).
Proof.
  revert t. induction ts as [ | u ts IH]; intros t.
  - reflexivity.
  - change (padded (t :: u :: ts))
      with (String " " (t ++ padded (u :: ts))).
    rewrite <- IH.
    change (String.concat " " (t :: u :: ts))
      with (t ++ " " ++ String.concat " " (u :: ts))%string.
    cbn [append]. f_equal. rewrite append_assoc. reflexivity.
Qed.

Lemma padded_head (ts : list string) :
  exists r, padded ts = String " " r.
Proof. destruct ts; cbn; eauto. Qed.

Lemma prefix_cons (a b : ascii) (s t : string) :
  prefix (String a s) (String b t) = Ascii.eqb a b && prefix s t.
Proof.
  cbn. destruct (ascii_dec a b) as [-> | N].
  - now rewrite Ascii.eqb_refl.
  - apply Ascii.eqb_neq in N. now rewrite N.
Qed.

(** A needle that starts with a space is not found inside a text
    without spaces. *)
Lemma contains_skip (t r n : string) :
  no_space t = true ->
  contains (t ++ r) (String " " n) = contains r (String " " n).
Proof.
  induction t as [ | c t IH]; intros H; [reflexivity | ].
  cbn in H. apply andb_true_iff in H. destruct H as [Hc Ht].
  cbn [append contains]. rewrite prefix_cons, IH by exact Ht.
  rewrite Ascii.eqb_sym. apply negb_true_iff in Hc. now rewrite Hc.
Qed.

(** Two texts without spaces that are both followed by a space at the
    same place are the same text. *)
Lemma prefix_item (m t r : string) :
  no_space m = true -> no_space t = true ->
  prefix (m ++ " ") (t ++ String " " r) = true -> m = t.
Proof.
  revert t. induction m as [ | a m IH]; intros t Hm Ht H.
  - destruct t as [ | c t]; [reflexivity | ].
    cbn [append] in H. rewrite prefix_cons in H.
    cbn in Ht. apply andb_true_iff in H, Ht.
    destruct H as [H _], Ht as [Ht _].
    rewrite Ascii.eqb_sym in H. rewrite H in Ht. discriminate.
  - cbn in Hm. apply andb_true_iff in Hm. destruct Hm as [Ha Hm].
    destruct t as [ | c t]; cbn [append] in H; rewrite prefix_cons in H;
      apply andb_true_iff in H; destruct H as [Hac H].
    + rewrite Hac in Ha. discriminate.
    + apply Ascii.eqb_eq in Hac. subst c.
      cbn in Ht. apply andb_true_iff in Ht. destruct Ht as [_ Ht].
      f_equal. now apply IH.
Qed.

Lemma contains_padded (m : string) (ts : list string) :
  no_space m = true -> Forall (fun t => no_space t = true) ts ->
  contains (padded ts) (" " ++ m ++ " ") = true -> In m ts.
Proof.
  intros Hm F. induction F as [ | t ts Ht F IH]; cbn [padded append].
  - cbn [contains]. rewrite prefix_cons.
    destruct m; cbn; rewrite ?andb_false_r; discriminate.
  - cbn [contains]. rewrite prefix_cons. cbn [Ascii.eqb Bool.eqb andb].
    intros H. apply orb_true_iff in H. destruct H as [H | H].
    + destruct (padded_head ts) as [r Er]. rewrite Er in H.
      left. symmetry. now apply (prefix_item m t r).
    + right. apply IH. now rewrite contains_skip in H.
Qed.

(** The XPath test on the class attribute finds the marker only when
    it is one of the space-delimited classes. *)
Lemma class_test_marker (cls : string) :
  contains (" " ++ normalize_space cls ++ " ") (" " ++ marker_class ++ " ")
  = true ->
  In marker_class (split_ws cls EmptyString).
Proof.
  unfold normalize_space.
  pose proof (split_ws_no_space cls EmptyString eq_refl) as F.
  destruct (split_ws cls EmptyString) as [ | t ts]; [discriminate | ].
  rewrite padded_concat. now apply contains_padded.
Qed.

Lemma is_comic_img_marker (el : element) :
  is_comic_img el = true -> has_marker_class el = true.
Proof.
  unfold is_comic_img, has_marker_class. intros H.
  apply andb_true_iff in H. destruct H as [_ H].
  destruct (attr_lookup "class" (el_attrs el)) as [cls | ]; [ | discriminate].
  apply existsb_exists. exists marker_class.
  split; [now apply class_test_marker | apply String.eqb_refl].
Qed.

(** A page without the marker class gives the XPath query nothing. *)
Lemma xpath_no_marker (doc : element) :
  page_has_marker doc = false -> xpath_comic_img doc = [].
Proof.
  unfold page_has_marker, xpath_comic_img. intros H.
  induction (descendants_or_self doc) as [ | el l IH]; [reflexivity | ].
  cbn in H. apply orb_false_iff in H. destruct H as [H1 H2].
  cbn. destruct (is_comic_img el) eqn:E; [ | now apply IH].
  apply is_comic_img_marker in E. congruence.
Qed.

End XPath.

(* ================================================================== *)
(** * The run *)
(* ================================================================== *)

Module Run.
Import Calendar Text Store.

Lemma fetched_app (t1 t2 : list event) :
  fetched (t1 ++ t2) = fetched t1 ++ fetched t2.
Proof. apply flat_map_app. Qed.

(** ** The steps of one day *)

Lemma find_comic_unfold (e : env) (d : date) (s : state) :
  Dilbert.find_comic_by_pubdate e d s
  = let s1 := tick (log (EvGet (Dilbert.day_url d)) (log (EvFetching d) s)) in
    match urlopen e (clock s) (Dilbert.day_url d) with
    | UrlRaises x => (s1, Raise x)
    | UrlAddinfourl => (s1, Raise URLError)
    | UrlResponse _ body =>
        match document_fromstring e body with
        | None => (s1, Raise ParserError)
        | Some html =>
            match xpath_comic_img html with
            | [] => (s1, Raise IndexError)
            | el :: _ =>
                match el_get el "alt" with
                | PyStr alt =>
                    (s1, Ok (DilbertComic.init None (Some d)
                               (el_get el "src")
                               (PyPath (isoformat d ++ ".gif"))
                               (PyStr (re_sub_dash_tail alt))
                               None
                               (el_get el "width")
                               (el_get el "height")))
                | _ => (s1, Raise TypeError)
                end
            end
        end
    end.
Proof.
  unfold Dilbert.find_comic_by_pubdate, bind, emit, Dilbert.fetch_url.
  cbn [py_str clock log tick].
  destruct (urlopen e (clock s) (Dilbert.day_url d)) as [x | | st body];
    try reflexivity.
  cbn [snd]. destruct (document_fromstring e body) as [html | ]; try reflexivity.
  destruct (xpath_comic_img html) as [ | el l]; try reflexivity.
  destruct (el_get el "alt"); reflexivity.
Qed.

(** What [find_comic_by_pubdate] does to the state, whatever it
    returns. *)
Lemma find_comic_state (e : env) (d : date) (s s1 : state)
    (r : result DilbertComic.t) :
  Dilbert.find_comic_by_pubdate e d s = (s1, r) ->
  s1 = tick (log (EvGet (Dilbert.day_url d)) (log (EvFetching d) s)).
Proof.
  rewrite find_comic_unfold. cbv zeta.
  destruct (urlopen _ _ _) as [x | | st body]; try (now intros [= <- _]).
  destruct (document_fromstring e body) as [html | ]; try (now intros [= <- _]).
  destruct (xpath_comic_img html) as [ | el l]; try (now intros [= <- _]).
  destruct (el_get el "alt"); now intros [= <- _].
Qed.

Lemma find_comic_result (e : env) (d : date) (s s1 : state)
    (c : DilbertComic.t) :
  Dilbert.find_comic_by_pubdate e d s = (s1, Ok c) ->
  DilbertComic.pubdate c = Some d
  /\ DilbertComic.filename c = PyPath (isoformat d ++ ".gif")
  /\ exists status body html el rest alt,
       urlopen e (clock s) (Dilbert.day_url d) = UrlResponse status body
       /\ document_fromstring e body = Some html
       /\ xpath_comic_img html = el :: rest
       /\ el_get el "alt" = PyStr alt
       /\ DilbertComic.url c = el_get el "src".
Proof.
  rewrite find_comic_unfold. cbv zeta.
  destruct (urlopen _ _ _) as [x | | st body]; try discriminate.
  destruct (document_fromstring e body) as [html | ] eqn:Eh; try discriminate.
  destruct (xpath_comic_img html) as [ | el l] eqn:Ex; try discriminate.
  destruct (el_get el "alt") as [ | | | alt | ] eqn:Ea; try discriminate.
  intros [= _ <-]. cbn. repeat split.
  exists st, body, html, el, l, alt. auto.
Qed.

Lemma download_comic_unfold (e : env) (fn url : pyval) (s : state) :
  Dilbert.download_comic e fn url s
  = let path := ("cartoons/" ++ py_str e fn)%string in
    let s1 := tick (log (EvGet (py_str e url)) s) in
    match urlopen e (clock s) (py_str e url) with
    | UrlRaises x => (s1, Raise x)
    | UrlAddinfourl => (s1, Raise URLError)
    | UrlResponse _ body =>
        if open_wb e (clock s1) path then
          (log (EvWriteFile path)
             (tick (mkstate (rows s1) (last_id s1) ((path, body) :: files s1)
                            (trace s1) (clock s1))),
           Ok tt)
        else (tick s1, Raise OSError)
    end.
Proof.
  unfold Dilbert.download_comic, bind, Dilbert.fetch_url.
  destruct (urlopen e (clock s) (py_str e url)); reflexivity.
Qed.

Lemma download_comic_state (e : env) (fn url : pyval) (s s1 : state)
    (r : result unit) :
  Dilbert.download_comic e fn url s = (s1, r) ->
  rows s1 = rows s /\ last_id s1 = last_id s
  /\ fetched (trace s1) = fetched (trace s).
Proof.
  rewrite download_comic_unfold. cbv zeta.
  destruct (urlopen _ _ _) as [x | | st body].
  - intros [= <- _]. cbn. rewrite fetched_app. cbn. now rewrite app_nil_r.
  - intros [= <- _]. cbn. rewrite fetched_app. cbn. now rewrite app_nil_r.
  - destruct (open_wb _ _ _); intros [= <- _]; cbn;
      rewrite ?fetched_app; cbn; now rewrite ?app_nil_r.
Qed.

Lemma write_comic_unfold (e : env) (c : DilbertComic.t) (s : state) :
  Dilbert.write_comic_to_db e c s
  = if filename_taken (py_str e (DilbertComic.filename c)) (rows s)
    then (s, Raise IntegrityError)
    else (tick (mkstate (rows s ++ [new_row e c s]) (last_id s + 1) (files s)
                        (trace s) (clock s)),
          Ok tt).
Proof. reflexivity. Qed.

Lemma filename_taken_iff (f : string) (rs : list Row.t) :
  filename_taken f rs = true <-> In (SqlText f) (map Row.filename rs).
Proof.
  unfold filename_taken. rewrite existsb_exists, in_map_iff. split.
  - intros [x [Hx E]]. exists x. split; [ | exact Hx].
    destruct (Row.filename x) as [ | | | t]; try discriminate.
    cbn in E. apply String.eqb_eq in E. now subst.
  - intros [x [E Hx]]. exists x. split; [exact Hx | ].
    rewrite E. cbn. apply String.eqb_refl.
Qed.

(** ** One day: fetch, parse, download, insert *)

(** The three ways a day can end: the page gave no comic, the image
    could not be saved, or the row was inserted or refused. *)
Lemma update_comic_unfold (e : env) (d : date) (s : state) :
  Dilbert.update_comic_by_pubdate e d s
  = match Dilbert.find_comic_by_pubdate e d s with
    | (s1, Raise x) => (s1, Raise x)
    | (s1, Ok comic) =>
        match Dilbert.download_comic e (DilbertComic.filename comic)
                (DilbertComic.url comic) s1 with
        | (s2, Raise x) => (s2, Raise x)
        | (s2, Ok _) => Dilbert.write_comic_to_db e comic s2
        end
    end.
Proof.
  unfold Dilbert.update_comic_by_pubdate, bind.
  destruct (Dilbert.find_comic_by_pubdate e d s) as [s1 [comic | x]];
    [ | reflexivity].
  destruct (Dilbert.download_comic _ _ _ s1) as [s2 [[] | x]]; reflexivity.
Qed.

Lemma fetched_find_state (d : date) (s : state) :
  fetched (trace (tick (log (EvGet (Dilbert.day_url d)) (log (EvFetching d) s))))
  = fetched (trace s) ++ [d].
Proof.
  cbn. rewrite !fetched_app. cbn. now rewrite app_nil_r.
Qed.

Lemma update_comic_spec (e : env) (d : date) (s s' : state) (r : result unit) :
  Dilbert.update_comic_by_pubdate e d s = (s', r) ->
  fetched (trace s') = fetched (trace s) ++ [d]
  /\ match r with
     | Ok _ => exists row, rows s' = rows s ++ [row] /\ comic_row d row
     | Raise _ => rows s' = rows s
     end.
Proof.
  rewrite update_comic_unfold.
  destruct (Dilbert.find_comic_by_pubdate e d s) as [s1 [comic | x]] eqn:Ef.
  - pose proof (find_comic_state _ _ _ _ _ Ef) as E1.
    destruct (find_comic_result _ _ _ _ _ Ef) as (Hp & Hf & _).
    destruct (Dilbert.download_comic _ _ _ s1) as [s2 [[] | x]] eqn:Ed;
      destruct (download_comic_state _ _ _ _ _ _ Ed) as (R2 & _ & T2).
    + rewrite write_comic_unfold.
      destruct (filename_taken _ _); intros [= <- <-].
      * rewrite T2, R2, E1. split; [apply fetched_find_state | reflexivity].
      * cbn [trace rows tick]. rewrite T2, R2, E1.
        split; [apply fetched_find_state | ].
        eexists. split; [reflexivity | ].
        unfold comic_row, new_row. cbn [Row.pubdate Row.filename].
        now rewrite Hp, Hf.
    + intros [= <- <-]. rewrite T2, R2, E1.
      split; [apply fetched_find_state | reflexivity].
  - pose proof (find_comic_state _ _ _ _ _ Ef) as E1.
    intros [= <- <-]. rewrite E1.
    split; [apply fetched_find_state | reflexivity].
Qed.

Lemma update_step_unfold (e : env) (d : date) (s : state) :
  Dilbert.update_step e d s
  = match Dilbert.update_comic_by_pubdate e d s with
    | (s1, Ok _) => (log EvSleep s1, Ok tt)
    | (s1, Raise x) => (s1, Raise x)
    end.
Proof.
  unfold Dilbert.update_step, bind, emit.
  destruct (Dilbert.update_comic_by_pubdate e d s) as [s1 [[] | x]];
    reflexivity.
Qed.

Lemma update_step_spec (e : env) (d : date) (s s' : state) (r : result unit) :
  Dilbert.update_step e d s = (s', r) ->
  fetched (trace s') = fetched (trace s) ++ [d]
  /\ match r with
     | Ok _ => exists row, rows s' = rows s ++ [row] /\ comic_row d row
     | Raise _ => rows s' = rows s
     end.
Proof.
  rewrite update_step_unfold.
  destruct (Dilbert.update_comic_by_pubdate e d s) as [s1 [[] | x]] eqn:E;
    intros [= <- <-]; destruct (update_comic_spec _ _ _ _ _ E) as [T R].
  - cbn [trace rows log]. rewrite fetched_app, T. cbn.
    now rewrite app_nil_r.
  - auto.
Qed.

(** ** The loop *)

Lemma for_each_nil {A : Type} (body : A -> M unit) (s : state) :
  for_each [] body s = (s, Ok tt).
Proof. reflexivity. Qed.

Lemma for_each_cons {A : Type} (a : A) (g : list (result A))
    (body : A -> M unit) (s : state) :
  for_each (Ok a :: g) body s
  = match body a s with
    | (s1, Ok _) => for_each g body s1
    | (s1, Raise x) => (s1, Raise x)
    end.
Proof. reflexivity. Qed.

Lemma run_dates_spec (e : env) (ds : list date) :
  forall s s' r,
    for_each (map Ok ds) (Dilbert.update_step e) s = (s', r) ->
    run_outcome ds s s' r.
Proof.
  induction ds as [ | d ds IH]; intros s s' r.
  - cbn [map]. rewrite for_each_nil. intros [= <- <-].
    exists [], []. rewrite !app_nil_r. repeat split; auto.
  - cbn [map]. rewrite for_each_cons.
    destruct (Dilbert.update_step e d s) as [s1 [[] | x]] eqn:E;
      destruct (update_step_spec _ _ _ _ _ E) as [T R].
    + intros H. destruct R as (row & R & C).
      destruct (IH _ _ _ H) as (done & new_rows & R' & F & O).
      exists (d :: done), (row :: new_rows).
      split; [rewrite R', R, <- app_assoc; reflexivity | ].
      split; [now constructor | ].
      destruct O as [(-> & -> & T') | (x & d' & rest & -> & -> & T')].
      * left. repeat split. rewrite T', T, <- app_assoc. reflexivity.
      * right. exists x, d', rest. repeat split.
        rewrite T', T, <- !app_assoc. reflexivity.
    + intros [= <- <-]. exists [], [].
      split; [now rewrite app_nil_r | ]. split; [constructor | ].
      right. exists x, d, ds. repeat split. exact T.
Qed.

(** ** The dates of the loop *)

Lemma py_range_nonpos (n : Z) : n <= 0 -> py_range n = [].
Proof.
  intros H. unfold py_range.
  replace (Z.to_nat n) with 0%nat by lia. reflexivity.
Qed.

Lemma in_py_range (n i : Z) : In i (py_range n) <-> 0 <= i < n.
Proof.
  unfold py_range. rewrite in_map_iff. split.
  - intros [k [<- Hk]]. apply in_seq in Hk. lia.
  - intros H. exists (Z.to_nat i). split; [lia | ]. apply in_seq. lia.
Qed.

Lemma daterange_days (start_date end_date : date) :
  valid start_date = true -> valid end_date = true ->
  _daterange start_date end_date
  = map Ok (days (toordinal start_date) (toordinal end_date)).
Proof.
  intros Vs Ve. unfold _daterange, days, days_between.
  rewrite map_map. apply map_ext_in. intros n Hn.
  apply in_py_range in Hn.
  pose proof (toordinal_range _ Vs). pose proof (toordinal_range _ Ve).
  unfold add_days.
  replace ((0 <? toordinal start_date + n)
           && (toordinal start_date + n <=? _MAXORDINAL)) with true;
    [reflexivity | ].
  symmetry. apply andb_true_iff. split; [apply Z.ltb_lt | apply Z.leb_le]; lia.
Qed.

Lemma days_empty (a b : Z) : b < a -> days a b = [].
Proof. intros H. unfold days. now rewrite py_range_nonpos by lia. Qed.

Lemma in_days (a b : Z) (d : date) :
  1 <= a -> b <= _MAXORDINAL ->
  (In d (days a b) <-> valid d = true /\ a <= toordinal d <= b).
Proof.
  intros Ha Hb. unfold days. rewrite in_map_iff. split.
  - intros [n [<- Hn]]. apply in_py_range in Hn.
    rewrite toordinal_fromordinal, valid_fromordinal by lia.
    split; [reflexivity | lia].
  - intros [V H]. exists (toordinal d - a). split.
    + replace (a + (toordinal d - a)) with (toordinal d) by lia.
      now apply fromordinal_toordinal.
    + apply in_py_range. lia.
Qed.

Lemma days_ordinals (a b : Z) :
  1 <= a -> b <= _MAXORDINAL ->
  map toordinal (days a b) = map (fun n => a + n) (py_range (b - a + 1)).
Proof.
  intros Ha Hb. unfold days. rewrite map_map. apply map_ext_in.
  intros n Hn. apply in_py_range in Hn. apply toordinal_fromordinal. lia.
Qed.

Lemma days_length (a b : Z) : List.length (days a b) = Z.to_nat (b - a + 1).
Proof. unfold days, py_range. now rewrite !length_map, length_seq. Qed.

Lemma days_cons (a b : Z) :
  a <= b -> days a b = fromordinal a :: days (a + 1) b.
Proof.
  intros H. unfold days, py_range.
  replace (Z.to_nat (b - a + 1)) with (S (Z.to_nat (b - (a + 1) + 1))) by lia.
  cbn [seq map]. rewrite Z.add_0_r. f_equal.
  rewrite <- seq_shift, !map_map. apply map_ext. intros k. f_equal. lia.
Qed.

(** The dates come in ascending order. *)
Lemma days_ascending (a b : Z) :
  1 <= a -> b <= _MAXORDINAL ->
  StronglySorted (fun d1 d2 => PyDate.ltb d1 d2 = true) (days a b).
Proof.
  intros Ha Hb.
  remember (Z.to_nat (b - a + 1)) as n eqn:En.
  revert a Ha En. induction n as [ | n IH]; intros a Ha En.
  - rewrite days_empty by lia. constructor.
  - rewrite days_cons by lia. constructor.
    + apply IH; lia.
    + rewrite Forall_forall. intros d Hd. apply in_days in Hd; try lia.
      destruct Hd as [V Hd]. unfold PyDate.ltb.
      rewrite compare_toordinal.
      * rewrite toordinal_fromordinal by lia.
        now replace (a ?= toordinal d) with Lt
          by (symmetry; apply Z.compare_lt_iff; lia).
      * apply valid_iff, valid_fromordinal. lia.
      * now apply valid_iff.
Qed.

(** ** [update] *)

Lemma update_unfold (e : env) (s : state) :
  Dilbert.update e s
  = match Dilbert.update_range e s with
    | Raise x => (s, Raise x)
    | Ok range => for_each range (Dilbert.update_step e) s
    end.
Proof.
  unfold Dilbert.update, Dilbert.update_range, bind, lift.
  destruct (Dilbert.latest_date_in_db s) as [[L | ] | x]; try reflexivity.
  - destruct (add_days L 1); reflexivity.
  - destruct (sub_days (today e) 10) as [d | x]; [ | reflexivity].
    destruct (add_days d 1); reflexivity.
Qed.

Lemma add_days_ok (d : date) (n : Z) :
  0 < toordinal d + n <= _MAXORDINAL ->
  add_days d n = Ok (fromordinal (toordinal d + n)).
Proof.
  intros H. unfold add_days.
  replace ((0 <? toordinal d + n) && (toordinal d + n <=? _MAXORDINAL))
    with true; [reflexivity | ].
  symmetry. apply andb_true_iff. split; [apply Z.ltb_lt | apply Z.leb_le]; lia.
Qed.

Lemma add_days_overflow (d : date) (n : Z) :
  ~ (0 < toordinal d + n <= _MAXORDINAL) ->
  add_days d n = Raise OverflowError.
Proof.
  intros H. unfold add_days.
  destruct (Z.ltb_spec 0 (toordinal d + n)),
    (Z.leb_spec (toordinal d + n) _MAXORDINAL); cbn; try reflexivity.
  lia.
Qed.

(** With a latest date in the store the loop runs from the day after it
    to today. *)
Lemma update_range_latest (e : env) (s : state) (L : date) :
  valid (today e) = true -> valid L = true ->
  Dilbert.latest_date_in_db s = Ok (Some L) ->
  toordinal L < _MAXORDINAL ->
  Dilbert.update_range e s
  = Ok (map Ok (days (toordinal L + 1) (toordinal (today e)))).
Proof.
  intros Vt VL EL HL. unfold Dilbert.update_range. rewrite EL.
  pose proof (toordinal_range _ VL).
  rewrite add_days_ok by lia.
  rewrite daterange_days; try assumption.
  - now rewrite toordinal_fromordinal by lia.
  - apply valid_fromordinal. lia.
Qed.

(** With an empty store it runs from nine days ago to today. *)
Lemma update_range_empty (e : env) (s : state) :
  valid (today e) = true -> rows s = [] ->
  10 < toordinal (today e) ->
  Dilbert.update_range e s
  = Ok (map Ok (days (toordinal (today e) - 9) (toordinal (today e)))).
Proof.
  intros Vt E H. unfold Dilbert.update_range.
  rewrite latest_date_empty by exact E.
  pose proof (toordinal_range _ Vt).
  unfold sub_days. rewrite add_days_ok by lia.
  rewrite add_days_ok by (rewrite toordinal_fromordinal; lia).
  rewrite toordinal_fromordinal by lia.
  rewrite daterange_days; try assumption.
  - rewrite toordinal_fromordinal by lia.
    now replace (toordinal (today e) + - (10) + 1)
      with (toordinal (today e) - 9) by lia.
  - apply valid_fromordinal. lia.
Qed.

(** ** Rows added by a run hold dates *)

Lemma comic_row_date (d : date) (r : Row.t) :
  valid d = true -> comic_row d r -> row_date r = Some d.
Proof.
  intros V [Hp _]. apply row_date_intro; [exact V | ].
  now rewrite Hp, store_text_isoformat.
Qed.

Lemma new_rows_dated (done : list date) (new_rows : list Row.t) :
  Forall (fun d => valid d = true) done ->
  Forall2 comic_row done new_rows ->
  Forall2 (fun d r => row_date r = Some d) done new_rows.
Proof.
  intros V F. induction F as [ | d r ds rs C F IH]; [constructor | ].
  inversion V; subst. constructor; [now apply comic_row_date | now apply IH].
Qed.

Lemma forall2_dated_all (done : list date) (new_rows : list Row.t) :
  Forall2 (fun d r => row_date r = Some d) done new_rows ->
  all_dated new_rows = true.
Proof.
  intros F. induction F as [ | d r ds rs C F IH]; [reflexivity | ].
  cbn. now rewrite C.
Qed.

Lemma forall2_in_r {A B : Type} (R : A -> B -> Prop) (l1 : list A)
    (l2 : list B) (b : B) :
  Forall2 R l1 l2 -> In b l2 -> exists a, In a l1 /\ R a b.
Proof.
  intros F. induction F as [ | x y l1 l2 H F IH]; [intros [] | ].
  intros [<- | Hb].
  - exists x. split; [now left | exact H].
  - destruct (IH Hb) as [a [Ha Hr]]. exists a. split; [now right | exact Hr].
Qed.

Lemma forall2_in_l {A B : Type} (R : A -> B -> Prop) (l1 : list A)
    (l2 : list B) (a : A) :
  Forall2 R l1 l2 -> In a l1 -> exists b, In b l2 /\ R a b.
Proof.
  intros F. induction F as [ | x y l1 l2 H F IH]; [intros [] | ].
  intros [<- | Ha].
  - exists y. split; [now left | exact H].
  - destruct (IH Ha) as [b [Hb Hr]]. exists b. split; [now right | exact Hr].
Qed.

End Run.

(* ================================================================== *)
(** * The properties of the specification *)
(* ================================================================== *)

Module Claims.
Import Calendar Text Store Run XPath.

Lemma leb_toordinal (d1 d2 : date) :
  valid d1 = true -> valid d2 = true ->
  (PyDate.leb d1 d2 = true <-> toordinal d1 <= toordinal d2).
Proof.
  intros V1 V2. unfold PyDate.leb.
  rewrite compare_toordinal by now apply valid_iff.
  destruct (Z.compare_spec (toordinal d1) (toordinal d2)); split;
    intros; try lia; try reflexivity; discriminate.
Qed.

Lemma ltb_toordinal (d1 d2 : date) :
  valid d1 = true -> valid d2 = true ->
  (PyDate.ltb d1 d2 = true <-> toordinal d1 < toordinal d2).
Proof.
  intros V1 V2. unfold PyDate.ltb.
  rewrite compare_toordinal by now apply valid_iff.
  destruct (Z.compare_spec (toordinal d1) (toordinal d2)); split;
    intros; try lia; try reflexivity; discriminate.
Qed.

Lemma eqb_eq (d1 d2 : date) : PyDate.eqb d1 d2 = true <-> d1 = d2.
Proof.
  destruct d1 as [y1 m1 a1], d2 as [y2 m2 a2]. unfold PyDate.eqb.
  cbn [year month day]. rewrite !andb_true_iff, !Z.eqb_eq. split.
  - intros [[-> ->] ->]. reflexivity.
  - intros [= -> -> ->]. auto.
Qed.

Lemma row_date_valid (r : Row.t) (d : date) :
  row_date r = Some d -> valid d = true.
Proof. intros H. now apply row_date_inv in H. Qed.

Lemma is_latest_spec (rs : list Row.t) (L : date) :
  is_latest rs L = true ->
  (exists r, In r rs /\ row_date r = Some L)
  /\ forall x d, In x rs -> row_date x = Some d -> PyDate.leb d L = true.
Proof.
  unfold is_latest. rewrite andb_true_iff, existsb_exists, forallb_forall.
  intros [[r [Hr E]] F]. split.
  - exists r. split; [exact Hr | ].
    destruct (row_date r) as [d | ]; [ | discriminate].
    apply eqb_eq in E. now subst.
  - intros x d Hx Hd. specialize (F x Hx). now rewrite Hd in F.
Qed.

(** C8: for a store in which every row holds a date, [latest_date_in_db]
    returns the maximum pubdate of the stored rows when there are rows,
    and [None] when there are none. *)
Theorem latest_date_is_maximum (s : state) :
  all_dated (rows s) = true ->
  (rows s = [] -> Dilbert.latest_date_in_db s = Ok None)
  /\ (rows s <> [] ->
      exists L,
        Dilbert.latest_date_in_db s = Ok (Some L)
        /\ (exists r, In r (rows s) /\ row_date r = Some L)
        /\ forall x d, In x (rows s) -> row_date x = Some d ->
                       PyDate.leb d L = true).
Proof.
  intros D. split; [apply latest_date_empty | ].
  intros NE.
  destruct (latest_date_dated s D NE) as (r & L & E & Hr & HL & VL & Hmax).
  exists L. split; [exact E | ]. split; [eauto | ].
  intros x d Hx Hd. apply leb_toordinal; eauto using row_date_valid.
Qed.

Lemma add_days_inv (d d' : date) (n : Z) :
  add_days d n = Ok d' ->
  0 < toordinal d + n <= _MAXORDINAL /\ d' = fromordinal (toordinal d + n).
Proof.
  unfold add_days.
  destruct (Z.ltb_spec 0 (toordinal d + n)),
    (Z.leb_spec (toordinal d + n) _MAXORDINAL); cbn; try discriminate.
  intros [= <-]. split; [lia | reflexivity].
Qed.

Lemma date_max_ordinal (d : date) :
  valid d = true -> d <> date_max -> toordinal d < _MAXORDINAL.
Proof.
  intros V N. pose proof (toordinal_range d V) as R.
  destruct (Z.eq_dec (toordinal d) _MAXORDINAL) as [E | ]; [ | lia].
  elim N. apply toordinal_inj; try (now apply valid_iff). exact E.
Qed.

Lemma is_latest_date (s : state) (L : date) :
  all_dated (rows s) = true -> is_latest (rows s) L = true ->
  Dilbert.latest_date_in_db s = Ok (Some L) /\ valid L = true.
Proof.
  intros D H. apply is_latest_spec in H. destruct H as [[r [Hr HL]] Hmax].
  pose proof (row_date_valid _ _ HL) as VL. split; [ | exact VL].
  apply latest_date_max; eauto.
  intros x d Hx Hd. apply leb_toordinal; eauto using row_date_valid.
Qed.

Lemma update_range_run (e : env) (s : state) (ds : list date) :
  Dilbert.update_range e s = Ok (map Ok ds) ->
  forall s' r, Dilbert.update e s = (s', r) -> run_outcome ds s s' r.
Proof.
  intros E s' r. rewrite update_unfold, E. apply run_dates_spec.
Qed.

(** At the end of the calendar there is no next day: the run raises
    before it does anything. *)
Lemma update_at_date_max (e : env) (s : state) :
  Dilbert.latest_date_in_db s = Ok (Some date_max) ->
  Dilbert.update e s = (s, Raise OverflowError).
Proof.
  intros E. rewrite update_unfold. unfold Dilbert.update_range.
  rewrite E. reflexivity.
Qed.

(** C2: when the latest date [L] of the store has a next day, the run
    goes through exactly the dates from that day to today, in ascending
    order; and when [L] is today or later there is no such date, and the
    run leaves everything as it was. *)
Theorem update_from_latest_date (e : env) (s : state) (L next : date) :
  all_dated (rows s) = true ->
  is_latest (rows s) L = true ->
  valid (today e) = true ->
  add_days L 1 = Ok next ->
  exists ds,
    Dilbert.update_range e s = Ok (map Ok ds)
    /\ (forall d, In d ds <->
                  valid d = true /\ PyDate.leb next d = true
                  /\ PyDate.leb d (today e) = true)
    /\ StronglySorted (fun d1 d2 => PyDate.ltb d1 d2 = true) ds
    /\ (forall s' r, Dilbert.update e s = (s', r) -> run_outcome ds s s' r)
    /\ (PyDate.leb (today e) L = true ->
        ds = [] /\ Dilbert.update e s = (s, Ok tt)).
Proof.
  intros D HL Vt Hn.
  destruct (is_latest_date s L D HL) as [EL VL].
  destruct (add_days_inv _ _ _ Hn) as [Ho ->].
  pose proof (toordinal_range _ VL) as RL.
  pose proof (toordinal_range _ Vt) as Rt.
  assert (Vn : valid (fromordinal (toordinal L + 1)) = true)
    by (apply valid_fromordinal; lia).
  assert (En : toordinal (fromordinal (toordinal L + 1)) = toordinal L + 1)
    by (apply toordinal_fromordinal; lia).
  assert (ER : Dilbert.update_range e s
               = Ok (map Ok (days (toordinal L + 1) (toordinal (today e)))))
    by (apply update_range_latest; try assumption; lia).
  exists (days (toordinal L + 1) (toordinal (today e))).
  split; [exact ER | ]. split; [ | split; [ | split]].
  - intros d. rewrite in_days by lia. split.
    + intros [V H]. split; [exact V | ].
      split; apply leb_toordinal; try assumption; lia.
    + intros (V & H1 & H2). split; [exact V | ].
      apply leb_toordinal in H1, H2; try assumption. lia.
  - apply days_ascending; lia.
  - now apply update_range_run.
  - intros H. apply leb_toordinal in H; try assumption.
    assert (E0 : days (toordinal L + 1) (toordinal (today e)) = [])
      by (apply days_empty; lia).
    split; [exact E0 | ].
    rewrite update_unfold, ER, E0. reflexivity.
Qed.

(** C1, as the code has it: with an empty store the latest date
    defaults to ten days before today and the run starts the day after,
    so it goes through the ten dates from nine days ago to today, in
    ascending order; for today = 2024-03-15 these are 2024-03-06 to
    2024-03-15. *)
Theorem update_empty_store (e : env) (s : state) (default : date) :
  rows s = [] ->
  valid (today e) = true ->
  sub_days (today e) 10 = Ok default ->
  exists ds,
    toordinal default = toordinal (today e) - 10
    /\ Dilbert.update_range e s = Ok (map Ok ds)
    /\ map toordinal ds
       = map (fun n => toordinal (today e) - 9 + n) (py_range 10)
    /\ StronglySorted (fun d1 d2 => PyDate.ltb d1 d2 = true) ds
    /\ (today e = mkdate 2024 3 15 -> ds = march_2024 6 15)
    /\ (forall s' r, Dilbert.update e s = (s', r) -> run_outcome ds s s' r).
Proof.
  intros E Vt Hd. unfold sub_days in Hd.
  destruct (add_days_inv _ _ _ Hd) as [Ho ->].
  pose proof (toordinal_range _ Vt) as Rt.
  assert (ER : Dilbert.update_range e s
               = Ok (map Ok (days (toordinal (today e) - 9)
                                  (toordinal (today e)))))
    by (apply update_range_empty; try assumption; lia).
  exists (days (toordinal (today e) - 9) (toordinal (today e))).
  split; [rewrite toordinal_fromordinal; lia | ].
  split; [exact ER | ]. split; [ | split; [ | split]].
  - rewrite days_ordinals by lia. do 2 f_equal. lia.
  - apply days_ascending; lia.
  - intros ->. vm_compute. reflexivity.
  - now apply update_range_run.
Qed.

(** C1, as the specification has it, fails: on the empty store with
    today = 2024-03-15 and an archive that answers every request, the
    run does not go through the eleven dates 2024-03-05 to 2024-03-15
    but through the ten dates from 2024-03-06 on. *)
Lemma update_empty_store_not_eleven :
  rows empty_state = []
  /\ today example_env = mkdate 2024 3 15
  /\ Dilbert.update_range example_env empty_state
     <> Ok (map Ok (march_2024 5 15))
  /\ exists s',
       Dilbert.update example_env empty_state = (s', Ok tt)
       /\ fetched (trace s') = march_2024 6 15
       /\ List.length (fetched (trace s')) = 10%nat
       /\ fetched (trace s') <> march_2024 5 15.
Proof.
  split; [reflexivity | ]. split; [reflexivity | ]. split.
  - vm_compute. discriminate.
  - eexists. split; [vm_compute; reflexivity | ].
    split; [vm_compute; reflexivity | ].
    split; [vm_compute; reflexivity | vm_compute; discriminate].
Qed.

(** ** What a run leaves in the store *)

Lemma days_valid (a b : Z) :
  1 <= a -> b <= _MAXORDINAL ->
  Forall (fun d => valid d = true) (days a b).
Proof.
  intros Ha Hb. rewrite Forall_forall. intros d Hd.
  now apply in_days in Hd.
Qed.

Lemma forall_app_l {A : Type} (P : A -> Prop) (l1 l2 : list A) :
  Forall P (l1 ++ l2) -> Forall P l1.
Proof. intros H. apply Forall_app in H. tauto. Qed.

(** The dates a run ends with are among the dates of its loop. *)
Lemma run_outcome_done (ds : list date) (s s' : state) (r : result unit) :
  run_outcome ds s s' r ->
  exists done rest new_rows,
    ds = done ++ rest
    /\ rows s' = rows s ++ new_rows
    /\ Forall2 comic_row done new_rows
    /\ (r = Ok tt -> rest = []).
Proof.
  intros (done & new_rows & R & F & [(-> & -> & _) | (x & d & rest & -> & -> & _)]).
  - exists ds, [], new_rows. rewrite app_nil_r. auto.
  - exists done, (d :: rest), new_rows. repeat split; auto. discriminate.
Qed.

(** The range of a run, whenever there is one, consists of valid
    dates up to today. *)
Lemma update_range_days (e : env) (s : state) (g : list (result date)) :
  all_dated (rows s) = true -> valid (today e) = true ->
  Dilbert.update_range e s = Ok g ->
  exists a,
    1 <= a /\ g = map Ok (days a (toordinal (today e)))
    /\ (forall x d, In x (rows s) -> row_date x = Some d -> toordinal d < a)
    /\ (rows s <> [] ->
        exists L, Dilbert.latest_date_in_db s = Ok (Some L)
                  /\ valid L = true /\ toordinal L + 1 = a
                  /\ a <= _MAXORDINAL).
Proof.
  intros D Vt. pose proof (toordinal_range _ Vt) as Rt.
  destruct (rows s) as [ | r0 rs] eqn:ER.
  - intros H.
    assert (E0 : exists d0, sub_days (today e) 10 = Ok d0).
    { unfold Dilbert.update_range in H.
      rewrite latest_date_empty in H by exact ER.
      destruct (sub_days (today e) 10); [eauto | discriminate]. }
    destruct E0 as [d0 E0].
    unfold sub_days in E0. destruct (add_days_inv _ _ _ E0) as [H0 _].
    exists (toordinal (today e) - 9).
    rewrite update_range_empty in H by (try assumption; lia).
    injection H as <-. split; [lia | ]. split; [reflexivity | ].
    split; [intros x d [] | congruence].
  - assert (NE : rows s <> []) by (rewrite ER; discriminate).
    rewrite <- ER in *.
    destruct (latest_date_dated s D NE) as (r & L & EL & Hr & HL & VL & Hmax).
    pose proof (toordinal_range _ VL) as RL.
    unfold Dilbert.update_range. rewrite EL.
    destruct (add_days L 1) as [d1 | ] eqn:E1; [ | discriminate].
    destruct (add_days_inv _ _ _ E1) as [H1 ->].
    intros H. exists (toordinal L + 1).
    assert (E' : Dilbert.update_range e s
                 = Ok (map Ok (days (toordinal L + 1) (toordinal (today e)))))
      by (apply update_range_latest; try assumption; lia).
    unfold Dilbert.update_range in E'. rewrite EL, E1 in E'.
    rewrite E' in H. injection H as <-.
    split; [lia | ]. split; [reflexivity | ]. split.
    + intros x d Hx Hd. specialize (Hmax x d Hx Hd). lia.
    + intros _. exists L. repeat split; try assumption; lia.
Qed.

(** A run keeps the store a table of dates. *)
Lemma update_keeps_dated (e : env) (s s' : state) (r : result unit) :
  all_dated (rows s) = true -> valid (today e) = true ->
  Dilbert.update e s = (s', r) -> all_dated (rows s') = true.
Proof.
  intros D Vt. rewrite update_unfold.
  destruct (Dilbert.update_range e s) as [g | x] eqn:EG;
    [ | now intros [= <- _]].
  destruct (update_range_days e s g D Vt EG) as (a & Ha & -> & _ & _).
  intros H. apply run_dates_spec, run_outcome_done in H.
  destruct H as (done & rest & new_rows & Eds & R & F & _).
  rewrite R, all_dated_app, D. cbn.
  apply (forall2_dated_all done). apply new_rows_dated; [ | exact F].
  apply (forall_app_l _ done rest). rewrite <- Eds.
  apply days_valid; [lia | ]. pose proof (toordinal_range _ Vt). lia.
Qed.

(** After a run that returned, the latest date of the store is today or
    later. *)
Lemma update_reaches_today (e : env) (s s1 : state) :
  all_dated (rows s) = true -> valid (today e) = true ->
  today e <> date_max ->
  Dilbert.update e s = (s1, Ok tt) ->
  exists L,
    Dilbert.latest_date_in_db s1 = Ok (Some L) /\ valid L = true
    /\ toordinal (today e) <= toordinal L < _MAXORDINAL.
Proof.
  intros D Vt Nt H.
  pose proof (update_keeps_dated _ _ _ _ D Vt H) as D1.
  pose proof (toordinal_range _ Vt) as Rt.
  pose proof (date_max_ordinal _ Vt Nt) as Mt.
  rewrite update_unfold in H.
  destruct (Dilbert.update_range e s) as [g | x] eqn:EG; [ | discriminate].
  destruct (update_range_days e s g D Vt EG) as (a & Ha & -> & Hlt & HL).
  apply run_dates_spec in H.
  destruct H as (done & new_rows & R & F & [(_ & -> & _) | (x & ? & ? & ? & _)]);
    [ | discriminate].
  destruct (Z.le_gt_cases a (toordinal (today e))) as [Hle | Hgt].
  - (* the loop ran up to today *)
    exists (today e). split; [ | split; [exact Vt | lia]].
    assert (Hin : In (today e) (days a (toordinal (today e))))
      by (apply in_days; try lia; split; [exact Vt | lia]).
    destruct (forall2_in_l _ _ _ _ F Hin) as (row & Hrow & C).
    apply latest_date_max; [exact D1 | | ].
    + exists row. split; [rewrite R; apply in_or_app; now right | ].
      now apply comic_row_date.
    + intros x d Hx Hd. rewrite R in Hx. apply in_app_or in Hx.
      destruct Hx as [Hx | Hx].
      * specialize (Hlt x d Hx Hd). lia.
      * destruct (forall2_in_r _ _ _ _ F Hx) as (d' & Hd' & C').
        apply in_days in Hd'; try lia. destruct Hd' as [V' O'].
        rewrite (comic_row_date d' x V' C') in Hd. injection Hd as <-. lia.
  - (* nothing to do: the store was ahead already *)
    rewrite days_empty in F by lia. inversion F; subst.
    rewrite app_nil_r in R.
    assert (NE : rows s <> []).
    { intros E0. unfold Dilbert.update_range in EG.
      rewrite latest_date_empty in EG by exact E0.
      destruct (sub_days (today e) 10) as [d0 | ] eqn:E1; [ | discriminate].
      unfold sub_days in E1. destruct (add_days_inv _ _ _ E1) as [H0 ->].
      rewrite add_days_ok in EG by (rewrite toordinal_fromordinal; lia).
      rewrite daterange_days in EG;
        try assumption; try (apply valid_fromordinal;
                             rewrite toordinal_fromordinal; lia).
      rewrite !toordinal_fromordinal in EG
        by (rewrite ?toordinal_fromordinal; lia).
      injection EG as EG. apply (f_equal (@List.length _)) in EG.
      rewrite !length_map, !days_length in EG. lia. }
    destruct (HL NE) as (L & EL & VL & Ea & Hmax).
    exists L. split; [ | split; [exact VL | lia]].
    rewrite <- EL. unfold Dilbert.latest_date_in_db. now rewrite R.
Qed.

(** C3: a second run on the same day, whatever the archive then
    answers, finds nothing to do: its range is empty, and it returns
    with the store, the files and the trace as the first run left
    them. *)
Theorem update_twice (e e2 : env) (s s1 : state) :
  all_dated (rows s) = true ->
  valid (today e) = true ->
  today e <> date_max ->
  today e2 = today e ->
  Dilbert.update e s = (s1, Ok tt) ->
  Dilbert.update_range e2 s1 = Ok []
  /\ Dilbert.update e2 s1 = (s1, Ok tt).
Proof.
  intros D Vt Nt E2 H.
  destruct (update_reaches_today e s s1 D Vt Nt H) as (L & EL & VL & HL).
  assert (ER : Dilbert.update_range e2 s1 = Ok []).
  { rewrite (update_range_latest e2 s1 L); try assumption; try lia.
    - rewrite E2, days_empty by lia. reflexivity.
    - now rewrite E2. }
  split; [exact ER | ]. rewrite update_unfold, ER. reflexivity.
Qed.

(** ** A page without a comic *)

Lemma for_each_app (e : env) (pre post : list date) (s : state) :
  for_each (map Ok (pre ++ post)) (Dilbert.update_step e) s
  = match for_each (map Ok pre) (Dilbert.update_step e) s with
    | (s1, Ok _) => for_each (map Ok post) (Dilbert.update_step e) s1
    | (s1, Raise x) => (s1, Raise x)
    end.
Proof.
  revert s. induction pre as [ | d pre IH]; intros s; [reflexivity | ].
  cbn [app map]. rewrite !for_each_cons.
  destruct (Dilbert.update_step e d s) as [s1 [[] | x]]; [apply IH | reflexivity].
Qed.

(** C4: when the page fetched for a date holds no element whose class
    list contains the marker class, reading it raises [IndexError] (the
    specification's ParseError), no row is added, and the run ends there:
    none of the later dates is asked for. *)
Theorem missing_comic_aborts (e : env) (d : date) (pre rest : list date)
    (s s1 : state) (status : Z) (body : bytes) (html : element) :
  for_each (map Ok pre) (Dilbert.update_step e) s = (s1, Ok tt) ->
  urlopen e (clock s1) (Dilbert.day_url d) = UrlResponse status body ->
  document_fromstring e body = Some html ->
  page_has_marker html = false ->
  exists s2,
    Dilbert.find_comic_by_pubdate e d s1 = (s2, Raise IndexError)
    /\ Dilbert.update_comic_by_pubdate e d s1 = (s2, Raise IndexError)
    /\ for_each (map Ok (pre ++ d :: rest)) (Dilbert.update_step e) s
       = (s2, Raise IndexError)
    /\ rows s2 = rows s1
    /\ files s2 = files s1
    /\ fetched (trace s2) = fetched (trace s1) ++ [d].
Proof.
  intros Hpre Hu Hp Hm.
  assert (Ef : Dilbert.find_comic_by_pubdate e d s1
               = (tick (log (EvGet (Dilbert.day_url d))
                          (log (EvFetching d) s1)),
                  Raise IndexError)).
  { rewrite find_comic_unfold. cbv zeta.
    now rewrite Hu, Hp, (xpath_no_marker html Hm). }
  eexists. split; [exact Ef | ].
  assert (Ec : Dilbert.update_comic_by_pubdate e d s1
               = (tick (log (EvGet (Dilbert.day_url d))
                          (log (EvFetching d) s1)),
                  Raise IndexError))
    by (rewrite update_comic_unfold, Ef; reflexivity).
  split; [exact Ec | ]. split; [ | split; [reflexivity | split]].
  - rewrite for_each_app, Hpre. cbn [map]. rewrite for_each_cons.
    now rewrite update_step_unfold, Ec.
  - reflexivity.
  - apply fetched_find_state.
Qed.

(** ** One row per file name *)

Lemma write_comic_unique (e : env) (c : DilbertComic.t) (s s' : state)
    (r : result unit) :
  unique_filenames s -> Dilbert.write_comic_to_db e c s = (s', r) ->
  unique_filenames s'.
Proof.
  unfold unique_filenames. intros U. rewrite write_comic_unfold.
  destruct (filename_taken _ _) eqn:E; intros [= <- _]; [exact U | ].
  cbn [rows tick]. rewrite map_app. apply NoDup_app; [exact U | | ].
  - cbn. constructor; [intros [] | constructor].
  - intros a Ha [<- | []]. cbn [new_row Row.filename] in Ha.
    apply filename_taken_iff in Ha. congruence.
Qed.

Lemma update_comic_unique (e : env) (d : date) (s s' : state)
    (r : result unit) :
  unique_filenames s -> Dilbert.update_comic_by_pubdate e d s = (s', r) ->
  unique_filenames s'.
Proof.
  intros U. rewrite update_comic_unfold.
  destruct (Dilbert.find_comic_by_pubdate e d s) as [s1 [comic | x]] eqn:Ef;
    pose proof (find_comic_state _ _ _ _ _ Ef) as E1.
  - destruct (Dilbert.download_comic _ _ _ s1) as [s2 [[] | x]] eqn:Ed;
      destruct (download_comic_state _ _ _ _ _ _ Ed) as (R2 & _ & _).
    + apply write_comic_unique. unfold unique_filenames.
      rewrite R2, E1. exact U.
    + intros [= <- _]. unfold unique_filenames. rewrite R2, E1. exact U.
  - intros [= <- _]. rewrite E1. exact U.
Qed.

Lemma for_each_invariant {A : Type} (P : state -> Prop)
    (body : A -> M unit) :
  (forall a s s' r, P s -> body a s = (s', r) -> P s') ->
  forall g s s' r, P s -> for_each g body s = (s', r) -> P s'.
Proof.
  intros Hb g. induction g as [ | x g IH]; intros s s' r Hs.
  - intros [= <- _]. exact Hs.
  - cbn [for_each]. unfold bind, lift. destruct x as [a | x].
    + destruct (body a s) as [s1 [[] | y]] eqn:E.
      * apply IH. eapply Hb; eauto.
      * intros [= <- _]. eapply Hb; eauto.
    + intros [= <- _]. exact Hs.
Qed.

Lemma update_unique (e : env) (s s' : state) (r : result unit) :
  unique_filenames s -> Dilbert.update e s = (s', r) -> unique_filenames s'.
Proof.
  intros U. rewrite update_unfold.
  destruct (Dilbert.update_range e s) as [g | x]; [ | now intros [= <- _]].
  apply for_each_invariant; [ | exact U].
  intros d t t' r' Ht. rewrite update_step_unfold.
  destruct (Dilbert.update_comic_by_pubdate e d t) as [t1 [[] | y]] eqn:E;
    intros [= <- _]; apply (update_comic_unique _ _ _ _ _ Ht E).
Qed.

(** C5: the second of two inserts of comics with the same file name
    raises [IntegrityError] (the specification's ConstraintError) and
    changes nothing; the comics read for one date have the same file
    name; and no insert and no run ever gives two rows one file name. *)
Theorem second_insert_fails (e : env) :
  (forall c1 c2 s s1 r1,
      py_str e (DilbertComic.filename c1) = py_str e (DilbertComic.filename c2) ->
      Dilbert.write_comic_to_db e c1 s = (s1, r1) ->
      Dilbert.write_comic_to_db e c2 s1 = (s1, Raise IntegrityError))
  /\ (forall d s1 s2 t1 t2 c1 c2,
        Dilbert.find_comic_by_pubdate e d s1 = (t1, Ok c1) ->
        Dilbert.find_comic_by_pubdate e d s2 = (t2, Ok c2) ->
        py_str e (DilbertComic.filename c1) = (isoformat d ++ ".gif")%string
        /\ py_str e (DilbertComic.filename c2) = (isoformat d ++ ".gif")%string)
  /\ unique_filenames empty_state
  /\ (forall c s s' r,
        unique_filenames s -> Dilbert.write_comic_to_db e c s = (s', r) ->
        unique_filenames s')
  /\ (forall s s' r,
        unique_filenames s -> Dilbert.update e s = (s', r) ->
        unique_filenames s').
Proof.
  split; [ | split; [ | split; [ | split]]].
  - intros c1 c2 s s1 r1 Ef. rewrite !write_comic_unfold, <- Ef.
    destruct (filename_taken _ (rows s)) eqn:E; intros [= <- _].
    + now rewrite E.
    + cbn [rows tick].
      replace (filename_taken (py_str e (DilbertComic.filename c1))
                 (rows s ++ [new_row e c1 s])) with true; [reflexivity | ].
      symmetry. apply filename_taken_iff. rewrite map_app.
      apply in_or_app. right. now left.
  - intros d s1 s2 t1 t2 c1 c2 H1 H2.
    apply find_comic_result in H1, H2.
    destruct H1 as (_ & -> & _), H2 as (_ & -> & _). split; reflexivity.
  - constructor.
  - intros c s s' r. apply write_comic_unique.
  - apply update_unique.
Qed.

(** ** A row only after the whole day succeeded *)

(** C7: the row of a date is added only when the day page was fetched,
    a comic was found in it, and its image was fetched and saved; if
    any of this fails no row is added and the run stops with that
    exception. *)
Theorem row_only_after_success (e : env) (d : date) (s s' : state)
    (r : result unit) :
  Dilbert.update_comic_by_pubdate e d s = (s', r) ->
  (forall x, r = Raise x ->
             rows s' = rows s
             /\ forall rest,
                 for_each (map Ok (d :: rest)) (Dilbert.update_step e) s
                 = (s', Raise x))
  /\ (rows s' <> rows s ->
      exists status body html el others alt istatus image row,
        urlopen e (clock s) (Dilbert.day_url d) = UrlResponse status body
        /\ document_fromstring e body = Some html
        /\ xpath_comic_img html = el :: others
        /\ el_get el "alt" = PyStr alt
        /\ urlopen e (S (clock s)) (py_str e (el_get el "src"))
           = UrlResponse istatus image
        /\ open_wb e (S (S (clock s))) ("cartoons/" ++ isoformat d ++ ".gif")
           = true
        /\ files s' = ("cartoons/" ++ isoformat d ++ ".gif", image)%string
                      :: files s
        /\ r = Ok tt
        /\ rows s' = rows s ++ [row]
        /\ comic_row d row).
Proof.
  intros H. split.
  - intros x ->. destruct (update_comic_spec _ _ _ _ _ H) as [_ R].
    split; [exact R | ]. intros rest. cbn [map].
    now rewrite for_each_cons, update_step_unfold, H.
  - revert H. rewrite update_comic_unfold.
    destruct (Dilbert.find_comic_by_pubdate e d s) as [s1 [comic | x]] eqn:Ef;
      pose proof (find_comic_state _ _ _ _ _ Ef) as E1.
    + destruct (find_comic_result _ _ _ _ _ Ef)
        as (Hp & Hf & st & body & html & el & others & alt
            & Hu & Hh & Hx & Ha & Hs).
      rewrite download_comic_unfold. cbv zeta. rewrite Hf, Hs.
      cbn [py_str]. subst s1. cbn [clock tick log rows last_id files trace].
      destruct (urlopen e (S (clock s)) (py_str e (el_get el "src")))
        as [y | | ist image] eqn:Ei;
        try (intros [= <- _] N; now elim N).
      destruct (open_wb e (S (S (clock s)))
                  ("cartoons/" ++ isoformat d ++ ".gif")) eqn:Eo;
        [ | intros [= <- _] N; now elim N].
      rewrite write_comic_unfold. cbn [rows tick log].
      destruct (filename_taken _ _);
        [intros [= <- _] N; now elim N | ].
      intros [= <- <-] _.
      exists st, body, html, el, others, alt, ist, image.
      eexists. repeat split; try eassumption; try reflexivity.
      * cbn [Row.pubdate new_row]. now rewrite Hp.
      * cbn [Row.filename new_row]. now rewrite Hf.
    + intros [= <- _] N. subst s1. now elim N.
Qed.

(** ** What the insert stores *)

Lemma store_text_not_null (a : affinity) (t : string) :
  store_text a t <> SqlNull.
Proof.
  unfold store_text.
  destruct a; try discriminate; destruct (classify_numeric t); discriminate.
Qed.

Lemma write_comic_row (e : env) (c : DilbertComic.t) (s s' : state) :
  Dilbert.write_comic_to_db e c s = (s', Ok tt) ->
  rows s' = rows s ++ [new_row e c s].
Proof.
  rewrite write_comic_unfold.
  destruct (filename_taken _ _); [discriminate | ]. now intros [= <-].
Qed.

Lemma fix_title_not_empty (t : pyval) :
  DilbertComic.fix_title t <> PyStr "".
Proof.
  destruct t as [ | | | [ | c t] | ]; discriminate.
Qed.

(** C9: a comic built with the empty title has the title ["-"], and
    this is what an insert stores; no comic, however it is built, has
    the empty title, and no insert of one stores it. *)
Theorem empty_title_placeholder (e : env) (comic_id : option Z)
    (pubdate : option date) (url filename : pyval) (title : option string)
    (updated : option datetime) (width height : pyval) (s s' : state) :
  let c := DilbertComic.init comic_id pubdate url filename
             (match title with Some t => PyStr t | None => PyNone end)
             updated width height in
  (title = Some EmptyString -> DilbertComic.title c = PyStr "-")
  /\ DilbertComic.title c <> PyStr ""
  /\ (forall r c', DilbertComic.of_row e r = Ok c' ->
                   DilbertComic.title c' <> PyStr "")
  /\ (Dilbert.write_comic_to_db e c s = (s', Ok tt) ->
      exists row,
        rows s' = rows s ++ [row]
        /\ Row.title row = SqlText (py_str e (DilbertComic.title c))
        /\ Row.title row <> SqlText ""
        /\ (title = Some EmptyString -> Row.title row = SqlText "-")).
Proof.
  cbv zeta. split; [now intros -> | ].
  split; [apply fix_title_not_empty | ]. split.
  - intros r c'. unfold DilbertComic.of_row.
    destruct (Row.pubdate r); try discriminate.
    destruct (fromisoformat _); try discriminate.
    destruct (Row.updated r); try discriminate.
    destruct (datetime_fromisoformat e _); try discriminate.
    intros [= <-]. apply fix_title_not_empty.
  - intros H. apply write_comic_row in H. eexists. split; [exact H | ].
    cbn [new_row Row.title DilbertComic.init DilbertComic.title].
    split; [reflexivity | ]. split; [ | now intros ->].
    destruct title as [[ | a t] | ]; discriminate.
Qed.

(** C10: the insert stores the [str()] of every attribute; where the
    width, the height or the title is [None] the row holds the text
    ["None"], and no row it adds has NULL in one of these columns. *)
Theorem insert_stringifies (e : env) (c : DilbertComic.t) (s s' : state) :
  Dilbert.write_comic_to_db e c s = (s', Ok tt) ->
  exists row,
    rows s' = rows s ++ [row]
    /\ Row.title row = SqlText (py_str e (DilbertComic.title c))
    /\ Row.width row = store_text INTEGER (py_str e (DilbertComic.width c))
    /\ Row.height row = store_text INTEGER (py_str e (DilbertComic.height c))
    /\ (DilbertComic.title c = PyNone -> Row.title row = SqlText "None")
    /\ (DilbertComic.width c = PyNone -> Row.width row = SqlText "None")
    /\ (DilbertComic.height c = PyNone -> Row.height row = SqlText "None")
    /\ Row.title row <> SqlNull
    /\ Row.width row <> SqlNull
    /\ Row.height row <> SqlNull.
Proof.
  intros H. apply write_comic_row in H. eexists. split; [exact H | ].
  cbn [new_row Row.title Row.width Row.height].
  repeat split; try (intros ->; reflexivity); try discriminate;
    apply store_text_not_null.
Qed.

(** ** The feed *)

Lemma readable_inv (e : env) (r : Row.t) :
  readable e r = true ->
  exists c d,
    DilbertComic.of_row e r = Ok c /\ row_date r = Some d
    /\ DilbertComic.pubdate c = Some d
    /\ DilbertComic.filename c = to_python (Row.filename r).
Proof.
  unfold readable, DilbertComic.of_row, row_date.
  destruct (Row.pubdate r) as [ | | | p]; try discriminate.
  destruct (fromisoformat p) as [d | ]; try discriminate.
  destruct (Row.updated r) as [ | | | u]; try discriminate.
  destruct (datetime_fromisoformat e u); try discriminate.
  intros _. eexists. exists d. repeat split.
Qed.

Lemma readable_dated (e : env) (rs : list Row.t) :
  forallb (readable e) rs = true -> all_dated rs = true.
Proof.
  intros H. apply all_dated_forall. intros r Hr.
  rewrite forallb_forall in H.
  destruct (readable_inv e r (H r Hr)) as (c & d & _ & Hd & _). eauto.
Qed.

Lemma comics_of_rows_readable (e : env) (rs : list Row.t) :
  Forall (fun r => readable e r = true) rs ->
  exists cs,
    Dilbert.comics_of_rows e rs = Ok cs
    /\ Forall2 (fun r c => DilbertComic.of_row e r = Ok c) rs cs.
Proof.
  induction 1 as [ | r rs Hr F (cs & E & F2)].
  - exists []. split; [reflexivity | constructor].
  - destruct (readable_inv e r Hr) as (c & d & Ec & _).
    exists (c :: cs). cbn. rewrite Ec, E. split; [reflexivity | ].
    now constructor.
Qed.

Lemma add_items_spec (e : env) (baseurl : string) (rs : list Row.t)
    (cs : list DilbertComic.t) :
  Forall2 (fun r c => DilbertComic.of_row e r = Ok c) rs cs ->
  forall acc,
  exists items,
    Dilbert.add_items e baseurl cs acc = Ok (acc ++ items)
    /\ Forall2 (item_of_row e baseurl) rs items.
Proof.
  induction 1 as [ | r c rs cs Hc F IH]; intros acc.
  - exists []. rewrite app_nil_r. split; [reflexivity | constructor].
  - assert (Hr : readable e r = true) by (unfold readable; now rewrite Hc).
    destruct (readable_inv e r Hr) as (c' & d & Ec & Hd & Hp & Hf).
    rewrite Hc in Ec. injection Ec as <-.
    cbn [Dilbert.add_items]. unfold Dilbert.feed_item_of at 1. rewrite Hp.
    destruct (IH (acc ++ [mkitem (DilbertComic.title c) "Scott Adams"
                            ("http://dilbert.com/strip/" ++ isoformat d)
                            (DilbertComic.updated c) (datetime_midnight d)
                            (DilbertComic.tag e c baseurl)]))
      as (items & E & F2).
    eexists (_ :: items). rewrite E, <- app_assoc.
    split; [reflexivity | ]. constructor; [ | exact F2].
    exists d,
      (if py_bool e (DilbertComic.width c)
       then "width=" ++ dq ++ py_str e (DilbertComic.width c) ++ dq
       else "")%string,
      (if py_bool e (DilbertComic.height c)
       then "height=" ++ dq ++ py_str e (DilbertComic.height c) ++ dq
       else "")%string.
    unfold DilbertComic.tag. cbv zeta. rewrite Hf, Hp.
    cbn [item_pubdate item_link item_author_name item_description str_date].
    repeat split; try assumption; try reflexivity.
    now rewrite <- !append_assoc.
Qed.

Lemma sorted_app {A : Type} (R : A -> A -> Prop) (l1 l2 : list A) :
  StronglySorted R (l1 ++ l2) ->
  StronglySorted R l1 /\ forall a b, In a l1 -> In b l2 -> R a b.
Proof.
  induction l1 as [ | x l1 IH]; cbn; intros H.
  - split; [constructor | intros a b []].
  - inversion H as [ | ? ? HS HF]; subst.
    destruct (IH HS) as [S1 C]. apply Forall_app in HF.
    destruct HF as [F1 F2]. split; [now constructor | ].
    intros a b [<- | Ha] Hb; [ | now apply C].
    rewrite Forall_forall in F2. now apply F2.
Qed.

Lemma sorted_forall2 {A B : Type} (Q : A -> B -> Prop)
    (R1 : A -> A -> Prop) (R2 : B -> B -> Prop) (l1 : list A) (l2 : list B) :
  (forall a b x y, Q a x -> Q b y -> R1 a b -> R2 x y) ->
  Forall2 Q l1 l2 -> StronglySorted R1 l1 -> StronglySorted R2 l2.
Proof.
  intros HQ F. induction F as [ | a x l1 l2 Hax F IH]; intros S.
  - constructor.
  - inversion S as [ | ? ? HS HF]; subst. constructor; [now apply IH | ].
    rewrite Forall_forall in *. intros y Hy.
    destruct (forall2_in_r _ _ _ _ F Hy) as (b & Hb & Hby).
    eapply HQ; eauto.
Qed.

(** C6: from a store of at least ten rows the program can read, the
    feed has exactly ten entries; they stand for the rows with the ten
    latest dates, in descending order of date; and the description of
    each is an image tag whose source is the base URL, a slash and the
    file name of its row. *)
Theorem feed_ten_latest (e : env) (baseurl : string) (s : state) :
  forallb (readable e) (rows s) = true ->
  (10 <= List.length (rows s))%nat ->
  exists f latest older,
    Dilbert.feed e baseurl s = Ok f
    /\ List.length (feed_items f) = 10%nat
    /\ Permutation (latest ++ older) (rows s)
    /\ (forall a b da db,
          In a latest -> In b older ->
          row_date a = Some da -> row_date b = Some db ->
          PyDate.leb db da = true)
    /\ Forall2 (item_of_row e baseurl) latest (feed_items f)
    /\ StronglySorted
         (fun x y => PyDate.leb (dt_date (item_pubdate y))
                                (dt_date (item_pubdate x)) = true)
         (feed_items f).
Proof.
  intros HR Hlen.
  pose proof (readable_dated e _ HR) as D.
  pose proof (order_sorted _ D) as S.
  pose proof (order_perm (rows s)) as P.
  set (sorted := order_by_pubdate_desc (rows s)) in *.
  assert (Esel : select_latest 10 (rows s) = firstn 10 sorted) by reflexivity.
  rewrite <- (firstn_skipn 10 sorted) in S, P.
  destruct (sorted_app _ _ _ S) as [S1 C].
  assert (F1 : Forall (fun r => readable e r = true) (firstn 10 sorted)).
  { rewrite Forall_forall. intros r Hr.
    rewrite forallb_forall in HR. apply HR.
    apply (Permutation_in _ P). apply in_or_app. now left. }
  destruct (comics_of_rows_readable e _ F1) as (cs & Ec & F2).
  destruct (add_items_spec e baseurl _ _ F2 []) as (items & Ei & F3).
  exists (mkfeed "De dagelijke Dilbert" "http://dilbert.com/"
                 (baseurl ++ "/" ++ Dilbert.feedname)
                 "Daily dilbert in a nice feed" "en" items),
    (firstn 10 sorted), (skipn 10 sorted).
  cbn [feed_items]. split; [ | split; [ | split; [ | split; [ | split]]]].
  - unfold Dilbert.feed, Dilbert.comics. now rewrite Esel, Ec, Ei.
  - rewrite <- (Forall2_length F3), length_firstn.
    unfold sorted. rewrite order_length. lia.
  - exact P.
  - intros a b da db Ha Hb Hda Hdb. specialize (C a b Ha Hb).
    unfold desc, row_ordinal in C. rewrite Hda, Hdb in C.
    apply leb_toordinal; eauto using row_date_valid.
  - exact F3.
  - apply (sorted_forall2 (item_of_row e baseurl) desc _ _ _ ) with (3 := S1);
      [ | exact F3].
    intros a b x y (da & ? & ? & Hda & Hx & _) (db & ? & ? & Hdb & Hy & _) Hab.
    rewrite Hx, Hy. cbn [dt_date datetime_midnight].
    unfold desc, row_ordinal in Hab. rewrite Hda, Hdb in Hab.
    apply leb_toordinal; eauto using row_date_valid.
Qed.

End Claims.

(* ================================================================== *)
(** * The theorems at work *)
(* ================================================================== *)

Module Witnesses.
Import Calendar Text Store Run XPath Claims.
Lemma latest_date_is_maximum_witness :
  all_dated (rows full_state) = true
  /\ exists L,
       Dilbert.latest_date_in_db full_state = Ok (Some L)
       /\ forall x d, In x (rows full_state) -> row_date x = Some d ->
                      PyDate.leb d L = true.
Proof.
  assert (D : all_dated (rows full_state) = true) by (vm_compute; reflexivity).
  split; [exact D | ].
  destruct (latest_date_is_maximum full_state D) as [_ H].
  destruct H as (L & E & _ & Hmax); [vm_compute; discriminate | ].
  exists L. split; assumption.
Defined.

Lemma update_from_latest_date_witness :
  is_latest (rows partial_state) (mkdate 2024 3 12) = true
  /\ add_days (mkdate 2024 3 12) 1 = Ok (mkdate 2024 3 13)
  /\ exists ds,
       Dilbert.update_range example_env partial_state = Ok (map Ok ds)
       /\ StronglySorted (fun d1 d2 => PyDate.ltb d1 d2 = true) ds.
Proof.
  assert (H1 : all_dated (rows partial_state) = true)
    by (vm_compute; reflexivity).
  assert (H2 : is_latest (rows partial_state) (mkdate 2024 3 12) = true)
    by (vm_compute; reflexivity).
  assert (H3 : valid (today example_env) = true) by (vm_compute; reflexivity).
  assert (H4 : add_days (mkdate 2024 3 12) 1 = Ok (mkdate 2024 3 13))
    by (vm_compute; reflexivity).
  split; [exact H2 | ]. split; [exact H4 | ].
  destruct (update_from_latest_date example_env partial_state
              (mkdate 2024 3 12) (mkdate 2024 3 13) H1 H2 H3 H4)
    as (ds & E & _ & S & _).
  exists ds. split; assumption.
Defined.

Lemma update_empty_store_witness :
  sub_days (today example_env) 10 = Ok (mkdate 2024 3 5)
  /\ exists ds,
       Dilbert.update_range example_env empty_state = Ok (map Ok ds)
       /\ ds = march_2024 6 15.
Proof.
  assert (H1 : valid (today example_env) = true) by (vm_compute; reflexivity).
  assert (H2 : sub_days (today example_env) 10 = Ok (mkdate 2024 3 5))
    by (vm_compute; reflexivity).
  split; [exact H2 | ].
  destruct (update_empty_store example_env empty_state (mkdate 2024 3 5)
              eq_refl H1 H2)
    as (ds & _ & E & _ & _ & M & _).
  exists ds. split; [exact E | apply M; reflexivity].
Defined.

Lemma update_twice_witness :
  Dilbert.update example_env empty_state = (full_state, Ok tt)
  /\ Dilbert.update_range example_env full_state = Ok []
  /\ Dilbert.update example_env full_state = (full_state, Ok tt).
Proof.
  assert (H1 : valid (today example_env) = true) by (vm_compute; reflexivity).
  assert (H2 : today example_env <> date_max) by discriminate.
  assert (H3 : Dilbert.update example_env empty_state = (full_state, Ok tt))
    by (vm_compute; reflexivity).
  split; [exact H3 | ].
  exact (update_twice example_env example_env empty_state full_state
           eq_refl H1 H2 eq_refl H3).
Defined.

Lemma missing_comic_aborts_witness :
  exists s1 s2,
    for_each (map Ok (march_2024 6 9)) (Dilbert.update_step outage_env)
      empty_state = (s1, Ok tt)
    /\ for_each (map Ok (march_2024 6 9 ++ mkdate 2024 3 10 :: march_2024 11 15))
         (Dilbert.update_step outage_env) empty_state
       = (s2, Raise IndexError)
    /\ rows s2 = rows s1
    /\ fetched (trace s2) = fetched (trace s1) ++ [mkdate 2024 3 10].
Proof.
  exists (fst (for_each (map Ok (march_2024 6 9))
                 (Dilbert.update_step outage_env) empty_state)).
  assert (H1 : for_each (map Ok (march_2024 6 9))
                 (Dilbert.update_step outage_env) empty_state
               = (fst (for_each (map Ok (march_2024 6 9))
                         (Dilbert.update_step outage_env) empty_state),
                  Ok tt))
    by (vm_compute; reflexivity).
  destruct (missing_comic_aborts outage_env (mkdate 2024 3 10)
              (march_2024 6 9) (march_2024 11 15) empty_state _
              200 [Byte.x01] blocked_page H1)
    as (s2 & _ & _ & E & R & _ & T);
    try (vm_compute; reflexivity).
  exists s2.
  split; [exact H1 | split; [exact E | split; [exact R | exact T]]].
Defined.

Lemma second_insert_fails_witness :
  exists s1,
    Dilbert.write_comic_to_db example_env bare_comic empty_state = (s1, Ok tt)
    /\ Dilbert.write_comic_to_db example_env bare_comic s1
       = (s1, Raise IntegrityError).
Proof.
  eexists. split; [reflexivity | ].
  exact (proj1 (second_insert_fails example_env)
           bare_comic bare_comic empty_state _ (Ok tt) eq_refl eq_refl).
Defined.

Lemma feed_ten_latest_witness :
  exists f,
    Dilbert.feed example_env "http://localhost" full_state = Ok f
    /\ List.length (feed_items f) = 10%nat.
Proof.
  assert (H1 : forallb (readable example_env) (rows full_state) = true)
    by (vm_compute; reflexivity).
  assert (H2 : (10 <= List.length (rows full_state))%nat)
    by (vm_compute; lia).
  destruct (feed_ten_latest example_env "http://localhost" full_state H1 H2)
    as (f & _ & _ & E & L & _).
  exists f. split; assumption.
Defined.

Lemma row_only_after_success_witness :
  exists s' row,
    Dilbert.update_comic_by_pubdate example_env (mkdate 2024 3 6) empty_state
    = (s', Ok tt)
    /\ rows s' = [row]
    /\ comic_row (mkdate 2024 3 6) row
    /\ files s' = [("cartoons/2024-03-06.gif", [])].
Proof.
  eexists.
  assert (H1 : Dilbert.update_comic_by_pubdate example_env (mkdate 2024 3 6)
                 empty_state
               = (fst (Dilbert.update_comic_by_pubdate example_env
                         (mkdate 2024 3 6) empty_state), Ok tt))
    by (vm_compute; reflexivity).
  destruct (row_only_after_success _ _ _ _ _ H1) as [_ H].
  destruct H as (st & body & html & el & others & alt & ist & image & row
                 & _ & _ & _ & _ & _ & _ & F & _ & R & C);
    [vm_compute; discriminate | ].
  exists row. split; [exact H1 | ]. split; [exact R | ].
  split; [exact C | ]. vm_compute. reflexivity.
Defined.

Lemma empty_title_placeholder_witness :
  exists row,
    rows (fst (Dilbert.write_comic_to_db example_env untitled_comic
                 empty_state)) = [row]
    /\ Row.title row = SqlText "-".
Proof.
  destruct (empty_title_placeholder example_env None
              (Some (mkdate 2024 3 10))
              (PyStr "http://assets.example/strip.gif")
              (PyPath "2024-03-10.gif") (Some EmptyString) None
              (PyStr "900") (PyStr "280") empty_state
              (fst (Dilbert.write_comic_to_db example_env untitled_comic
                      empty_state)))
    as (_ & _ & _ & H).
  destruct (H eq_refl) as (row & R & _ & _ & T).
  exists row. split; [exact R | apply T; reflexivity].
Defined.

Lemma insert_stringifies_witness :
  exists row,
    rows (fst (Dilbert.write_comic_to_db example_env bare_comic empty_state))
    = [row]
    /\ Row.title row = SqlText "None"
    /\ Row.width row = SqlText "None"
    /\ Row.height row = SqlText "None".
Proof.
  destruct (insert_stringifies example_env bare_comic empty_state
              (fst (Dilbert.write_comic_to_db example_env bare_comic
                      empty_state)) eq_refl)
    as (row & R & _ & _ & _ & T & W & H & _).
  exists row. split; [exact R | ].
  split; [apply T | split; [apply W | apply H]]; reflexivity.
Defined.

End Witnesses.

(* ================================================================== *)
(** * Further properties of the program *)
(* ================================================================== *)

Module Further.
Import Calendar Text Store XPath Run Claims.

(** ** [_daterange] *)

(** X1: for two dates, [_daterange] never raises and yields exactly
    the dates from the first to the second, both included, each once
    and in ascending order; it yields nothing when the second date is
    before the first. *)
Theorem daterange_inclusive (start_date end_date : date) :
  valid start_date = true -> valid end_date = true ->
  exists ds,
    _daterange start_date end_date = map Ok ds
    /\ (forall d, In d ds <->
                  valid d = true /\ PyDate.leb start_date d = true
                  /\ PyDate.leb d end_date = true)
    /\ StronglySorted (fun d1 d2 => PyDate.ltb d1 d2 = true) ds
    /\ List.length ds = Z.to_nat (days_between end_date start_date + 1)
    /\ (PyDate.ltb end_date start_date = true -> ds = []).
Proof.
  intros Vs Ve.
  pose proof (toordinal_range _ Vs) as Rs.
  pose proof (toordinal_range _ Ve) as Re.
  exists (days (toordinal start_date) (toordinal end_date)).
  split; [now apply daterange_days | ].
  split; [ | split; [ | split]].
  - intros d. rewrite in_days by lia. split.
    + intros [V H]. split; [exact V | ].
      split; apply leb_toordinal; try assumption; lia.
    + intros (V & H1 & H2). split; [exact V | ].
      apply leb_toordinal in H1, H2; try assumption. lia.
  - apply days_ascending; lia.
  - apply days_length.
  - intros H. apply ltb_toordinal in H; try assumption.
    apply days_empty. lia.
Qed.

(** ** The XPath query *)

Lemma prefix_app_same (m a b : string) :
  prefix (m ++ a) (m ++ b) = prefix a b.
Proof.
  induction m as [ | c m IH]; [reflexivity | ].
  cbn [append]. rewrite prefix_cons, IH, Ascii.eqb_refl. reflexivity.
Qed.

Lemma contains_app_r (s1 s2 n : string) :
  contains s2 n = true -> contains (s1 ++ s2) n = true.
Proof.
  intros H. induction s1 as [ | c s1 IH]; [exact H | ].
  cbn [append contains]. rewrite IH. apply orb_true_r.
Qed.

Lemma contains_prefix (s n : string) :
  prefix n s = true -> contains s n = true.
Proof. intros H. destruct s; cbn [contains]; now rewrite H. Qed.

Lemma padded_contains (m : string) (ts : list string) :
  In m ts -> contains (padded ts) (" " ++ m ++ " ") = true.
Proof.
  induction ts as [ | t ts IH]; [intros [] | ].
  intros [-> | H]; cbn [padded].
  - apply contains_prefix. cbn [append]. rewrite prefix_cons.
    rewrite prefix_app_same.
    destruct (padded_head ts) as [r ->].
    rewrite (prefix_cons " " " " EmptyString r). now destruct r.
  - change (String " " (t ++ padded ts))
      with (String " " t ++ padded ts)%string.
    apply contains_app_r. now apply IH.
Qed.

Lemma class_test_iff (cls : string) :
  contains (" " ++ normalize_space cls ++ " ") (" " ++ marker_class ++ " ")
  = true
  <-> In marker_class (split_ws cls EmptyString).
Proof.
  split; [apply class_test_marker | ].
  unfold normalize_space.
  destruct (split_ws cls EmptyString) as [ | t ts]; [intros [] | ].
  rewrite padded_concat. apply padded_contains.
Qed.

(** X2: the query selects an element exactly when it is an [img] whose
    class attribute, split at white space, has [img-comic] among its
    items; the elements it returns are these elements of the
    document. *)
Theorem comic_img_iff (doc el : element) :
  (is_comic_img el = true
   <-> el_tag el = "img" /\ has_marker_class el = true)
  /\ (In el (xpath_comic_img doc)
      <-> In el (descendants_or_self doc)
          /\ el_tag el = "img" /\ has_marker_class el = true).
Proof.
  assert (H : is_comic_img el = true
              <-> el_tag el = "img" /\ has_marker_class el = true).
  { unfold is_comic_img, has_marker_class.
    rewrite andb_true_iff, String.eqb_eq.
    destruct (attr_lookup "class" (el_attrs el)) as [cls | ].
    - rewrite class_test_iff, existsb_exists. split.
      + intros [Ht Hin]. split; [exact Ht | ].
        exists marker_class. split; [exact Hin | apply String.eqb_refl].
      + intros [Ht [x [Hin Hx]]]. split; [exact Ht | ].
        apply String.eqb_eq in Hx. now subst.
    - split; intros [_ ?]; discriminate. }
  split; [exact H | ].
  unfold xpath_comic_img. rewrite filter_In, H. reflexivity.
Qed.

(** ** The title of a caption *)

Lemma dotstar_no_newline (s : string) :
  no_newline s = true -> dotstar_eol s = Some EmptyString.
Proof.
  induction s as [ | c s IH]; [reflexivity | ].
  cbn [no_newline dotstar_eol]. intros H.
  apply andb_true_iff in H. destruct H as [Hc Hs].
  apply negb_true_iff in Hc. rewrite Hc. now apply IH.
Qed.

Lemma substring_all (s : string) : substring 0 (String.length s) s = s.
Proof.
  induction s as [ | c s IH]; [reflexivity | ].
  cbn [String.length substring]. now rewrite IH.
Qed.

Lemma prefix_dash_inv (s : string) :
  prefix " - " s = true ->
  exists r, s = (" - " ++ r)%string
            /\ substring 3 (String.length s - 3) s = r.
Proof.
  intros H.
  change " - " with (String " " (String "-" (String " " EmptyString))) in H.
  destruct s as [ | c1 [ | c2 [ | c3 r]]];
    try (rewrite ?prefix_cons in H; cbn [prefix] in H;
         rewrite ?andb_false_r in H; discriminate).
  rewrite !prefix_cons in H.
  apply andb_true_iff in H. destruct H as [H1 H].
  apply andb_true_iff in H. destruct H as [H2 H].
  apply andb_true_iff in H. destruct H as [H3 _].
  apply Ascii.eqb_eq in H1, H2, H3. subst.
  exists r. split; [reflexivity | ].
  cbn [String.length Nat.sub substring].
  rewrite Nat.sub_0_r. apply substring_all.
Qed.

Lemma prefix_app (n b : string) : prefix n (n ++ b) = true.
Proof.
  induction n as [ | c n IH]; [now destruct b | ].
  cbn [append]. now rewrite prefix_cons, Ascii.eqb_refl, IH.
Qed.

Lemma no_newline_app (a b : string) :
  no_newline (a ++ b) = no_newline a && no_newline b.
Proof.
  induction a as [ | c a IH]; [reflexivity | ].
  cbn [append no_newline]. now rewrite IH, andb_assoc.
Qed.

(** X3: for a caption without a line break, the title is the caption
    cut at its first [" - "]: the caption is the title followed by a
    rest that is empty or starts with [" - "], and no [" - "] of the
    caption starts before the rest does.  A caption without [" - "]
    is its own title. *)
Theorem title_is_caption_before_dash (alt : string) :
  no_newline alt = true ->
  exists rest,
    alt = (re_sub_dash_tail alt ++ rest)%string
    /\ (rest = EmptyString \/ prefix " - " rest = true)
    /\ (forall a b, alt = (a ++ " - " ++ b)%string ->
                    rest <> EmptyString
                    /\ (String.length (re_sub_dash_tail alt)
                        <= String.length a)%nat)
    /\ (contains alt " - " = false -> re_sub_dash_tail alt = alt).
Proof.
  induction alt as [ | c s IH]; intros H.
  - exists EmptyString. repeat split; auto.
    + destruct a; discriminate.
    + destruct a; discriminate.
  - pose proof H as H'. cbn [no_newline] in H'.
    apply andb_true_iff in H'. destruct H' as [_ Hs].
    cbn [re_sub_dash_tail].
    destruct (prefix " - " (String c s)) eqn:P.
    + destruct (prefix_dash_inv _ P) as [r [E S]].
      rewrite S.
      assert (Hr : no_newline r = true).
      { rewrite E, no_newline_app in H.
        now apply andb_true_iff in H. }
      rewrite (dotstar_no_newline _ Hr).
      exists (String c s). split; [reflexivity | ].
      split; [now right | ]. split.
      * intros a b _. split; [discriminate | apply Nat.le_0_l].
      * intros C. cbn [contains] in C. rewrite P in C. discriminate.
    + destruct (IH Hs) as [rest (E & R & F & N)].
      exists rest. split; [cbn [append]; now rewrite <- E | ].
      split; [exact R | ]. split.
      * intros a b Eab. destruct a as [ | c' a].
        -- rewrite Eab in P. cbn [append] in P.
           change (String " " (String "-" (String " " b)))
             with (" - " ++ b)%string in P.
           rewrite prefix_app in P. discriminate.
        -- cbn [append] in Eab. injection Eab as _ Eab.
           destruct (F a b Eab) as [F1 F2].
           split; [exact F1 | cbn [String.length]; lia].
      * intros C. cbn [contains] in C. rewrite P in C. cbn [orb] in C.
        now rewrite (N C).
Qed.

(** ** A comic written to the table and read back *)

Lemma of_row_new_row (e : env) (c : DilbertComic.t) (s : state)
    (d : date) (dt : datetime) :
  DilbertComic.pubdate c = Some d -> valid d = true ->
  datetime_fromisoformat e (sqlite_now e (clock s)) = Some dt ->
  DilbertComic.of_row e (new_row e c s)
  = Ok (DilbertComic.mk
          (Some (last_id s + 1)) (Some d)
          (PyStr (py_str e (DilbertComic.url c)))
          (PyStr (py_str e (DilbertComic.filename c)))
          (DilbertComic.fix_title (PyStr (py_str e (DilbertComic.title c))))
          (Some dt)
          (to_python (store_text INTEGER (py_str e (DilbertComic.width c))))
          (to_python (store_text INTEGER (py_str e (DilbertComic.height c))))).
Proof.
  intros Hd V Hu.
  unfold DilbertComic.of_row, new_row.
  cbn [Row.pubdate Row.updated Row.id Row.url Row.filename Row.title
       Row.width Row.height].
  rewrite Hd. cbn [str_date].
  rewrite store_text_isoformat by exact V.
  rewrite fromisoformat_isoformat by exact V.
  rewrite Hu. reflexivity.
Qed.


(** X5: a comic without dimensions gets the text [None] for both in
    its row; read back, both are the [str] [None], and the image tag,
    which left them out for the comic as found, now carries them. *)
Theorem absent_dimensions_read_back_as_text (e : env) (c : DilbertComic.t)
    (s s' : state) (d : date) (dt : datetime) (baseurl : string) :
  DilbertComic.pubdate c = Some d -> valid d = true ->
  datetime_fromisoformat e (sqlite_now e (clock s)) = Some dt ->
  DilbertComic.width c = PyNone -> DilbertComic.height c = PyNone ->
  Dilbert.write_comic_to_db e c s = (s', Ok tt) ->
  exists row c',
    rows s' = rows s ++ [row]
    /\ Row.width row = SqlText "None" /\ Row.height row = SqlText "None"
    /\ DilbertComic.of_row e row = Ok c'
    /\ DilbertComic.width c' = PyStr "None"
    /\ DilbertComic.height c' = PyStr "None"
    /\ DilbertComic.tag e c baseurl
       = ("<img src=" ++ dq ++ baseurl ++ "/"
          ++ py_str e (DilbertComic.filename c) ++ dq
          ++ " alt=" ++ dq ++ "comic for " ++ isoformat d ++ dq
          ++ "  />")%string
    /\ DilbertComic.tag e c' baseurl
       = ("<img src=" ++ dq ++ baseurl ++ "/"
          ++ py_str e (DilbertComic.filename c) ++ dq
          ++ " alt=" ++ dq ++ "comic for " ++ isoformat d ++ dq
          ++ " width=" ++ dq ++ "None" ++ dq
          ++ " height=" ++ dq ++ "None" ++ dq ++ "/>")%string.
Proof.
  intros Hd V Hu Hw Hh W.
  pose proof (write_comic_row _ _ _ _ W) as R.
  pose proof (of_row_new_row e c s d dt Hd V Hu) as O.
  rewrite Hw, Hh in O.
  change (store_text INTEGER (py_str e PyNone)) with (SqlText "None") in O.
  cbn [to_python] in O.
  eexists. eexists. split; [exact R | ].
  split; [unfold new_row; cbn [Row.width]; now rewrite Hw | ].
  split; [unfold new_row; cbn [Row.height]; now rewrite Hh | ].
  split; [exact O | ].
  split; [reflexivity | ]. split; [reflexivity | ].
  unfold DilbertComic.tag.
  cbn [DilbertComic.width DilbertComic.height DilbertComic.filename
       DilbertComic.pubdate py_bool py_str str_date].
  rewrite Hw, Hh, Hd.
  cbn [py_bool py_str str_date].
  change (negb ("None" =? EmptyString)%string) with true. cbv iota.
  rewrite !append_assoc.
  split; do 11 (apply f_equal); reflexivity.
Qed.

(** ** Reading comics and the feed *)




Lemma select_latest_length (n : Z) (rs : list Row.t) :
  List.length (select_latest n rs)
  = if n <? 0 then List.length rs
    else Nat.min (Z.to_nat n) (List.length rs).
Proof.
  unfold select_latest. destruct (n <? 0).
  - apply order_length.
  - now rewrite length_firstn, order_length.
Qed.



(** ** A run after a run that failed *)

Lemma update_range_rows (e e2 : env) (s s1 : state) :
  rows s1 = rows s -> today e2 = today e ->
  Dilbert.update_range e2 s1 = Dilbert.update_range e s.
Proof.
  intros R T. unfold Dilbert.update_range, Dilbert.latest_date_in_db.
  now rewrite R, T.
Qed.

Lemma days_skipn (k : nat) :
  forall a b, skipn k (days a b) = days (a + Z.of_nat k) b.
Proof.
  induction k as [ | k IH]; intros a b.
  - cbn [skipn]. f_equal. lia.
  - destruct (Z_le_gt_dec a b) as [H | H].
    + rewrite (days_cons a b H). cbn [skipn]. rewrite IH. f_equal. lia.
    + rewrite (days_empty a b) by lia. rewrite days_empty by lia.
      reflexivity.
Qed.

Lemma days_split (a b : Z) (done : list date) (d : date)
    (rest : list date) :
  days a b = done ++ d :: rest ->
  d :: rest = days (a + Z.of_nat (List.length done)) b
  /\ a + Z.of_nat (List.length done) <= b.
Proof.
  intros E.
  pose proof (days_skipn (List.length done) a b) as K.
  rewrite E in K. rewrite skipn_app, skipn_all, Nat.sub_diag in K.
  cbn [skipn app] in K. split; [exact K | ].
  destruct (Z_le_gt_dec (a + Z.of_nat (List.length done)) b) as [H | H];
    [exact H | ].
  rewrite days_empty in K by lia. discriminate.
Qed.

Lemma days_firstn (a b : Z) (done : list date) (rest : list date) :
  1 <= a -> b <= _MAXORDINAL ->
  days a b = done ++ rest ->
  forall d, In d done ->
            valid d = true
            /\ a <= toordinal d < a + Z.of_nat (List.length done).
Proof.
  revert a. induction done as [ | x done IH]; intros a Ha Hb E d Hd.
  - destruct Hd.
  - destruct (Z_le_gt_dec a b) as [H | H].
    + rewrite (days_cons a b H) in E. cbn [app] in E.
      injection E as <- E.
      cbn [List.length]. destruct Hd as [<- | Hd].
      * rewrite toordinal_fromordinal by lia.
        split; [apply valid_fromordinal | ]; lia.
      * destruct (IH (a + 1) ltac:(lia) Hb E d Hd) as [V R].
        split; [exact V | lia].
    + rewrite days_empty in E by lia. discriminate.
Qed.

Lemma days_last (a b : Z) (done : list date) (rest : list date) :
  1 <= a -> b <= _MAXORDINAL -> done <> [] ->
  days a b = done ++ rest ->
  In (fromordinal (a + Z.of_nat (List.length done) - 1)) done.
Proof.
  revert a. induction done as [ | x done IH]; intros a Ha Hb N E;
    [congruence | ].
  destruct (Z_le_gt_dec a b) as [H | H].
  - rewrite (days_cons a b H) in E. cbn [app] in E. injection E as <- E.
    destruct done as [ | y done].
    + left. f_equal. cbn [List.length]. lia.
    + right.
      replace (a + Z.of_nat (List.length (fromordinal a :: y :: done)) - 1)
        with (a + 1 + Z.of_nat (List.length (y :: done)) - 1)
        by (cbn [List.length]; lia).
      apply IH; [lia | exact Hb | discriminate | exact E].
  - rewrite days_empty in E by lia. discriminate.
Qed.

Lemma fetched_starts (ds : list date) (s s' : state) (r : result unit)
    (d : date) (rest : list date) :
  ds = d :: rest -> run_outcome ds s s' r ->
  exists more, fetched (trace s') = fetched (trace s) ++ d :: more.
Proof.
  intros -> (done & new_rows & _ & _ & [(_ & _ & F) | O]).
  - now exists rest.
  - destruct O as (x & d' & rest' & _ & E & F).
    destruct done as [ | d0 done]; cbn [app] in E, F; injection E as <- E.
    + now exists [].
    + now exists (done ++ [d']).
Qed.

(** X8: when a run over a store whose rows all hold a date raises,
    either it raised before asking for any page, and the next run does
    the same, or it raised on the date [d] of its range; then the range
    of the next run on the same day is what was left of the range, from
    [d] on, so the first page the next run asks for is the one of
    [d]. *)
Theorem failed_run_resumes (e e2 : env) (s s1 : state) (x : exn) :
  all_dated (rows s) = true -> valid (today e) = true ->
  today e2 = today e ->
  Dilbert.update e s = (s1, Raise x) ->
  (s1 = s /\ Dilbert.update_range e2 s1 = Raise x)
  \/ exists done d rest,
       Dilbert.update_range e s = Ok (map Ok (done ++ d :: rest))
       /\ fetched (trace s1) = fetched (trace s) ++ done ++ [d]
       /\ Dilbert.update_range e2 s1 = Ok (map Ok (d :: rest))
       /\ forall s2 r2,
            Dilbert.update e2 s1 = (s2, r2) ->
            exists more,
              fetched (trace s2) = fetched (trace s1) ++ d :: more.
Proof.
  intros D V T U.
  pose proof U as U'. rewrite update_unfold in U'.
  destruct (Dilbert.update_range e s) as [g | y] eqn:R.
  2:{ left. injection U' as <- <-. split; [reflexivity | ].
      now rewrite (update_range_rows e e2 s s eq_refl T). }
  right.
  destruct (update_range_days e s g D V R) as (a & Ha & -> & Hlt & Hne).
  pose proof (toordinal_range _ V) as Rt.
  assert (Hb : toordinal (today e) <= _MAXORDINAL) by lia.
  pose proof (run_dates_spec e _ _ _ _ U') as O.
  destruct O as (done & new_rows & Er & F2 & [(C & _) | O]);
    [discriminate | ].
  destruct O as (x' & d & rest & _ & Ed & Ef).
  destruct (days_split _ _ _ _ _ Ed) as [Et Hle].
  assert (V2 : valid (today e2) = true) by now rewrite T.
  assert (R2 : Dilbert.update_range e2 s1 = Ok (map Ok (d :: rest))).
  { destruct done as [ | d0 done'] eqn:Edone.
    - inversion F2; subst. rewrite app_nil_r in Er.
      rewrite (update_range_rows e e2 s s1 Er T), R.
      now rewrite Ed.
    - rewrite <- Edone in *.
      assert (Nd : done <> []) by (rewrite Edone; discriminate).
      set (k := Z.of_nat (List.length done)) in *.
      assert (Hk : 1 <= k).
      { unfold k. rewrite Edone. cbn [List.length]. lia. }
      set (L := fromordinal (a + k - 1)).
      assert (VL : valid L = true) by (apply valid_fromordinal; lia).
      assert (OL : toordinal L = a + k - 1)
        by (apply toordinal_fromordinal; lia).
      assert (Fd : Forall (fun d => valid d = true) done).
      { rewrite Forall_forall. intros z Hz.
        now destruct (days_firstn _ _ _ _ Ha Hb Ed z Hz). }
      pose proof (new_rows_dated _ _ Fd F2) as F3.
      assert (D1 : all_dated (rows s1) = true).
      { rewrite Er, all_dated_app, D.
        now rewrite (forall2_dated_all _ _ F3). }
      assert (E1 : Dilbert.latest_date_in_db s1 = Ok (Some L)).
      { apply latest_date_max; [exact D1 | | ].
        - pose proof (days_last _ _ _ _ Ha Hb Nd Ed) as IL.
          destruct (forall2_in_l _ _ _ _ F3 IL) as (row & Hrow & Hd).
          exists row. split; [ | exact Hd].
          rewrite Er. apply in_or_app. now right.
        - intros z dz Hz Hdz. rewrite Er in Hz.
          apply in_app_or in Hz. destruct Hz as [Hz | Hz].
          + specialize (Hlt z dz Hz Hdz). lia.
          + destruct (forall2_in_r _ _ _ _ F3 Hz) as (d' & Hd' & Hr').
            rewrite Hr' in Hdz. injection Hdz as <-.
            destruct (days_firstn _ _ _ _ Ha Hb Ed d' Hd')
              as [_ Rd].
            fold k in Rd. lia. }
      rewrite (update_range_latest e2 s1 L V2 VL E1) by lia.
      rewrite T, OL, Et. do 3 f_equal. lia. }
  exists done, d, rest.
  split; [now rewrite Ed | ]. split; [exact Ef | ].
  split; [exact R2 | ].
  intros s2 r2 U2.
  apply (fetched_starts (d :: rest) s1 s2 r2 d rest eq_refl).
  now apply (update_range_run e2 s1).
Qed.

(** ** The insert of a run is not refused *)

Lemma string_app_inv_tail (a b t : string) :
  String.length a = String.length b ->
  (a ++ t)%string = (b ++ t)%string -> a = b.
Proof.
  revert b. induction a as [ | c a IH]; intros [ | c' b] L E;
    try discriminate; [reflexivity | ].
  cbn [append] in E. injection E as -> E.
  f_equal. apply IH; [now injection L | exact E].
Qed.

Lemma dec_digits_length (k : nat) (n : Z) :
  String.length (dec_digits k n) = k.
Proof.
  revert n. induction k as [ | k IH]; intros n; [reflexivity | ].
  cbn [dec_digits String.length]. now rewrite IH.
Qed.

Lemma string_length_app (a b : string) :
  String.length (a ++ b) = (String.length a + String.length b)%nat.
Proof.
  induction a as [ | c a IH]; [reflexivity | ].
  cbn [append String.length]. now rewrite IH.
Qed.

Lemma isoformat_length (d : date) : String.length (isoformat d) = 10%nat.
Proof.
  unfold isoformat.
  rewrite !string_length_app, !dec_digits_length. reflexivity.
Qed.

Lemma filenames_by_date_forall (rs : list Row.t) :
  filenames_by_date rs = true
  <-> forall r, In r rs ->
                exists d, row_date r = Some d
                          /\ Row.filename r = SqlText (isoformat d ++ ".gif").
Proof.
  unfold filenames_by_date. rewrite forallb_forall.
  split; intros H r Hr; specialize (H r Hr).
  - destruct (row_date r) as [d | ]; [ | discriminate].
    exists d. split; [reflexivity | ].
    destruct (Row.filename r) as [ | | | f]; try discriminate.
    cbn [sql_unique_eqb] in H. apply String.eqb_eq in H. now subst.
  - destruct H as (d & -> & ->). cbn [sql_unique_eqb].
    apply String.eqb_refl.
Qed.

Lemma filenames_by_date_dated (rs : list Row.t) :
  filenames_by_date rs = true -> all_dated rs = true.
Proof.
  rewrite filenames_by_date_forall, all_dated_forall.
  intros H r Hr. destruct (H r Hr) as (d & Hd & _). now exists d.
Qed.

Lemma filenames_by_date_app (l1 l2 : list Row.t) :
  filenames_by_date (l1 ++ l2)
  = filenames_by_date l1 && filenames_by_date l2.
Proof. apply forallb_app. Qed.

Lemma comic_row_by_date (d : date) (r : Row.t) :
  valid d = true -> comic_row d r -> filenames_by_date [r] = true.
Proof.
  intros V C. apply filenames_by_date_forall.
  intros r' [<- | []]. exists d.
  split; [now apply comic_row_date | apply C].
Qed.

(** The file name of a date is free in a table that holds no row of
    that date. *)
Lemma filename_free (d : date) (rs : list Row.t) :
  valid d = true -> filenames_by_date rs = true ->
  (forall r d', In r rs -> row_date r = Some d' -> d' <> d) ->
  filename_taken (isoformat d ++ ".gif") rs = false.
Proof.
  intros V F N.
  destruct (filename_taken _ rs) eqn:T; [ | reflexivity].
  apply filename_taken_iff in T. apply in_map_iff in T.
  destruct T as (r & Er & Hr).
  rewrite filenames_by_date_forall in F.
  destruct (F r Hr) as (d' & Hd' & Ef).
  rewrite Ef in Er.
  assert (Er' : (isoformat d' ++ ".gif")%string
                = (isoformat d ++ ".gif")%string) by congruence.
  clear Er. rename Er' into Er.
  apply string_app_inv_tail in Er;
    [ | now rewrite !isoformat_length].
  apply isoformat_inj in Er;
    [ | now apply (row_date_valid r) | exact V].
  exfalso. now apply (N r d' Hr Hd').
Qed.

Lemma update_comic_no_conflict (e : env) (d : date) (s s' : state)
    (r : result unit) :
  (forall n u, urlopen e n u <> UrlRaises IntegrityError) ->
  valid d = true -> filenames_by_date (rows s) = true ->
  (forall row d', In row (rows s) -> row_date row = Some d' -> d' <> d) ->
  Dilbert.update_comic_by_pubdate e d s = (s', r) ->
  r <> Raise IntegrityError.
Proof.
  intros Hor V F N U.
  rewrite update_comic_unfold in U.
  destruct (Dilbert.find_comic_by_pubdate e d s) as [s1 [c | x]] eqn:Ef.
  - destruct (find_comic_result _ _ _ _ _ Ef) as (_ & Efn & _).
    pose proof (find_comic_state _ _ _ _ _ Ef) as E1.
    destruct (Dilbert.download_comic e (DilbertComic.filename c)
                (DilbertComic.url c) s1) as [s2 [[] | x]] eqn:Ed.
    + destruct (download_comic_state _ _ _ _ _ _ Ed) as (R2 & _).
      rewrite write_comic_unfold in U.
      rewrite Efn in U. cbn [py_str] in U.
      rewrite R2, E1 in U. cbn [rows tick log] in U.
      rewrite (filename_free d (rows s) V F N) in U.
      injection U as _ <-. discriminate.
    + injection U as _ <-.
      rewrite download_comic_unfold in Ed. cbv zeta in Ed.
      destruct (urlopen e (clock s1) _) as [y | | st body] eqn:Eu.
      * injection Ed as _ <-. intros C. injection C as ->.
        now apply (Hor _ _ Eu).
      * injection Ed as _ <-. discriminate.
      * destruct (open_wb e _ _); [discriminate | ].
        injection Ed as _ <-. discriminate.
  - injection U as _ <-.
    rewrite find_comic_unfold in Ef. cbv zeta in Ef.
    destruct (urlopen e (clock s) _) as [y | | st body] eqn:Eu.
    + injection Ef as _ <-. intros C. injection C as ->.
      now apply (Hor _ _ Eu).
    + injection Ef as _ <-. discriminate.
    + destruct (document_fromstring e body) as [html | ].
      * destruct (xpath_comic_img html) as [ | el ?].
        -- injection Ef as _ <-. discriminate.
        -- destruct (el_get el "alt"); try discriminate;
             injection Ef as _ <-; discriminate.
      * injection Ef as _ <-. discriminate.
Qed.

Lemma run_no_conflict (e : env) :
  (forall n u, urlopen e n u <> UrlRaises IntegrityError) ->
  forall n a b s s' r,
    Z.to_nat (b - a + 1) = n -> 1 <= a -> b <= _MAXORDINAL ->
    filenames_by_date (rows s) = true ->
    (forall row d, In row (rows s) -> row_date row = Some d ->
                   toordinal d < a) ->
    for_each (map Ok (days a b)) (Dilbert.update_step e) s = (s', r) ->
    r <> Raise IntegrityError /\ filenames_by_date (rows s') = true.
Proof.
  intros Hor. induction n as [ | n IH]; intros a b s s' r En Ha Hb F N R.
  - rewrite days_empty in R by lia. cbn [map] in R.
    rewrite for_each_nil in R. injection R as <- <-.
    split; [discriminate | exact F].
  - rewrite (days_cons a b) in R by lia. cbn [map] in R.
    rewrite for_each_cons in R.
    assert (V : valid (fromordinal a) = true)
      by (apply valid_fromordinal; lia).
    assert (O : toordinal (fromordinal a) = a)
      by (apply toordinal_fromordinal; lia).
    destruct (Dilbert.update_step e (fromordinal a) s) as [s1 r1] eqn:St.
    pose proof (update_step_spec _ _ _ _ _ St) as [_ Sp].
    rewrite update_step_unfold in St.
    destruct (Dilbert.update_comic_by_pubdate e (fromordinal a) s)
      as [s0 r0] eqn:U.
    assert (C : r0 <> Raise IntegrityError).
    { apply (update_comic_no_conflict e (fromordinal a) s s0 r0 Hor V F);
        [ | exact U].
      intros row d' Hrow Hd' ->. specialize (N row _ Hrow Hd'). lia. }
    destruct r0 as [[] | x].
    + injection St as <- <-.
      destruct Sp as (row & Er & Cr). cbn [rows log] in Er.
      apply (IH (a + 1) b (log EvSleep s0) s' r); try lia.
      * cbn [rows log]. rewrite Er, filenames_by_date_app, F.
        now rewrite (comic_row_by_date _ _ V Cr).
      * cbn [rows log]. rewrite Er. intros z dz Hz Hdz.
        apply in_app_or in Hz. destruct Hz as [Hz | [<- | []]].
        -- specialize (N z dz Hz Hdz). lia.
        -- rewrite (comic_row_date _ _ V Cr) in Hdz.
           injection Hdz as <-. lia.
      * exact R.
    + injection St as <- <-. injection R as <- <-.
      split; [exact C | ]. now rewrite Sp.
Qed.

Lemma add_days_raises (d : date) (n : Z) (x : exn) :
  add_days d n = Raise x -> x = OverflowError.
Proof.
  unfold add_days. cbv zeta.
  destruct (_ && _); [discriminate | congruence].
Qed.

(** Before it asks for a page, a run over rows that hold a date can
    only fail on the calendar. *)
Lemma update_range_raises (e : env) (s : state) (x : exn) :
  all_dated (rows s) = true ->
  Dilbert.update_range e s = Raise x -> x = OverflowError.
Proof.
  intros D R. unfold Dilbert.update_range in R.
  pose proof D as D'.
  destruct (rows s) as [ | r0 rs] eqn:Er in D' |- .
  - rewrite (latest_date_empty s Er) in R.
    destruct (sub_days (today e) 10) as [st | y] eqn:S.
    + destruct (add_days st 1) as [? | y] eqn:A; [discriminate | ].
      injection R as <-. now apply (add_days_raises st 1).
    + injection R as <-. now apply (add_days_raises (today e) (- 10)).
  - assert (N : rows s <> []) by (rewrite Er; discriminate).
    destruct (latest_date_dated s D N) as (r & L & EL & _).
    rewrite EL in R.
    destruct (add_days L 1) as [? | y] eqn:A; [discriminate | ].
    injection R as <-. now apply (add_days_raises L 1).
Qed.

(** X9: in a table whose rows hold a date and the file name made of
    it, as the rows the program writes do, no insert of a run is
    refused: unless the network layer itself raises [IntegrityError],
    [update] does not raise it, and the rows of the table are still of
    that kind afterwards. *)
Theorem update_insert_not_refused (e : env) (s s' : state)
    (r : result unit) :
  filenames_by_date (rows s) = true -> valid (today e) = true ->
  (forall n u, urlopen e n u <> UrlRaises IntegrityError) ->
  Dilbert.update e s = (s', r) ->
  r <> Raise IntegrityError /\ filenames_by_date (rows s') = true.
Proof.
  intros F V Hor U.
  pose proof (filenames_by_date_dated _ F) as D.
  rewrite update_unfold in U.
  destruct (Dilbert.update_range e s) as [g | y] eqn:R.
  - destruct (update_range_days e s g D V R) as (a & Ha & -> & Hlt & _).
    pose proof (toordinal_range _ V) as Rt.
    apply (run_no_conflict e Hor _ a (toordinal (today e)) s s' r eq_refl);
      try assumption; lia.
  - injection U as <- <-. split; [ | exact F].
    rewrite (update_range_raises e s y D R). discriminate.
Qed.

(** ** The table holds consecutive days *)

Lemma dates_from_app (l1 l2 : list Row.t) :
  forall a,
    dates_from a (l1 ++ l2)
    = dates_from a l1 && dates_from (a + Z.of_nat (List.length l1)) l2.
Proof.
  induction l1 as [ | r l1 IH]; intros a.
  - cbn. f_equal. lia.
  - cbn [app dates_from List.length].
    destruct (row_date r); [ | reflexivity].
    rewrite IH, andb_assoc. do 2 f_equal. lia.
Qed.

Lemma dates_from_spec (rs : list Row.t) :
  forall a, dates_from a rs = true ->
  forall r, In r rs ->
            exists d, row_date r = Some d
                      /\ a <= toordinal d < a + Z.of_nat (List.length rs).
Proof.
  induction rs as [ | x rs IH]; intros a H r Hr; [destruct Hr | ].
  cbn [dates_from] in H.
  destruct (row_date x) as [dx | ] eqn:Ex; [ | discriminate].
  apply andb_true_iff in H. destruct H as [H1 H2].
  apply Z.eqb_eq in H1. cbn [List.length].
  destruct Hr as [<- | Hr].
  - exists dx. split; [exact Ex | lia].
  - destruct (IH _ H2 r Hr) as (d & Hd & R). exists d.
    split; [exact Hd | lia].
Qed.

Lemma dates_from_last (rs : list Row.t) :
  forall a, rs <> [] -> dates_from a rs = true ->
  exists r d, In r rs /\ row_date r = Some d
              /\ toordinal d = a + Z.of_nat (List.length rs) - 1.
Proof.
  induction rs as [ | x rs IH]; intros a N H; [congruence | ].
  cbn [dates_from] in H.
  destruct (row_date x) as [dx | ] eqn:Ex; [ | discriminate].
  apply andb_true_iff in H. destruct H as [H1 H2].
  apply Z.eqb_eq in H1.
  destruct rs as [ | y rs].
  - exists x, dx. split; [now left | ].
    split; [exact Ex | cbn [List.length]; lia].
  - destruct (IH (a + 1) ltac:(discriminate) H2) as (r & d & Hr & Hd & O).
    exists r, d. split; [now right | ]. split; [exact Hd | ].
    rewrite O. cbn [List.length]. lia.
Qed.

Lemma dates_from_consecutive (a : Z) (rs : list Row.t) :
  dates_from a rs = true -> consecutive_dates rs = true.
Proof.
  destruct rs as [ | r rs]; [reflexivity | ].
  intros H. unfold consecutive_dates, row_ordinal.
  pose proof H as H'. cbn [dates_from] in H'.
  destruct (row_date r) as [d | ]; [ | discriminate].
  apply andb_true_iff in H'. destruct H' as [H1 _].
  apply Z.eqb_eq in H1. now rewrite H1.
Qed.

Lemma consecutive_dated (rs : list Row.t) :
  consecutive_dates rs = true -> all_dated rs = true.
Proof.
  intros H. apply all_dated_forall. intros r Hr.
  destruct rs as [ | x rs]; [destruct Hr | ].
  unfold consecutive_dates in H.
  destruct (dates_from_spec _ _ H r Hr) as (d & Hd & _). now exists d.
Qed.

Lemma new_rows_from (done : list date) (new_rows : list Row.t) :
  forall a b rest,
    1 <= a -> b <= _MAXORDINAL ->
    days a b = done ++ rest -> Forall2 comic_row done new_rows ->
    dates_from a new_rows = true.
Proof.
  intros a b rest Ha Hb E F. revert a Ha E.
  induction F as [ | d r done new_rows C F IH]; intros a Ha E;
    [reflexivity | ].
  destruct (Z_le_gt_dec a b) as [H | H].
  - rewrite (days_cons a b H) in E. cbn [app] in E. injection E as <- E.
    cbn [dates_from].
    rewrite (comic_row_date (fromordinal a) r)
      by first [exact C | apply valid_fromordinal; lia].
    rewrite toordinal_fromordinal by lia. rewrite Z.eqb_refl.
    apply IH; [lia | exact E].
  - rewrite days_empty in E by lia. discriminate.
Qed.

(** X10: a run keeps the table free of gaps.  When the rows of the
    table, in the order of insertion, hold consecutive days, they still
    do after [update], however the run ends; and the run only adds rows
    at the end. *)
Theorem update_keeps_consecutive (e : env) (s s' : state)
    (r : result unit) :
  consecutive_dates (rows s) = true -> valid (today e) = true ->
  Dilbert.update e s = (s', r) ->
  consecutive_dates (rows s') = true
  /\ exists new_rows, rows s' = rows s ++ new_rows.
Proof.
  intros C V U.
  pose proof (consecutive_dated _ C) as D.
  pose proof (toordinal_range _ V) as Rt.
  rewrite update_unfold in U.
  destruct (Dilbert.update_range e s) as [g | y] eqn:R.
  2:{ injection U as <- <-. split; [exact C | ].
      exists []. now rewrite app_nil_r. }
  destruct (update_range_days e s g D V R) as (a & Ha & -> & Hlt & Hne).
  pose proof (run_dates_spec e _ _ _ _ U) as O.
  destruct (run_outcome_done _ _ _ _ O) as (done & rest & new_rows
                                            & Ed & Er & F & _).
  split; [ | now exists new_rows].
  assert (Hb : toordinal (today e) <= _MAXORDINAL) by lia.
  pose proof (new_rows_from _ _ _ _ _ Ha Hb Ed F) as N.
  rewrite Er.
  destruct (rows s) as [ | r0 rs0] eqn:E0.
  - cbn [app]. now apply (dates_from_consecutive a).
  - cbn [app]. unfold consecutive_dates in C |- *.
    change (r0 :: rs0 ++ new_rows) with ((r0 :: rs0) ++ new_rows).
    rewrite dates_from_app, C. cbn [andb].
    destruct Hne as (L & EL & VL & OL & _); [discriminate | ].
    assert (D0 : all_dated (rows s) = true) by now rewrite E0.
    assert (N0 : rows s <> []) by (rewrite E0; discriminate).
    destruct (latest_date_dated s D0 N0)
      as (rl & L' & EL' & Hin & Hd & _ & Hmax).
    rewrite EL in EL'. injection EL' as <-.
    rewrite E0 in Hin, Hmax.
    destruct (dates_from_spec _ _ C rl Hin) as (dl & Hdl & Rl).
    rewrite Hd in Hdl. injection Hdl as <-.
    destruct (dates_from_last (r0 :: rs0) _ ltac:(discriminate) C)
      as (rz & dz & Hz & Hdz & Oz).
    specialize (Hmax rz dz Hz Hdz).
    replace (row_ordinal r0 + Z.of_nat (List.length (r0 :: rs0))) with a
      by lia.
    exact N.
Qed.

(** ** Pauses and requests *)

Lemma pauses_app (t1 t2 : list event) :
  pauses (t1 ++ t2) = pauses t1 + pauses t2.
Proof.
  unfold pauses. rewrite filter_app, length_app. lia.
Qed.

Lemma requests_app (t1 t2 : list event) :
  requests (t1 ++ t2) = requests t1 + requests t2.
Proof.
  unfold requests. rewrite filter_app, length_app. lia.
Qed.

Lemma update_comic_counts (e : env) (d : date) (s s' : state)
    (r : result unit) :
  Dilbert.update_comic_by_pubdate e d s = (s', r) ->
  pauses (trace s') = pauses (trace s)
  /\ match r with
     | Ok _ => requests (trace s') = requests (trace s) + 2
               /\ row_count s' = row_count s + 1
     | Raise _ => requests (trace s) + 1 <= requests (trace s')
                  <= requests (trace s) + 2
                  /\ row_count s' = row_count s
     end.
Proof.
  intros U. rewrite update_comic_unfold in U.
  destruct (Dilbert.find_comic_by_pubdate e d s) as [s1 r1] eqn:Ef.
  pose proof (find_comic_state _ _ _ _ _ Ef) as E1.
  assert (P1 : pauses (trace s1) = pauses (trace s)
               /\ requests (trace s1) = requests (trace s) + 1
               /\ row_count s1 = row_count s).
  { rewrite E1. unfold row_count. cbn [trace rows tick log].
    rewrite !pauses_app, !requests_app. cbn. repeat split; lia. }
  destruct P1 as (Pp & Pr & Pl).
  destruct r1 as [c | x].
  2:{ injection U as <- <-. repeat split; lia. }
  destruct (Dilbert.download_comic e (DilbertComic.filename c)
              (DilbertComic.url c) s1) as [s2 r2] eqn:Ed.
  assert (P2 : pauses (trace s2) = pauses (trace s1)
               /\ requests (trace s2) = requests (trace s1) + 1
               /\ row_count s2 = row_count s1).
  { rewrite download_comic_unfold in Ed. cbv zeta in Ed.
    destruct (urlopen e (clock s1) _) as [y | | st body].
    1, 2: injection Ed as <- _; unfold row_count; cbn [trace rows tick log];
      rewrite !pauses_app, !requests_app; cbn; repeat split; lia.
    destruct (open_wb e _ _); injection Ed as <- _; unfold row_count;
      cbn [trace rows tick log];
      rewrite !pauses_app, !requests_app; cbn; repeat split; lia. }
  destruct P2 as (Qp & Qr & Ql).
  destruct r2 as [[] | x].
  2:{ injection U as <- <-. repeat split; lia. }
  rewrite write_comic_unfold in U.
  destruct (filename_taken _ _).
  - injection U as <- <-. repeat split; lia.
  - injection U as <- <-. unfold row_count in *. cbn [trace rows tick].
    rewrite length_app. cbn [List.length]. repeat split; lia.
Qed.

Lemma run_counts (e : env) (g : list (result date)) :
  forall s s' r,
    for_each g (Dilbert.update_step e) s = (s', r) ->
    pauses (trace s') - pauses (trace s) = row_count s' - row_count s
    /\ 0 <= row_count s' - row_count s
    /\ 2 * (row_count s' - row_count s)
       <= requests (trace s') - requests (trace s)
       <= 2 * (row_count s' - row_count s) + 2
    /\ (r = Ok tt ->
        requests (trace s') - requests (trace s)
        = 2 * (row_count s' - row_count s)).
Proof.
  induction g as [ | [d | x] g IH]; intros s s' r R.
  - rewrite for_each_nil in R. injection R as <- <-. repeat split; lia.
  - rewrite for_each_cons in R. rewrite update_step_unfold in R.
    destruct (Dilbert.update_comic_by_pubdate e d s) as [s1 r1] eqn:U.
    destruct (update_comic_counts _ _ _ _ _ U) as [Pp Pr].
    destruct r1 as [[] | y].
    + destruct Pr as [Pr Pl].
      destruct (IH _ _ _ R) as (I1 & I2 & I3 & I4).
      unfold row_count in *. cbn [trace rows log] in *.
      rewrite pauses_app, requests_app in *.
      change (pauses [EvSleep]) with 1 in *.
      change (requests [EvSleep]) with 0 in *.
      repeat split; try lia. intros Hr. specialize (I4 Hr). lia.
    + destruct Pr as [Pr Pl]. injection R as <- <-.
      repeat split; first [lia | discriminate].
  - cbn in R. injection R as <- <-. repeat split; first [lia | discriminate].
Qed.

(** X11: a run pauses once for each row it adds, and makes two
    requests for each row it adds: exactly these when it returns, and
    at most two more when it raises. *)
Theorem update_pauses_and_requests (e : env) (s s' : state)
    (r : result unit) :
  Dilbert.update e s = (s', r) ->
  let added := Z.of_nat (List.length (rows s'))
               - Z.of_nat (List.length (rows s)) in
  0 <= added
  /\ pauses (trace s') = pauses (trace s) + added
  /\ requests (trace s) + 2 * added <= requests (trace s')
     <= requests (trace s) + 2 * added + 2
  /\ (r = Ok tt -> requests (trace s') = requests (trace s) + 2 * added).
Proof.
  intros U added. subst added.
  rewrite update_unfold in U.
  destruct (Dilbert.update_range e s) as [g | y].
  - destruct (run_counts e g _ _ _ U) as (I1 & I2 & I3 & I4).
    unfold row_count in *. repeat split; try lia.
    intros Hr. specialize (I4 Hr). lia.
  - injection U as <- <-. repeat split; first [lia | discriminate].
Qed.

(** ** A comic without a date in the table *)

Lemma isoformat_before_none (d : date) :
  valid d = true -> String.compare (isoformat d) "None" = Lt.
Proof.
  intros V. destruct (valid_fields d V) as (Hy & _ & _).
  destruct (split_digits 3 (year d) Hy) as [Hd _].
  unfold isoformat. cbn [dec_digits append String.compare].
  set (x := year d / 10 ^ Z.of_nat 3) in *. clearbody x.
  each_digit x Hd; reflexivity.
Qed.

Lemma fold_insert_none (nr : Row.t) (l : list Row.t) :
  Row.pubdate nr = SqlText "None" -> all_dated l = true ->
  forall acc,
    fold_right insert_desc (nr :: acc) l
    = nr :: fold_right insert_desc acc l.
Proof.
  intros Hn D acc. induction l as [ | r l IH]; [reflexivity | ].
  cbn [all_dated forallb] in D. apply andb_true_iff in D.
  destruct D as [Dr D].
  cbn [fold_right]. rewrite (IH D). cbn [insert_desc].
  destruct (row_date r) as [d | ] eqn:Ed; [ | discriminate].
  destruct (row_date_inv r d Ed) as [V Ep].
  rewrite Ep, Hn. cbn [sql_compare].
  now rewrite (isoformat_before_none d V).
Qed.

Lemma order_with_none (nr : Row.t) (l : list Row.t) :
  Row.pubdate nr = SqlText "None" -> all_dated l = true ->
  order_by_pubdate_desc (l ++ [nr]) = nr :: order_by_pubdate_desc l.
Proof.
  intros Hn D. unfold order_by_pubdate_desc.
  rewrite fold_right_app. cbn [fold_right insert_desc].
  now apply fold_insert_none.
Qed.

(** X12: [write_comic_to_db] accepts a comic without a date and
    stores the text [None] as its date.  In a table whose other rows
    hold a date this row sorts first, so from then on
    [latest_date_in_db] raises [ValueError], [update] raises it before
    it asks for any page, and [feed] raises it too. *)
Theorem undated_comic_blocks_updates (e e2 : env) (c : DilbertComic.t)
    (s s1 : state) (baseurl : string) :
  all_dated (rows s) = true -> DilbertComic.pubdate c = None ->
  Dilbert.write_comic_to_db e c s = (s1, Ok tt) ->
  (exists row, rows s1 = rows s ++ [row]
               /\ Row.pubdate row = SqlText "None")
  /\ Dilbert.latest_date_in_db s1 = Raise ValueError
  /\ Dilbert.update e2 s1 = (s1, Raise ValueError)
  /\ Dilbert.feed e2 baseurl s1 = Raise ValueError.
Proof.
  intros D Hc W.
  pose proof (write_comic_row _ _ _ _ W) as R.
  assert (Hn : Row.pubdate (new_row e c s) = SqlText "None").
  { unfold new_row. cbn [Row.pubdate]. now rewrite Hc. }
  pose proof (order_with_none _ _ Hn D) as O. rewrite <- R in O.
  assert (L : Dilbert.latest_date_in_db s1 = Raise ValueError).
  { rewrite latest_date_unfold, O, Hn. reflexivity. }
  split; [eexists; split; [exact R | exact Hn] | ].
  split; [exact L | ]. split.
  - rewrite update_unfold. unfold Dilbert.update_range. now rewrite L.
  - unfold Dilbert.feed, Dilbert.comics, select_latest.
    change (10 <? 0) with false. cbv iota. rewrite O.
    change (Z.to_nat 10) with 10%nat. cbn [firstn Dilbert.comics_of_rows].
    unfold DilbertComic.of_row at 1. rewrite Hn. reflexivity.
Qed.

(** ** The files of a run *)

Lemma update_comic_files (e : env) (d : date) (s s' : state)
    (r : result unit) :
  Dilbert.update_comic_by_pubdate e d s = (s', r) ->
  files s' = files s
  \/ exists body, files s' = (image_path d, body) :: files s.
Proof.
  intros U. rewrite update_comic_unfold in U.
  destruct (Dilbert.find_comic_by_pubdate e d s) as [s1 [c | x]] eqn:Ef;
    pose proof (find_comic_state _ _ _ _ _ Ef) as E1.
  2:{ injection U as <- <-. left. now rewrite E1. }
  destruct (find_comic_result _ _ _ _ _ Ef) as (_ & Efn & _).
  assert (F1 : files s1 = files s) by now rewrite E1.
  destruct (Dilbert.download_comic e (DilbertComic.filename c)
              (DilbertComic.url c) s1) as [s2 r2] eqn:Ed.
  assert (F2 : files s2 = files s
               \/ exists body, files s2 = (image_path d, body) :: files s).
  { rewrite download_comic_unfold in Ed. cbv zeta in Ed.
    rewrite Efn in Ed. cbn [py_str] in Ed.
    destruct (urlopen e (clock s1) _) as [y | | st body].
    1, 2: injection Ed as <- _; left; exact F1.
    destruct (open_wb e _ _); injection Ed as <- _.
    - right. exists body. cbn [files log tick]. now rewrite F1.
    - left. exact F1. }
  destruct r2 as [[] | x].
  2:{ now injection U as <- <-. }
  rewrite write_comic_unfold in U.
  destruct (filename_taken _ _); injection U as <- <-; exact F2.
Qed.

Lemma fetched_grows (e : env) (g : list (result date)) :
  forall s s' r,
    for_each g (Dilbert.update_step e) s = (s', r) ->
    exists ds, fetched (trace s') = fetched (trace s) ++ ds.
Proof.
  induction g as [ | [d | x] g IH]; intros s s' r R.
  - rewrite for_each_nil in R. injection R as <- <-.
    exists []. now rewrite app_nil_r.
  - rewrite for_each_cons in R.
    destruct (Dilbert.update_step e d s) as [s1 r1] eqn:St.
    destruct (update_step_spec _ _ _ _ _ St) as [F _].
    destruct r1 as [[] | y].
    + destruct (IH _ _ _ R) as [ds E]. exists (d :: ds).
      rewrite E, F, <- app_assoc. reflexivity.
    + injection R as <- <-. now exists [d].
  - cbn in R. injection R as <- <-. exists []. now rewrite app_nil_r.
Qed.

Lemma run_image_files (e : env) (g : list (result date)) :
  forall s s' r,
    for_each g (Dilbert.update_step e) s = (s', r) ->
    exists new,
      files s' = new ++ files s
      /\ forall p b, In (p, b) new ->
                     exists d, In d (fetched (trace s'))
                               /\ p = image_path d.
Proof.
  induction g as [ | [d | x] g IH]; intros s s' r R.
  - rewrite for_each_nil in R. injection R as <- <-.
    exists []. split; [reflexivity | intros ? ? []].
  - rewrite for_each_cons in R.
    destruct (Dilbert.update_step e d s) as [s1 r1] eqn:St.
    destruct (update_step_spec _ _ _ _ _ St) as [F _].
    rewrite update_step_unfold in St.
    destruct (Dilbert.update_comic_by_pubdate e d s) as [s0 r0] eqn:U.
    pose proof (update_comic_files _ _ _ _ _ U) as Fi.
    assert (Fi1 : files s1 = files s
                  \/ exists body, files s1 = (image_path d, body) :: files s).
    { destruct r0 as [[] | y]; injection St as <- _; exact Fi. }
    clear Fi St U.
    destruct r1 as [[] | y].
    + destruct (IH _ _ _ R) as (new & En & Hn).
      destruct (fetched_grows _ _ _ _ _ R) as [ds Eds].
      assert (Hd : In d (fetched (trace s'))).
      { rewrite Eds, F. apply in_or_app. left.
        apply in_or_app. right. now left. }
      destruct Fi1 as [E1 | [body E1]]; rewrite E1 in En.
      * exists new. split; [exact En | exact Hn].
      * exists (new ++ [(image_path d, body)]).
        split; [now rewrite <- app_assoc | ].
        intros p b Hp. apply in_app_or in Hp.
        destruct Hp as [Hp | [Hp | []]]; [now apply (Hn p b) | ].
        injection Hp as <- _. now exists d.
    + injection R as <- <-.
      assert (Hd : In d (fetched (trace s1))).
      { rewrite F. apply in_or_app. right. now left. }
      destruct Fi1 as [E1 | [body E1]]; rewrite E1.
      * exists []. split; [reflexivity | intros ? ? []].
      * exists [(image_path d, body)]. split; [reflexivity | ].
        intros p b [Hp | []]. injection Hp as <- _. now exists d.
  - cbn in R. injection R as <- <-.
    exists []. split; [reflexivity | intros ? ? []].
Qed.

Lemma update_image_files (e : env) (s s' : state) (r : result unit) :
  Dilbert.update e s = (s', r) ->
  exists new,
    files s' = new ++ files s
    /\ forall p b, In (p, b) new ->
                   exists d, In d (fetched (trace s')) /\ p = image_path d.
Proof.
  intros U. rewrite update_unfold in U.
  destruct (Dilbert.update_range e s) as [g | y].
  - now apply (run_image_files e g s s' r).
  - injection U as <- <-.
    exists []. split; [reflexivity | intros ? ? []].
Qed.

Lemma read_file_app (path : string) (new fs : list (string * bytes)) :
  (forall p b, In (p, b) new -> p <> path) ->
  read_file path (new ++ fs) = read_file path fs.
Proof.
  intros H. unfold read_file.
  induction new as [ | [p b] new IH]; [reflexivity | ].
  cbn [app find fst].
  destruct (String.eqb_spec p path) as [E | N].
  - exfalso. apply (H p b); [now left | exact E].
  - apply IH. intros p' b' Hp. apply (H p' b'). now right.
Qed.


(** ** The script *)

Lemma feedname_not_image (d : date) : Dilbert.feedname <> image_path d.
Proof. unfold Dilbert.feedname, image_path. discriminate. Qed.

(** X14: when [update] raises, the script ends with that exception
    right there: the feed file is neither opened nor written, and holds
    what it held before the run. *)
Theorem main_failed_update_keeps_feed (w : feed_writer) (e : env)
    (argv : list string) (s s1 : state) (x : exn) :
  Dilbert.update e s = (s1, Raise x) ->
  main w e argv s = (s1, Raise x)
  /\ read_file Dilbert.feedname (files s1)
     = read_file Dilbert.feedname (files s).
Proof.
  intros U. split.
  - unfold main, bind. now rewrite U.
  - destruct (update_image_files e s s1 _ U) as (new & E & H).
    rewrite E. apply read_file_app.
    intros p b Hp Ep. destruct (H _ _ Hp) as (d & _ & Ed).
    apply (feedname_not_image d). congruence.
Qed.


(** ** An insert that is refused *)

Lemma requests_one (ev : event) :
  requests [ev] = match ev with EvGet _ => 1 | _ => 0 end.
Proof. now destruct ev. Qed.

(** X16: the image is downloaded before the row is written.  When the
    insert of a date is refused, and the exception is not one of the
    network layer, the file name of the date was in the table already;
    by then both requests were made and the image file of the date was
    written again, and the table is as it was. *)
Theorem refused_insert_after_download (e : env) (d : date)
    (s s' : state) :
  (forall n u, urlopen e n u <> UrlRaises IntegrityError) ->
  Dilbert.update_comic_by_pubdate e d s = (s', Raise IntegrityError) ->
  filename_taken (isoformat d ++ ".gif") (rows s) = true
  /\ rows s' = rows s
  /\ (exists body, files s' = (image_path d, body) :: files s)
  /\ requests (trace s') = requests (trace s) + 2.
Proof.
  intros Hor U.
  rewrite update_comic_unfold in U.
  destruct (Dilbert.find_comic_by_pubdate e d s) as [s1 [c | x]] eqn:Ef;
    pose proof (find_comic_state _ _ _ _ _ Ef) as E1.
  - destruct (find_comic_result _ _ _ _ _ Ef) as (_ & Efn & _).
    rewrite Efn in U.
    rewrite download_comic_unfold in U. cbv zeta in U.
    cbn [py_str] in U.
    destruct (urlopen e (clock s1) _) as [y | | st body] eqn:Eu.
    + injection U as _ ->. exfalso. now apply (Hor _ _ Eu).
    + discriminate.
    + destruct (open_wb e _ _); [ | discriminate].
      rewrite write_comic_unfold in U. rewrite Efn in U.
      cbn [py_str rows log tick] in U.
      destruct (filename_taken _ (rows s1)) eqn:T; [ | discriminate].
      injection U as <-. rewrite E1 in T |- *. cbn [rows log tick] in T.
      split; [exact T | ]. split; [reflexivity | ].
      split; [now exists body | ].
      cbn [trace log tick]. rewrite !requests_app, !requests_one. lia.
  - injection U as _ ->. exfalso.
    rewrite find_comic_unfold in Ef. cbv zeta in Ef.
    destruct (urlopen e (clock s) _) as [y | | st body] eqn:Eu.
    + injection Ef as _ ->. now apply (Hor _ _ Eu).
    + discriminate.
    + destruct (document_fromstring e body) as [html | ];
        [ | discriminate].
      destruct (xpath_comic_img html) as [ | el ?]; [discriminate | ].
      destruct (el_get el "alt"); discriminate.
Qed.

(** ** Dimensions in the table *)

Lemma digits_value_span (s : string) :
  forall acc n cnt,
    digits_value s acc = Some n ->
    span_digits s cnt acc = ((cnt + String.length s)%nat, n, EmptyString).
Proof.
  induction s as [ | c s IH]; intros acc n cnt H.
  - cbn in H |- *. injection H as <-. now rewrite Nat.add_0_r.
  - cbn [digits_value span_digits String.length] in H |- *.
    destruct (digit_val c) as [v | ]; [ | discriminate].
    rewrite (IH _ _ _ H). do 2 f_equal. lia.
Qed.

Lemma digits_value_nonneg (s : string) :
  forall acc n, 0 <= acc -> digits_value s acc = Some n -> 0 <= n.
Proof.
  induction s as [ | c s IH]; intros acc n Ha H.
  - cbn in H. injection H as <-. exact Ha.
  - cbn [digits_value] in H.
    destruct (digit_val c) as [v | ] eqn:Ev; [ | discriminate].
    destruct (digit_val_inv _ _ Ev) as [Hv _].
    apply (IH (acc * 10 + v)); [lia | exact H].
Qed.

Lemma classify_decimal (w : string) (n : Z) :
  decimal_value w = Some n -> n < 2 ^ 63 ->
  classify_numeric w = IntegerLiteral n.
Proof.
  intros H Hn. destruct w as [ | c s]; [discriminate | ].
  unfold decimal_value in H.
  pose proof (digits_value_nonneg _ _ _ (Z.le_refl 0) H) as Hp.
  pose proof (digits_value_span _ _ _ 0%nat H) as Sp.
  pose proof H as H'. cbn [digits_value] in H'.
  destruct (digit_val c) as [v | ] eqn:Ev; [ | discriminate].
  destruct (digit_val_inv _ _ Ev) as [Hv Ec]. clear H'.
  assert (Hs : skip_spaces (String c s) = String c s).
  { rewrite Ec. each_digit v Hv; reflexivity. }
  unfold classify_numeric. rewrite Hs.
  assert (Hsign : match String c s with
                  | String "-" r => (true, r)
                  | String "+" r => (false, r)
                  | _ => (false, String c s)
                  end = (false, String c s)).
  { rewrite Ec. each_digit v Hv; reflexivity. }
  rewrite Hsign. rewrite Sp. cbn [skip_spaces].
  cbn [String.length Nat.add Nat.ltb Nat.leb andb orb].
  assert (R : (- 2 ^ 63 <=? n) && (n <? 2 ^ 63) = true).
  { apply andb_true_iff. split; [apply Z.leb_le | apply Z.ltb_lt]; lia. }
  now rewrite R.
Qed.

(** X17: a dimension given as decimal digits, of a value below
    [2^63], is stored in its INT column as that integer and read back
    as an [int], not as the [str] that was written: leading zeros are
    gone. *)
Theorem digit_dimensions_read_back_as_int (e : env) (c : DilbertComic.t)
    (s s' : state) (d : date) (dt : datetime) (w h : string) (nw nh : Z) :
  DilbertComic.pubdate c = Some d -> valid d = true ->
  datetime_fromisoformat e (sqlite_now e (clock s)) = Some dt ->
  DilbertComic.width c = PyStr w -> DilbertComic.height c = PyStr h ->
  decimal_value w = Some nw -> nw < 2 ^ 63 ->
  decimal_value h = Some nh -> nh < 2 ^ 63 ->
  Dilbert.write_comic_to_db e c s = (s', Ok tt) ->
  exists row c',
    rows s' = rows s ++ [row]
    /\ Row.width row = SqlInt nw /\ Row.height row = SqlInt nh
    /\ DilbertComic.of_row e row = Ok c'
    /\ DilbertComic.width c' = PyInt nw
    /\ DilbertComic.height c' = PyInt nh.
Proof.
  intros Hd V Hu Hw Hh Ew Lw Eh Lh W.
  pose proof (write_comic_row _ _ _ _ W) as R.
  pose proof (of_row_new_row e c s d dt Hd V Hu) as O.
  assert (Sw : store_text INTEGER w = SqlInt nw)
    by (unfold store_text; now rewrite (classify_decimal w nw Ew Lw)).
  assert (Sh : store_text INTEGER h = SqlInt nh)
    by (unfold store_text; now rewrite (classify_decimal h nh Eh Lh)).
  rewrite Hw, Hh in O. cbn [py_str] in O. rewrite Sw, Sh in O.
  cbn [to_python] in O.
  eexists. eexists. split; [exact R | ].
  split; [unfold new_row; cbn [Row.width]; now rewrite Hw | ].
  split; [unfold new_row; cbn [Row.height]; now rewrite Hh | ].
  split; [exact O | ]. split; reflexivity.
Qed.

(** ** The table stays readable *)

Lemma update_comic_readable (e : env) (d : date) (s s' : state)
    (r : result unit) :
  (forall n, exists dt,
      datetime_fromisoformat e (sqlite_now e n) = Some dt) ->
  valid d = true ->
  forallb (readable e) (rows s) = true ->
  Dilbert.update_comic_by_pubdate e d s = (s', r) ->
  forallb (readable e) (rows s') = true.
Proof.
  intros Hnow V HR U.
  rewrite update_comic_unfold in U.
  destruct (Dilbert.find_comic_by_pubdate e d s) as [s1 [c | x]] eqn:Ef;
    pose proof (find_comic_state _ _ _ _ _ Ef) as E1.
  2:{ injection U as <- <-. now rewrite E1. }
  destruct (find_comic_result _ _ _ _ _ Ef) as (Hd & _).
  assert (R1 : rows s1 = rows s) by now rewrite E1.
  destruct (Dilbert.download_comic e (DilbertComic.filename c)
              (DilbertComic.url c) s1) as [s2 r2] eqn:Ed.
  destruct (download_comic_state _ _ _ _ _ _ Ed) as (R2 & _).
  destruct r2 as [[] | x].
  2:{ injection U as <- <-. now rewrite R2, R1. }
  rewrite write_comic_unfold in U.
  destruct (filename_taken _ _).
  - injection U as <- <-. now rewrite R2, R1.
  - injection U as <- <-. cbn [rows tick].
    rewrite forallb_app, R2, R1, HR. cbn [forallb andb].
    destruct (Hnow (clock s2)) as [dt Hdt].
    unfold readable.
    now rewrite (of_row_new_row e c s2 d dt Hd V Hdt).
Qed.

Lemma run_readable (e : env) (ds : list date) :
  (forall n, exists dt,
      datetime_fromisoformat e (sqlite_now e n) = Some dt) ->
  Forall (fun d => valid d = true) ds ->
  forall s s' r,
    forallb (readable e) (rows s) = true ->
    for_each (map Ok ds) (Dilbert.update_step e) s = (s', r) ->
    forallb (readable e) (rows s') = true.
Proof.
  intros Hnow F. induction F as [ | d ds V F IH]; intros s s' r HR R.
  - cbn [map] in R. rewrite for_each_nil in R. now injection R as <- <-.
  - cbn [map] in R. rewrite for_each_cons, update_step_unfold in R.
    destruct (Dilbert.update_comic_by_pubdate e d s) as [s1 r1] eqn:U.
    pose proof (update_comic_readable e d s s1 r1 Hnow V HR U) as H1.
    destruct r1 as [[] | x].
    + apply (IH (log EvSleep s1) s' r); [exact H1 | exact R].
    + now injection R as <- <-.
Qed.

Lemma run_readable_update (e : env) (s s' : state) (r : result unit) :
  (forall n, exists dt,
      datetime_fromisoformat e (sqlite_now e n) = Some dt) ->
  valid (today e) = true ->
  forallb (readable e) (rows s) = true ->
  Dilbert.update e s = (s', r) ->
  forallb (readable e) (rows s') = true.
Proof.
  intros Hnow V HR U.
  pose proof (readable_dated e _ HR) as D.
  pose proof (toordinal_range _ V) as Rt.
  rewrite update_unfold in U.
  destruct (Dilbert.update_range e s) as [g | y] eqn:R.
  - destruct (update_range_days e s g D V R) as (a & Ha & -> & _).
    assert (Hb : toordinal (today e) <= _MAXORDINAL) by lia.
    apply (run_readable e _ Hnow (days_valid a _ Ha Hb) _ _ _ HR U).
  - now injection U as <- <-.
Qed.

Lemma feed_of_readable (e : env) (baseurl : string) (s : state) :
  forallb (readable e) (select_latest 10 (rows s)) = true ->
  exists f,
    Dilbert.feed e baseurl s = Ok f
    /\ List.length (feed_items f) = Nat.min 10 (List.length (rows s))
    /\ Forall2 (item_of_row e baseurl)
               (select_latest 10 (rows s)) (feed_items f)
    /\ feed_url f = (baseurl ++ "/dilbert.rss")%string.
Proof.
  intros HR.
  assert (F1 : Forall (fun r => readable e r = true)
                      (select_latest 10 (rows s))).
  { rewrite Forall_forall. now apply forallb_forall. }
  destruct (comics_of_rows_readable e _ F1) as (cs & Ec & F2).
  destruct (add_items_spec e baseurl _ _ F2 []) as (items & Ei & F3).
  cbn [app] in Ei.
  eexists. unfold Dilbert.feed, Dilbert.comics. rewrite Ec, Ei.
  split; [reflexivity | ]. cbn [feed_items feed_url].
  split; [ | split; [exact F3 | reflexivity]].
  rewrite <- (Forall2_length F3).
  apply (select_latest_length 10).
Qed.

Lemma select_latest_in (n : Z) (rs : list Row.t) (r : Row.t) :
  In r (select_latest n rs) -> In r rs.
Proof.
  unfold select_latest. destruct (n <? 0); intros H.
  - now apply order_in.
  - apply order_in.
    rewrite <- (firstn_skipn (Z.to_nat n) (order_by_pubdate_desc rs)).
    apply in_or_app. now left.
Qed.

(** X18: when the time stamps the database gives to new rows are ones
    [datetime.fromisoformat] reads, a run keeps the table readable: if
    every row could be read before [update], every row can be read
    after it, however the run ends, and so [feed] returns a feed
    then. *)
Theorem update_keeps_readable (e : env) (s s' : state) (r : result unit) :
  (forall n, exists dt,
      datetime_fromisoformat e (sqlite_now e n) = Some dt) ->
  valid (today e) = true ->
  forallb (readable e) (rows s) = true ->
  Dilbert.update e s = (s', r) ->
  forallb (readable e) (rows s') = true
  /\ forall baseurl, exists f, Dilbert.feed e baseurl s' = Ok f.
Proof.
  intros Hnow V HR U.
  pose proof (run_readable_update e s s' r Hnow V HR U) as H1.
  split; [exact H1 | ]. intros baseurl.
  assert (H2 : forallb (readable e) (select_latest 10 (rows s')) = true).
  { apply forallb_forall. intros x Hx.
    rewrite forallb_forall in H1. apply H1.
    now apply (select_latest_in 10). }
  destruct (feed_of_readable e baseurl s' H2) as (f & Ef & _).
  now exists f.
Qed.

Lemma main_after_update (w : feed_writer) (e : env) (argv : list string)
    (s s1 : state) (f : Atom1Feed) :
  Dilbert.update e s = (s1, Ok tt) ->
  open_w w (clock s1) Dilbert.feedname = true ->
  Dilbert.feed e (baseurl_of_argv argv) s1 = Ok f ->
  exists s2,
    main w e argv s
    = (s2, match snd (feed_write w f) with
           | Some x => Raise x
           | None => Ok tt
           end)
    /\ rows s2 = rows s1
    /\ read_file Dilbert.feedname (files s2) = Some (fst (feed_write w f)).
Proof.
  intros U Ho Hf.
  unfold main, bind. rewrite U.
  unfold open_for_writing. rewrite Ho.
  unfold write_rss.
  set (s1' := tick _).
  assert (Ef : Dilbert.feed e (baseurl_of_argv argv) s1'
               = Dilbert.feed e (baseurl_of_argv argv) s1)
    by reflexivity.
  rewrite Ef, Hf.
  eexists. split; [reflexivity | ]. split; [reflexivity | ].
  unfold read_file. cbn [files log find fst snd].
  now rewrite String.eqb_refl.
Qed.

(** X19: the script on a readable table.  When every row of the table
    can be read, the time stamps of new rows can be read too, [update]
    returns and the feed file can be opened, the script builds the feed
    without an exception and the file holds what the feed wrote: a feed
    at [<base URL>/dilbert.rss] with as many entries as the table now
    has rows, up to ten. *)
Theorem main_publishes_latest (w : feed_writer) (e : env)
    (argv : list string) (s s1 : state) :
  (forall n, exists dt,
      datetime_fromisoformat e (sqlite_now e n) = Some dt) ->
  valid (today e) = true ->
  forallb (readable e) (rows s) = true ->
  Dilbert.update e s = (s1, Ok tt) ->
  open_w w (clock s1) Dilbert.feedname = true ->
  exists f s2,
    Dilbert.feed e (baseurl_of_argv argv) s1 = Ok f
    /\ main w e argv s
       = (s2, match snd (feed_write w f) with
              | Some x => Raise x
              | None => Ok tt
              end)
    /\ read_file Dilbert.feedname (files s2) = Some (fst (feed_write w f))
    /\ List.length (feed_items f) = Nat.min 10 (List.length (rows s1))
    /\ feed_url f = (baseurl_of_argv argv ++ "/dilbert.rss")%string.
Proof.
  intros Hnow V HR U Ho.
  assert (H1 : forallb (readable e) (rows s1) = true).
  { remember (Ok tt) as r eqn:Er in U.
    exact (run_readable_update e s s1 r Hnow V HR U). }
  assert (H2 : forallb (readable e) (select_latest 10 (rows s1)) = true).
  { apply forallb_forall. intros r Hr.
    rewrite forallb_forall in H1. apply H1.
    now apply (select_latest_in 10). }
  destruct (feed_of_readable e (baseurl_of_argv argv) s1 H2)
    as (f & Ef & L & _ & Eu).
  destruct (main_after_update w e argv s s1 f U Ho Ef) as (s2 & Em & _ & Rf).
  exists f, s2.
  split; [exact Ef | ]. split; [exact Em | ]. split; [exact Rf | ].
  split; [exact L | exact Eu].
Qed.

End Further.

(* ================================================================== *)
(** * The further theorems at work *)
(* ================================================================== *)

Module FurtherWitnesses.
Import Calendar Text Store Run XPath Claims Further.

Lemma daterange_inclusive_witness :
  exists ds,
    _daterange (mkdate 2024 3 6) (mkdate 2024 3 15) = map Ok ds
    /\ List.length ds
       = Z.to_nat (days_between (mkdate 2024 3 15) (mkdate 2024 3 6) + 1).
Proof.
  destruct (daterange_inclusive (mkdate 2024 3 6) (mkdate 2024 3 15)
              eq_refl eq_refl)
    as (ds & E & _ & _ & L & _).
  exists ds. split; [exact E | exact L].
Defined.

Lemma title_is_caption_before_dash_witness :
  exists rest,
    "Budget Meeting - Dilbert by Scott Adams"
    = (re_sub_dash_tail "Budget Meeting - Dilbert by Scott Adams"
       ++ rest)%string
    /\ (rest = EmptyString \/ prefix " - " rest = true).
Proof.
  destruct (title_is_caption_before_dash
              "Budget Meeting - Dilbert by Scott Adams" eq_refl)
    as (rest & E & R & _).
  exists rest. split; [exact E | exact R].
Defined.


Lemma absent_dimensions_read_back_as_text_witness :
  exists row c',
    rows (fst (Dilbert.write_comic_to_db example_env bare_comic
                 empty_state)) = rows empty_state ++ [row]
    /\ DilbertComic.of_row example_env row = Ok c'
    /\ DilbertComic.width c' = PyStr "None".
Proof.
  destruct (absent_dimensions_read_back_as_text example_env bare_comic
              empty_state
              (fst (Dilbert.write_comic_to_db example_env bare_comic
                      empty_state))
              (mkdate 2024 3 10) (mkdatetime (mkdate 2024 3 15) 0)
              "http://localhost"
              eq_refl eq_refl eq_refl eq_refl eq_refl eq_refl)
    as (row & c' & R & _ & _ & O & W & _).
  exists row, c'. split; [exact R | split; [exact O | exact W]].
Defined.


Lemma failed_run_resumes_witness :
  exists done rest,
    Dilbert.update_range outage_env empty_state
    = Ok (map Ok (done ++ mkdate 2024 3 10 :: rest))
    /\ Dilbert.update_range outage_env
         (fst (Dilbert.update outage_env empty_state))
       = Ok (map Ok (mkdate 2024 3 10 :: rest)).
Proof.
  assert (H1 : valid (today outage_env) = true) by (vm_compute; reflexivity).
  assert (H2 : Dilbert.update outage_env empty_state
               = (fst (Dilbert.update outage_env empty_state),
                  Raise IndexError))
    by (vm_compute; reflexivity).
  destruct (failed_run_resumes outage_env outage_env empty_state
              (fst (Dilbert.update outage_env empty_state)) IndexError
              eq_refl H1 eq_refl H2)
    as [[E _] | (done & d & rest & R & F & R2 & _)].
  - exfalso. apply (f_equal trace) in E. vm_compute in E. discriminate.
  - assert (Ed : d = mkdate 2024 3 10).
    { assert (T : fetched (trace (fst (Dilbert.update outage_env
                                         empty_state)))
                  = march_2024 6 10) by (vm_compute; reflexivity).
      rewrite T in F. cbn [fetched trace empty_state flat_map app] in F.
      assert (L : last (march_2024 6 10) d = last (done ++ [d]) d)
        by now rewrite F.
      rewrite last_last in L. rewrite <- L. vm_compute. reflexivity. }
    subst d. exists done, rest. split; [exact R | exact R2].
Defined.

Lemma update_insert_not_refused_witness :
  snd (Dilbert.update example_env partial_state) <> Raise IntegrityError
  /\ filenames_by_date
       (rows (fst (Dilbert.update example_env partial_state))) = true.
Proof.
  assert (H1 : filenames_by_date (rows partial_state) = true)
    by (vm_compute; reflexivity).
  assert (H2 : valid (today example_env) = true) by (vm_compute; reflexivity).
  assert (H3 : forall n u,
             urlopen example_env n u <> UrlRaises IntegrityError)
    by (intros n u; discriminate).
  exact (update_insert_not_refused example_env partial_state _ _ H1 H2 H3
           (surjective_pairing _)).
Defined.

Lemma update_keeps_consecutive_witness :
  consecutive_dates
    (rows (fst (Dilbert.update example_env partial_state))) = true.
Proof.
  assert (H1 : consecutive_dates (rows partial_state) = true)
    by (vm_compute; reflexivity).
  assert (H2 : valid (today example_env) = true) by (vm_compute; reflexivity).
  exact (proj1 (update_keeps_consecutive example_env partial_state _ _
                  H1 H2 (surjective_pairing _))).
Defined.

Lemma update_pauses_and_requests_witness :
  pauses (trace full_state)
  = pauses (trace empty_state)
    + (Z.of_nat (List.length (rows full_state))
       - Z.of_nat (List.length (rows empty_state))).
Proof.
  assert (H1 : Dilbert.update example_env empty_state = (full_state, Ok tt))
    by (vm_compute; reflexivity).
  destruct (update_pauses_and_requests example_env empty_state full_state
              (Ok tt) H1)
    as (_ & P & _).
  exact P.
Defined.

Lemma undated_comic_blocks_updates_witness :
  Dilbert.update example_env
    (fst (Dilbert.write_comic_to_db example_env undated_comic full_state))
  = (fst (Dilbert.write_comic_to_db example_env undated_comic full_state),
     Raise ValueError).
Proof.
  assert (H1 : all_dated (rows full_state) = true)
    by (vm_compute; reflexivity).
  assert (H2 : Dilbert.write_comic_to_db example_env undated_comic full_state
               = (fst (Dilbert.write_comic_to_db example_env undated_comic
                         full_state), Ok tt))
    by (vm_compute; reflexivity).
  destruct (undated_comic_blocks_updates example_env example_env
              undated_comic full_state _ "http://localhost" H1 eq_refl H2)
    as (_ & _ & U & _).
  exact U.
Defined.


Lemma main_failed_update_keeps_feed_witness :
  main example_writer outage_env ["dilbert.py"] empty_state
  = (fst (Dilbert.update outage_env empty_state), Raise IndexError).
Proof.
  assert (H1 : Dilbert.update outage_env empty_state
               = (fst (Dilbert.update outage_env empty_state),
                  Raise IndexError))
    by (vm_compute; reflexivity).
  exact (proj1 (main_failed_update_keeps_feed example_writer outage_env
                  ["dilbert.py"] empty_state _ IndexError H1)).
Defined.


Lemma refused_insert_after_download_witness :
  exists s1 s2,
    Dilbert.update_comic_by_pubdate example_env (mkdate 2024 3 10)
      empty_state = (s1, Ok tt)
    /\ Dilbert.update_comic_by_pubdate example_env (mkdate 2024 3 10) s1
       = (s2, Raise IntegrityError)
    /\ rows s2 = rows s1.
Proof.
  exists (fst (Dilbert.update_comic_by_pubdate example_env
                 (mkdate 2024 3 10) empty_state)).
  exists (fst (Dilbert.update_comic_by_pubdate example_env
                 (mkdate 2024 3 10)
                 (fst (Dilbert.update_comic_by_pubdate example_env
                         (mkdate 2024 3 10) empty_state)))).
  assert (H1 : Dilbert.update_comic_by_pubdate example_env
                 (mkdate 2024 3 10) empty_state
               = (fst (Dilbert.update_comic_by_pubdate example_env
                         (mkdate 2024 3 10) empty_state), Ok tt))
    by (vm_compute; reflexivity).
  assert (H2 : Dilbert.update_comic_by_pubdate example_env
                 (mkdate 2024 3 10)
                 (fst (Dilbert.update_comic_by_pubdate example_env
                         (mkdate 2024 3 10) empty_state))
               = (fst (Dilbert.update_comic_by_pubdate example_env
                         (mkdate 2024 3 10)
                         (fst (Dilbert.update_comic_by_pubdate example_env
                                 (mkdate 2024 3 10) empty_state))),
                  Raise IntegrityError))
    by (vm_compute; reflexivity).
  assert (H3 : forall n u,
             urlopen example_env n u <> UrlRaises IntegrityError)
    by (intros n u; discriminate).
  destruct (refused_insert_after_download example_env (mkdate 2024 3 10)
              _ _ H3 H2)
    as (_ & R & _).
  split; [exact H1 | split; [exact H2 | exact R]].
Defined.

Lemma digit_dimensions_read_back_as_int_witness :
  exists row c',
    rows (fst (Dilbert.write_comic_to_db example_env zero_padded_comic
                 empty_state)) = rows empty_state ++ [row]
    /\ DilbertComic.of_row example_env row = Ok c'
    /\ DilbertComic.width c' = PyInt 900.
Proof.
  destruct (digit_dimensions_read_back_as_int example_env zero_padded_comic
              empty_state
              (fst (Dilbert.write_comic_to_db example_env zero_padded_comic
                      empty_state))
              (mkdate 2024 3 10) (mkdatetime (mkdate 2024 3 15) 0)
              "0900" "280" 900 280
              eq_refl eq_refl eq_refl eq_refl eq_refl
              eq_refl eq_refl eq_refl eq_refl eq_refl)
    as (row & c' & R & _ & _ & O & W & _).
  exists row, c'. split; [exact R | split; [exact O | exact W]].
Defined.

Lemma update_keeps_readable_witness :
  forallb (readable example_env)
    (rows (fst (Dilbert.update example_env partial_state))) = true.
Proof.
  assert (H1 : forall n, exists dt,
             datetime_fromisoformat example_env (sqlite_now example_env n)
             = Some dt)
    by (intros n; exists (mkdatetime (mkdate 2024 3 15) 0); reflexivity).
  assert (H2 : valid (today example_env) = true) by (vm_compute; reflexivity).
  assert (H3 : forallb (readable example_env) (rows partial_state) = true)
    by (vm_compute; reflexivity).
  pose proof (surjective_pairing (Dilbert.update example_env partial_state))
    as H4.
  destruct (update_keeps_readable example_env partial_state
              (fst (Dilbert.update example_env partial_state))
              (snd (Dilbert.update example_env partial_state))
              H1 H2 H3 H4)
    as [R _].
  exact R.
Defined.

Lemma main_publishes_latest_witness :
  exists f,
    Dilbert.feed example_env
      (baseurl_of_argv ["dilbert.py"; "http://comics.example"]) full_state
    = Ok f
    /\ List.length (feed_items f)
       = Nat.min 10 (List.length (rows full_state)).
Proof.
  assert (H1 : forall n, exists dt,
             datetime_fromisoformat example_env (sqlite_now example_env n)
             = Some dt)
    by (intros n; exists (mkdatetime (mkdate 2024 3 15) 0); reflexivity).
  assert (H2 : valid (today example_env) = true) by (vm_compute; reflexivity).
  assert (H3 : forallb (readable example_env) (rows empty_state) = true)
    by (vm_compute; reflexivity).
  assert (H4 : Dilbert.update example_env empty_state = (full_state, Ok tt))
    by (vm_compute; reflexivity).
  assert (H5 : open_w example_writer (clock full_state) Dilbert.feedname
               = true)
    by (vm_compute; reflexivity).
  destruct (main_publishes_latest example_writer example_env
              ["dilbert.py"; "http://comics.example"]
              empty_state full_state H1 H2 H3 H4 H5)
    as (f & s2 & E & _ & _ & L & _).
  exists f. split; [exact E | exact L].
Defined.

End FurtherWitnesses.
